(** * msn-model: channel densities, parameter store, background noise and
      neuromodulation of a medium spiny neuron (MSN)

    A shallow embedding of [src/msnmodel/cell.py], [src/msnmodel/params.py],
    [src/msnmodel/modulation.py] and of the older [msn/cell.py].

    Python floats are idealised as real numbers ([R]); the one non-number
    the code manufactures itself, [np.nan], is kept as a separate value.
    Python exceptions are values of an error type and functions that can
    raise return a [pyres]. *)

From Stdlib Require Import Reals Lra Lia ZArith.
From stdpp Require Import gmap strings list.

Local Open Scope string_scope.

(** ** Python results *)

Inductive exn : Type :=
| AssertionError
| ValueError
| IndexError
| KeyError
| UnboundLocalError
| AttributeError
| ZeroDivisionError.

Inductive pyres (A : Type) : Type :=
| Ok (a : A)
| Raise (e : exn).
Arguments Ok {A} a.
Arguments Raise {A} e.

(** Sequencing: the first exception raised ends the computation. *)
#[global] Instance pyres_ret : MRet pyres := fun _ a => Ok a.
#[global] Instance pyres_bind : MBind pyres := fun _ _ k m =>
  match m with
  | Ok a => k a
  | Raise e => Raise e
  end.

(** ** Numbers *)

(** A float is a real or [np.nan]. *)
Inductive num : Type :=
| Fin (r : R)
| NaN.

Definition Rltb (x y : R) : bool := if Rlt_dec x y then true else false.
Definition Rleb (x y : R) : bool := if Rle_dec x y then true else false.
Definition Reqb (x y : R) : bool := if Req_dec_T x y then true else false.

(** [a * b]: [nan] is absorbing. *)
Definition nmul (a b : num) : num :=
  match a, b with
  | Fin x, Fin y => Fin (x * y)
  | _, _ => NaN
  end.

(** [a >= 0]: every comparison with [nan] is false. *)
Definition nge0 (a : num) : bool :=
  match a with
  | Fin x => Rleb 0 x
  | NaN => false
  end.

(** [a / b] on Python floats. *)
Definition pydiv (a b : R) : pyres R :=
  if Reqb b 0 then Raise ZeroDivisionError else Ok (a / b)%R.

(** [10**p]. *)
Definition pow10 (p : R) : R := Rpower 10 p.

(** ** Profile functions ([cell.py]) *)

(** [uniform_fun(distance, args, gbar)]: [p0 = args[0]; return 10**p0 * gbar]. *)
Definition uniform_fun (distance : R) (args : list R) (gbar : num) : pyres num :=
  match args with
  | [] => Raise IndexError
  | p0 :: _ => Ok (nmul (Fin (pow10 p0)) gbar)
  end.

(** [step_fun(distance, args, gbar)]: unpacks exactly four arguments. *)
Definition step_fun (distance : R) (args : list R) (gbar : num) : pyres num :=
  match args with
  | [p0; p1; p2; p3] =>
      let value := if Rltb p2 distance && Rltb distance p3 then p0 else p1 in
      Ok (nmul (Fin value) gbar)
  | _ => Raise ValueError
  end.

(** One row of the density-parameter list:
    [[compartment, mechanism, args, gbar]]. *)
Record density_row : Type := DensityRow {
  compartment : string;
  mechanism : string;
  shape_args : list R;
  peak : num
}.

(** [(distance - p2) / p3] followed by [1 + np.exp(...)]. *)
Definition sigmoid_den (distance p2 p3 : R) : pyres R :=
  q ← pydiv (distance - p2) p3;
  Ok (1 + exp q)%R.

(** The value bound to [density] by the if/elif chain of
    [get_channel_density], before the assertion.  [m_current] is the name
    under which the axonal M-current is dispatched: ["km"] in
    [src/msnmodel/cell.py], ["Im"] in [msn/cell.py]; the two files agree on
    everything else in this function.  [Raise UnboundLocalError] stands for
    the chain leaving [density] unbound: the assertion that reads it
    raises. *)
Definition density_of (m_current : string) (distance : R)
    (params : density_row) : pyres num :=
  let mech := mechanism params in
  let args := shape_args params in
  let gbar := peak params in
  if String.eqb (compartment params) "dend" then
    if String.eqb mech "naf" then
      match args with
      | [p0; p1; p2; p3] =>
          den ← sigmoid_den distance p2 p3;
          f ← pydiv p1 den;
          Ok (nmul (nmul gbar (Fin (pow10 p0))) (Fin (1 - p1 + f)))
      | _ => Raise ValueError
      end
    else if String.eqb mech "kaf" then
      match args with
      | [p0; p1; p2; p3] =>
          den ← sigmoid_den distance p2 p3;
          f ← pydiv p1 den;
          Ok (nmul (nmul gbar (Fin (pow10 p0))) (Fin (1 + f)))
      | _ => Raise ValueError
      end
    else if String.eqb mech "kas" then
      match args with
      | [p0; p2; p3] =>
          den ← sigmoid_den distance p2 p3;
          f ← pydiv 0.9 den;
          Ok (nmul (nmul gbar (Fin (pow10 p0))) (Fin (0.1 + f)))
      | _ => Raise ValueError
      end
    else if String.eqb mech "kir" || String.eqb mech "sk" then
      match args with
      | p0 :: _ => Ok (nmul gbar (Fin (pow10 p0)))
      | [] => Raise IndexError
      end
    else if String.eqb mech "can" then
      match args with
      | [p0; p1; p2; p3] =>
          den ← sigmoid_den distance p2 p3;
          f ← pydiv p1 den;
          Ok (Fin (pow10 p0 * (1 - p1 + f)))
      | _ => Raise ValueError
      end
    else if String.eqb mech "cav32" || String.eqb mech "cav33" then
      match args with
      | [p0; p2; p3] =>
          den ← sigmoid_den distance p2 p3;
          f ← pydiv (pow10 p0) den;
          Ok (Fin f)
      | _ => Raise ValueError
      end
    else uniform_fun distance args gbar
  else if String.eqb (compartment params) "axon" then
    if String.eqb mech "kas" || String.eqb mech m_current then
      uniform_fun distance args gbar
    else if String.eqb mech "naf" then
      step_fun distance args gbar
    else Raise UnboundLocalError
  else if String.eqb (compartment params) "soma" then
    uniform_fun distance args gbar
  else Raise UnboundLocalError.

(** [get_channel_density(distance, params)]: the chain, then
    [assert (density >= 0)]. *)
Definition get_channel_density (m_current : string) (distance : R)
    (params : density_row) : pyres num :=
  density ← density_of m_current distance params;
  if nge0 density then Ok density else Raise AssertionError.

(** ** Parameter store ([params.py]) *)

(** One row of [conductances.csv]: columns cell, mechanism, compartment,
    value.  An empty value cell is read by pandas as [nan]. *)
Record conductance_row : Type := ConductanceRow {
  c_cell : string;
  c_mechanism : string;
  c_compartment : string;
  c_value : num
}.

(** One cell of a pickled parameter file: [{'rheobase': ..,
    'variables': {mechanism: args}}]. *)
Record pickled_cell : Type := PickledCell {
  pk_rheobase : R;
  pk_variables : gmap string (list R)
}.

(** [self._params[cell_type][cell_index]]. *)
Record cell_params : Type := CellParams {
  rheobase : R;
  density_params : gmap string (list R)
}.

(** The two attributes of a [ModelParameters] object. *)
Record ModelParameters : Type := MkModelParameters {
  _params : gmap string (gmap Z cell_params);
  _conductances : list conductance_row
}.

(** [d[new] = d.pop(old)]. *)
Definition pop_into (old new : string) (d : gmap string (list R))
    : pyres (gmap string (list R)) :=
  match d !! old with
  | Some v => Ok (<[new := v]> (delete old d))
  | None => Raise KeyError
  end.

(** The body of the inner loop of [ModelParameters.__init__]. *)
Definition load_cell (val : pickled_cell) : pyres cell_params :=
  d1 ← pop_into "c33" "cav33" (pk_variables val);
  d2 ← pop_into "c32" "cav32" d1;
  Ok {| rheobase := pk_rheobase val; density_params := d2 |}.

(** A loop over the items of a dict that builds a dict of the results. *)
Definition map_items {K : Type} `{Countable K} {A B : Type}
    (f : A -> pyres B) (m : gmap K A) : pyres (gmap K B) :=
  map_fold (fun k a acc => r ← acc; b ← f a; Ok (<[k := b]> r)) (Ok ∅) m.

(** [ModelParameters.__init__]: [pickles] maps the keys of
    [files['params']] to the content of the pickled file, [csv] is the
    content of the conductance file. *)
Definition ModelParameters_init (pickles : gmap string (gmap Z pickled_cell))
    (csv : list conductance_row) : pyres ModelParameters :=
  ps ← map_items (map_items load_cell) pickles;
  Ok {| _params := ps; _conductances := csv |}.

(** [self._params[cell_type][cell_index]]. *)
Definition lookup_cell (self : ModelParameters) (cell_type : string)
    (cell_index : Z) : pyres cell_params :=
  match _params self !! cell_type with
  | Some by_index =>
      match by_index !! cell_index with
      | Some c => Ok c
      | None => Raise KeyError
      end
  | None => Raise KeyError
  end.

(** [ModelParameters.get_rheobase]. *)
Definition get_rheobase (self : ModelParameters) (cell_type : string)
    (cell_index : Z) : pyres R :=
  c ← lookup_cell self cell_type cell_index;
  Ok (rheobase c).

(** [ModelParameters.get_gbar]: the rows of the cell type or of ['all'];
    the dropped [cell] column is never read afterwards. *)
Definition get_gbar (self : ModelParameters) (cell_type : string)
    : list conductance_row :=
  filter (fun row => c_cell row = cell_type \/ c_cell row = "all")
         (_conductances self).

(** The rows selected by
    [(conductances.mechanism == mechanism) & (conductances.compartment == compartment)]. *)
Definition gbar_rows (conductances : list conductance_row)
    (mech comp : string) : list conductance_row :=
  filter (fun row => c_mechanism row = mech /\ c_compartment row = comp)
         conductances.

(** The peak value appended to a line: [np.nan] when no row is selected,
    else the value of the first selected row. *)
Definition peak_of (conductances : list conductance_row)
    (mech comp : string) : num :=
  match gbar_rows conductances mech comp with
  | [] => NaN
  | row :: _ => c_value row
  end.

Definition dend_mechs : list string :=
  ["naf"; "kaf"; "kas"; "kir"; "sk"; "can"; "cav32"; "cav33"; "kdr";
   "cal12"; "cal13"; "car"; "bk"].

Definition soma_default_mechs : list string :=
  ["naf"; "kaf"; "kas"; "kdr"; "bk"; "cal12"; "cal13"; "car"; "can"].

Definition soma_stored_mechs : list string := ["sk"; "kir"].

(** [density_params[mech]]. *)
Definition stored_args (dp : gmap string (list R)) (mech : string)
    : pyres (list R) :=
  match dp !! mech with
  | Some args => Ok args
  | None => Raise KeyError
  end.

(** A line before its peak value is appended:
    [[compartment, mechanism, args]]. *)
Definition line3 : Type := string * string * list R.

(** The dendritic line of a mechanism: the stored arguments when the
    mechanism is a key of [density_params], else [[0]]. *)
Definition dend_line (dp : gmap string (list R)) (mech : string) : line3 :=
  let args := match dp !! mech with
              | Some a => a
              | None => [0%R]
              end in
  ("dend", mech, args).

(** The somatic line of [sk] and [kir]: [density_params[mech]]. *)
Definition soma_stored_line (dp : gmap string (list R)) (mech : string)
    : pyres line3 :=
  args ← stored_args dp mech;
  Ok ("soma", mech, args).

Definition axon_lines : list line3 :=
  [("axon", "kas", [0%R]);
   ("axon", "naf", [1; 1.1; 30; 500]%R);
   ("axon", "km", [0%R])].

(** The three-element lines in the order the method appends them. *)
Definition density_lines (dp : gmap string (list R)) : pyres (list line3) :=
  let dend : list line3 := dend_line dp <$> dend_mechs in
  let soma0 : list line3 :=
    (fun mech => ("soma", mech, [0%R])) <$> soma_default_mechs in
  soma1 ← mapM (soma_stored_line dp) soma_stored_mechs;
  Ok (dend ++ soma0 ++ soma1 ++ axon_lines)%list.

(** [line.append(gbar)] with the looked-up peak value. *)
Definition with_peak (conductances : list conductance_row) (line : line3)
    : density_row :=
  let '(comp, mech, args) := line in
  {| compartment := comp; mechanism := mech; shape_args := args;
     peak := peak_of conductances mech comp |}.

(** [ModelParameters.get_density_params]. *)
Definition get_density_params (self : ModelParameters) (cell_type : string)
    (cell_index : Z) : pyres (list density_row) :=
  c ← lookup_cell self cell_type cell_index;
  lines ← density_lines (density_params c);
  Ok (List.map (with_peak (get_gbar self cell_type)) lines).

(** ** The cell ([cell.py]) *)

(** The cell types for which [files] has a morphology and a parameter
    file; no [MSN] object of another type can be constructed. *)
Inductive cell_type : Type :=
| dmsn
| imsn.

Definition type_name (t : cell_type) : string :=
  match t with
  | dmsn => "dmsn"
  | imsn => "imsn"
  end.

(** [needle in hay] on Python strings. *)
Fixpoint str_in (needle hay : string) : bool :=
  String.prefix needle hay ||
  match hay with
  | EmptyString => false
  | String _ rest => str_in needle rest
  end.

(** [int(x)] on a float: truncation towards zero. *)
Definition py_int (x : R) : Z :=
  if Rle_dec 0 x then Int_part x else (- Int_part (- x))%Z.

(** Truth value of an optional number: [None] and zero are false. *)
Definition truthy (x : option R) : bool :=
  match x with
  | Some v => negb (Reqb v 0)
  | None => false
  end.

(** A density mechanism of a segment or a point process (synapse) on it,
    with the NEURON variables the modulation code writes.  [obj_name] is
    [mech.name()] or [syn.hname()]; a [_play] field holds the handle of the
    vector that [Vector.play] has attached to the variable. *)
Record modulated : Type := Modulated {
  obj_name : string;
  damod : R;
  maxMod : R;
  level : R;
  max2 : R;
  lev2 : R;
  modShift : R;
  level_play : option nat;
  lev2_play : option nat;
  modShift_play : option nat
}.

(** What [for mech in segment] and [segment.point_processes()] yield. *)
Record segment : Type := Segment {
  seg_mechs : list modulated;
  seg_pps : list modulated
}.

Record section : Type := Section_ {
  sec_name : string;
  sec_L : R;
  sec_nseg : Z;
  sec_segments : list segment
}.

(** A point process created by [synaptic_input] / [random_synapse]:
    its kind, the section (index in [all]) and location, and the
    attributes assigned from Python. *)
Record synapse : Type := Synapse {
  syn_kind : string;
  syn_sec : nat;
  syn_x : R;
  syn_attrs : gmap string R
}.

Record NetStim : Type := MkNetStim {
  interval : R;
  number : R;
  start : R;
  noise : R
}.

Record NetCon : Type := MkNetCon {
  threshold : R;
  delay : R;
  weight : R
}.

(** One element [[synapse, netstim, netcon]] of [self._bg_noise]. *)
Definition bg_entry : Type := synapse * NetStim * NetCon.

(** The attributes of an [MSN] object that the modelled methods read or
    write.  Sections are referred to by their index in [all]. *)
Record MSN : Type := MkMSN {
  type : cell_type;
  index : Z;
  all : list section;
  soma : nat;
  dend : list nat;
  _bg_noise : list bg_entry
}.

(** What [Import3d_GUI.instantiate] leaves on the object: the section
    lists built from the SWC file. *)
Record instantiated : Type := Instantiated {
  i3d_all : list section;
  i3d_soma : list nat;
  i3d_dend : list nat
}.

(** The body of the spatial-discretisation loop. *)
Definition discretise (sec : section) : section :=
  {| sec_name := sec_name sec;
     sec_L := sec_L sec;
     sec_nseg := if str_in "axon" (sec_name sec) then 2
                 else (2 * py_int (sec_L sec / 40) + 1)%Z;
     sec_segments := sec_segments sec |}.

(** [MSN._setup_morphology], the same in both versions of [cell.py]. *)
Definition _setup_morphology (cell_type_ : cell_type) (cell_index : Z)
    (i3d : instantiated) : pyres MSN :=
  match i3d_soma i3d with
  | [s] =>
      Ok {| type := cell_type_; index := cell_index;
            all := discretise <$> i3d_all i3d;
            soma := s; dend := i3d_dend i3d; _bg_noise := [] |}
  | _ => Raise AssertionError
  end.

(** [synaptic_input] of [src/msnmodel/cell.py]. *)
Definition synaptic_input (section_ : nat) (stype : string)
    (x interval_ number_ start_ noise_ threshold_ delay_ weight_ : R)
    : pyres bg_entry :=
  if String.eqb stype "ampa" || String.eqb stype "nmda"
     || String.eqb stype "gaba" then
    Ok ({| syn_kind := stype; syn_sec := section_; syn_x := x;
           syn_attrs := ∅ |},
        {| interval := interval_; number := number_; start := start_;
           noise := noise_ |},
        {| threshold := threshold_; delay := delay_; weight := weight_ |})
  else Raise ValueError.

(** [synapse.attr = value]. *)
Definition set_attr (attr : string) (value : R) (e : bg_entry) : bg_entry :=
  let '(syn, stim, conn) := e in
  ({| syn_kind := syn_kind syn; syn_sec := syn_sec syn; syn_x := syn_x syn;
      syn_attrs := <[attr := value]> (syn_attrs syn) |}, stim, conn).

(** [if factor: synapse.attr = factor]. *)
Definition set_attr_if (attr : string) (factor : option R) (e : bg_entry)
    : bg_entry :=
  match factor with
  | Some v => if truthy factor then set_attr attr v e else e
  | None => e
  end.

(** [netcon.weight[0] = 0]. *)
Definition silence (e : bg_entry) : bg_entry :=
  let '(syn, stim, conn) := e in
  (syn, stim,
   {| threshold := threshold conn; delay := delay conn; weight := 0 |}).

(** [MSN.remove_bg_noise]: the object with its list emptied, and the
    connections it let go of, each with weight 0. *)
Definition remove_bg_noise (self : MSN) : MSN * list bg_entry :=
  if bool_decide (0 < length (_bg_noise self))%nat then
    ({| type := type self; index := index self; all := all self;
        soma := soma self; dend := dend self; _bg_noise := [] |},
     silence <$> _bg_noise self)
  else (self, []).

(** The sections background noise is added to, with their position in
    the enumeration. *)
Definition noise_sections (self : MSN) (dend_only : bool) : list nat :=
  let indexed := imap (fun i sec => (i, sec)) (all self) in
  fst <$> (if dend_only
           then List.filter (fun p => str_in "dend" (sec_name (snd p))) indexed
           else indexed).

(** The base conductance of the cell type, in uS. *)
Definition gbase_of (t : cell_type) : R :=
  match t with
  | dmsn => 3e-4
  | imsn => 2e-4
  end.

(** [delay = 0 if len(delays) == 0 else delays[indx]]. *)
Definition delay_of (delays : list R) (indx : nat) : pyres R :=
  if bool_decide (length delays = 0%nat) then Ok 0%R
  else match delays !! indx with
       | Some d => Ok d
       | None => Raise IndexError
       end.

(** The conductance of a GABA connection. *)
Definition gaba_conductance (gbase : R) (gaba_scale_factor : option R) : R :=
  match gaba_scale_factor with
  | Some f => if truthy gaba_scale_factor then (gbase * 3 * f)%R
              else (gbase * 5)%R
  | None => (gbase * 5)%R
  end.

(** The body of the loop of [MSN.add_bg_noise] in
    [src/msnmodel/cell.py]: the three elements appended for one section. *)
Definition add_bg_noise_body (gbase gaba_freq glut_freq : R)
    (ampa_scale_factor nmda_scale_factor gaba_scale_factor : option R)
    (delays : list R) (indx sec : nat) : pyres (list bg_entry) :=
  delay_ ← delay_of delays indx;
  i_ampa ← pydiv 1000 glut_freq;
  ampa ← synaptic_input sec "ampa" 0.5 i_ampa 1000 delay_ 1 0.1 0 gbase;
  i_nmda ← pydiv 1000 glut_freq;
  nmda ← synaptic_input sec "nmda" 0.5 i_nmda 1000 delay_ 1 0.1 0 gbase;
  let conductance := gaba_conductance gbase gaba_scale_factor in
  i_gaba ← pydiv 1000 gaba_freq;
  gaba ← synaptic_input sec "gaba" 0.1 i_gaba 1000 delay_ 1 0.1 0
           conductance;
  Ok [set_attr_if "scale_factor" ampa_scale_factor ampa;
      set_attr_if "scale_factor" nmda_scale_factor nmda;
      gaba].

(** A loop over [enumerate(sections)] that appends what [body] yields. *)
Fixpoint enumerate_loop (body : nat -> nat -> pyres (list bg_entry))
    (indx : nat) (sections : list nat) : pyres (list bg_entry) :=
  match sections with
  | [] => Ok []
  | sec :: rest =>
      here ← body indx sec;
      later ← enumerate_loop body (S indx) rest;
      Ok (here ++ later)%list
  end.

(** [MSN.add_bg_noise] of [src/msnmodel/cell.py]. *)
Definition add_bg_noise (self : MSN) (gaba_freq glut_freq : R)
    (dend_only : bool)
    (ampa_scale_factor nmda_scale_factor gaba_scale_factor : option R)
    (delays : list R) : pyres MSN :=
  let sections := noise_sections self dend_only in
  let self1 := fst (remove_bg_noise self) in
  let gbase := gbase_of (type self1) in
  added ← enumerate_loop
             (add_bg_noise_body gbase gaba_freq glut_freq ampa_scale_factor
                nmda_scale_factor gaba_scale_factor delays) 0 sections;
  Ok {| type := type self1; index := index self1; all := all self1;
        soma := soma self1; dend := dend self1;
        _bg_noise := (_bg_noise self1 ++ added)%list |}.

(** The older package [msn]: [msn/funcs.py] and [msn/cell.py]. *)
Module Legacy.

(** [random_synapse] with the defaults [stim_noise=1], [stim_number=1000],
    [ampa_nmda_ratio=1], [conn_delay=0] and [conn_threshold=0.1] that
    [add_bg_noise] leaves untouched. *)
Definition random_synapse (section_ : nat) (x : R) (synapse_type : string)
    (stim_start stim_interval conn_conductance : R) : pyres bg_entry :=
  let stim := {| interval := stim_interval; number := 1000;
                 start := stim_start; noise := 1 |} in
  let conn := {| threshold := 0.1; delay := 0;
                 weight := conn_conductance |} in
  if String.eqb synapse_type "glut" then
    Ok ({| syn_kind := "glut"; syn_sec := section_; syn_x := x;
           syn_attrs := {[ "ratio" := 1%R ]} |}, stim, conn)
  else if String.eqb synapse_type "gaba" then
    Ok ({| syn_kind := "gaba"; syn_sec := section_; syn_x := x;
           syn_attrs := ∅ |}, stim, conn)
  else Raise ValueError.

(** The body of the loop of [MSN.add_bg_noise] in [msn/cell.py]. *)
Definition add_bg_noise_body (gbase gaba_freq glut_freq : R)
    (ampa_scale_factor nmda_scale_factor gaba_scale_factor : option R)
    (delays : list R) (indx sec : nat) : pyres (list bg_entry) :=
  delay_ ← delay_of delays indx;
  i_glut ← pydiv 1000 glut_freq;
  glut ← random_synapse sec 0.5 "glut" delay_ i_glut gbase;
  let conductance := gaba_conductance gbase gaba_scale_factor in
  i_gaba ← pydiv 1000 gaba_freq;
  gaba ← random_synapse sec 0.1 "gaba" delay_ i_gaba conductance;
  Ok [set_attr_if "nmda_scale_factor" nmda_scale_factor
        (set_attr_if "ampa_scale_factor" ampa_scale_factor
           (set_attr "ratio" 1 glut));
      gaba].

(** [MSN.add_bg_noise] of [msn/cell.py]. *)
Definition add_bg_noise (self : MSN) (gaba_freq glut_freq : R)
    (dend_only : bool)
    (ampa_scale_factor nmda_scale_factor gaba_scale_factor : option R)
    (delays : list R) : pyres MSN :=
  let sections := noise_sections self dend_only in
  let self1 := fst (remove_bg_noise self) in
  let gbase := gbase_of (type self1) in
  added ← enumerate_loop
             (add_bg_noise_body gbase gaba_freq glut_freq ampa_scale_factor
                nmda_scale_factor gaba_scale_factor delays) 0 sections;
  Ok {| type := type self1; index := index self1; all := all self1;
        soma := soma self1; dend := dend self1;
        _bg_noise := (_bg_noise self1 ++ added)%list |}.

End Legacy.

(** The variable [_setup_density] writes for a mechanism: [pbar_] for the
    names that start with ['ca'], [gbar_] otherwise. *)
Definition density_variable (mech : string) : string :=
  ((if String.prefix "ca" mech then "pbar_" else "gbar_") ++ mech)%string.

(** A loop that appends what [body] yields for each element. *)
Fixpoint for_each {A B : Type} (body : A -> pyres (list B)) (l : list A)
    : pyres (list B) :=
  match l with
  | [] => Ok []
  | a :: rest =>
      here ← body a;
      later ← for_each body rest;
      Ok (here ++ later)%list
  end.

(** [MSN._setup_density]: the assignments [segment.<prefix><mechanism> =
    density] in the order they are executed, as (section, segment,
    variable, value).  [distance] stands for NEURON's [h.distance] from the
    soma to a segment. *)
Definition _setup_density (m_current : string) (distance : nat -> nat -> R)
    (density_params_ : list density_row) (all_ : list section)
    : pyres (list (nat * nat * string * num)) :=
  for_each (fun params =>
    for_each (fun '(i, sec) =>
      if str_in (compartment params) (sec_name sec) then
        for_each (fun '(j, _) =>
                    density ← get_channel_density m_current
                                 (distance i j) params;
                    Ok [(i, j, density_variable (mechanism params), density)])
                 (imap (fun j (seg : segment) => (j, seg)) (sec_segments sec))
      else Ok [])
      (imap (fun i (sec : section) => (i, sec)) all_))
    density_params_.

(** ** Neuromodulation ([modulation.py]) *)

Inductive neurotransmitter : Type :=
| DA
| ACh.

(** The dictionary returned by [get_modulation_params]; the three keys of
    ['synaptic'] are always the same. *)
Record modulation : Type := Modulation {
  intrinsic : gmap string R;
  synaptic_NMDA : R;
  synaptic_AMPA : R;
  synaptic_GABA : R
}.

(** [rand_uniform(lo, hi)] for the sample [u] of the unit interval. *)
Definition rand_uniform (u lo hi : R) : R := (lo + (hi - lo) * u)%R.

(** [get_modulation_params]; [u i] is the sample used by the [i]-th call
    of [rand_uniform], in the order of the dictionary literal. *)
Definition get_modulation_params (t : cell_type) (nt : neurotransmitter)
    (u : nat -> R) : modulation :=
  match t, nt with
  | imsn, DA =>
      {| intrinsic := list_to_map
           [("naf", rand_uniform (u 0%nat) 0.95 1.1);
            ("kaf", rand_uniform (u 1%nat) 1 1.1);
            ("kas", rand_uniform (u 2%nat) 1 1.1);
            ("kir", rand_uniform (u 3%nat) 0.8 1.0);
            ("cal12", rand_uniform (u 4%nat) 0.7 0.8);
            ("cal13", rand_uniform (u 5%nat) 0.7 0.8);
            ("can", rand_uniform (u 6%nat) 0.9 1.0);
            ("car", rand_uniform (u 7%nat) 0.6 0.8)];
         synaptic_NMDA := rand_uniform (u 8%nat) 0.85 1.05;
         synaptic_AMPA := rand_uniform (u 9%nat) 0.7 0.9;
         synaptic_GABA := rand_uniform (u 10%nat) 0.90 1.1 |}
  | imsn, ACh =>
      {| intrinsic := list_to_map
           [("naf", rand_uniform (u 0%nat) 1 1.2);
            ("kir", rand_uniform (u 1%nat) 0.5 0.7);
            ("cal12", rand_uniform (u 2%nat) 0.3 0.7);
            ("cal13", rand_uniform (u 3%nat) 0.3 0.7);
            ("can", rand_uniform (u 4%nat) 0.65 0.85);
            ("km", rand_uniform (u 5%nat) 0 0.4)];
         synaptic_NMDA := rand_uniform (u 6%nat) 1 1.05;
         synaptic_AMPA := rand_uniform (u 7%nat) 0.99 1.01;
         synaptic_GABA := rand_uniform (u 8%nat) 0.99 1.01 |}
  | dmsn, DA =>
      {| intrinsic := list_to_map
           [("naf", rand_uniform (u 0%nat) 0.6 0.8);
            ("kaf", rand_uniform (u 1%nat) 0.75 0.85);
            ("kas", rand_uniform (u 2%nat) 0.65 0.85);
            ("kir", rand_uniform (u 3%nat) 0.85 1.25);
            ("cal12", rand_uniform (u 4%nat) 1 2);
            ("cal13", rand_uniform (u 5%nat) 1 2);
            ("can", rand_uniform (u 6%nat) 0.2 1)];
         synaptic_NMDA := 1.3;
         synaptic_AMPA := 1.2;
         synaptic_GABA := 0.8 |}
  | dmsn, ACh =>
      {| intrinsic := list_to_map
           [("naf", rand_uniform (u 0%nat) 1 1.2);
            ("kir", rand_uniform (u 1%nat) 0.8 1);
            ("cal12", rand_uniform (u 2%nat) 0.3 0.7);
            ("cal13", rand_uniform (u 3%nat) 0.3 0.7);
            ("can", rand_uniform (u 4%nat) 0.65 0.85);
            ("km", rand_uniform (u 5%nat) 0 0.4)];
         synaptic_NMDA := 1;
         synaptic_AMPA := 1;
         synaptic_GABA := 1 |}
  end.

(** Assignments to the variables of a mechanism or point process. *)
Definition set_damod (v : R) (m : modulated) : modulated :=
  Modulated (obj_name m) v (maxMod m) (level m) (max2 m) (lev2 m)
    (modShift m) (level_play m) (lev2_play m) (modShift_play m).
Definition set_maxMod (v : R) (m : modulated) : modulated :=
  Modulated (obj_name m) (damod m) v (level m) (max2 m) (lev2 m)
    (modShift m) (level_play m) (lev2_play m) (modShift_play m).
Definition set_level (v : R) (m : modulated) : modulated :=
  Modulated (obj_name m) (damod m) (maxMod m) v (max2 m) (lev2 m)
    (modShift m) (level_play m) (lev2_play m) (modShift_play m).
Definition set_max2 (v : R) (m : modulated) : modulated :=
  Modulated (obj_name m) (damod m) (maxMod m) (level m) v (lev2 m)
    (modShift m) (level_play m) (lev2_play m) (modShift_play m).
Definition set_lev2 (v : R) (m : modulated) : modulated :=
  Modulated (obj_name m) (damod m) (maxMod m) (level m) (max2 m) v
    (modShift m) (level_play m) (lev2_play m) (modShift_play m).
Definition set_modShift (v : R) (m : modulated) : modulated :=
  Modulated (obj_name m) (damod m) (maxMod m) (level m) (max2 m) (lev2 m)
    v (level_play m) (lev2_play m) (modShift_play m).

(** [vec.play(obj._ref_level, dt)] and its two siblings. *)
Definition play_level (vec : nat) (m : modulated) : modulated :=
  Modulated (obj_name m) (damod m) (maxMod m) (level m) (max2 m) (lev2 m)
    (modShift m) (Some vec) (lev2_play m) (modShift_play m).
Definition play_lev2 (vec : nat) (m : modulated) : modulated :=
  Modulated (obj_name m) (damod m) (maxMod m) (level m) (max2 m) (lev2 m)
    (modShift m) (level_play m) (Some vec) (modShift_play m).
Definition play_modShift (vec : nat) (m : modulated) : modulated :=
  Modulated (obj_name m) (damod m) (maxMod m) (level m) (max2 m) (lev2 m)
    (modShift m) (level_play m) (lev2_play m) (Some vec).

(** [len(self.play) and key in self.play], with [self.play[key]] when it
    holds.  [play] maps a key to the handle of its vector. *)
Definition played (play : gmap string nat) (key : string) : option nat :=
  if bool_decide (size play = 0%nat) then None else play !! key.

Definition unplay (vecs : list nat) (o : option nat) : option nat :=
  match o with
  | Some v => if bool_decide (v ∈ vecs) then None else Some v
  | None => None
  end.

Definition unplay_obj (vecs : list nat) (m : modulated) : modulated :=
  Modulated (obj_name m) (damod m) (maxMod m) (level m) (max2 m) (lev2 m)
    (modShift m) (unplay vecs (level_play m)) (unplay vecs (lev2_play m))
    (unplay vecs (modShift_play m)).

Definition map_objects (f : modulated -> modulated) (sec : section)
    : section :=
  {| sec_name := sec_name sec; sec_L := sec_L sec; sec_nseg := sec_nseg sec;
     sec_segments :=
       (fun seg => {| seg_mechs := f <$> seg_mechs seg;
                      seg_pps := f <$> seg_pps seg |}) <$> sec_segments sec |}.

(** [if len(self.play): for trans in self.play.values():
    trans.play_remove()]: every variable driven by one of the vectors is
    let go of. *)
Definition play_remove_all (play : gmap string nat) (all_ : list section)
    : list section :=
  if bool_decide (size play = 0%nat) then all_
  else map_objects (unplay_obj (snd <$> map_to_list play)) <$> all_.

Definition map_segments (f : segment -> segment) (sec : section) : section :=
  {| sec_name := sec_name sec; sec_L := sec_L sec; sec_nseg := sec_nseg sec;
     sec_segments := f <$> sec_segments sec |}.

(** [for section in self._sections: for segment in section: f(segment)],
    acting on the sections of the cell that [sections] refers to (every
    reference held by a modulator is to a section of its cell). *)
Definition for_segments (f : segment -> segment) (sections : list nat)
    (all_ : list section) : list section :=
  foldl (fun acc i => alter (map_segments f) i acc) all_ sections.

Definition with_mechs (f : modulated -> modulated) (seg : segment)
    : segment :=
  {| seg_mechs := f <$> seg_mechs seg; seg_pps := seg_pps seg |}.

Definition with_pps (f : modulated -> modulated) (seg : segment) : segment :=
  {| seg_mechs := seg_mechs seg; seg_pps := f <$> seg_pps seg |}.

Definition with_all (cell : MSN) (all_ : list section) : MSN :=
  {| type := type cell; index := index cell; all := all_;
     soma := soma cell; dend := dend cell; _bg_noise := _bg_noise cell |}.

(** The sections selected by [modulate]; with any other string
    [self._sections] is never assigned and reading it fails. *)
Definition select_sections (cell : MSN) (modulate : string)
    : pyres (list nat) :=
  if String.eqb modulate "all" then Ok (seq 0 (length (all cell)))
  else if String.eqb modulate "no_axon" then Ok (soma cell :: dend cell)
  else Raise AttributeError.

Definition when (b : bool) (f : segment -> segment) (seg : segment)
    : segment :=
  if b then f seg else seg.

(** *** class [Dopamine] *)
Module Dopamine.

Record t : Type := Make {
  params : modulation;
  play : gmap string nat;
  dt : R;
  _sections : list nat
}.

(** The branch shared by the three [_modulate_*] methods once the object
    is selected: [damod = 1], [maxMod = factor], then [level]. *)
Definition modulate_obj (self : t) (factor : R) (key : string) (reset : bool)
    (obj : modulated) : modulated :=
  let obj1 := set_maxMod factor (set_damod 1 obj) in
  if reset then set_level 0 obj1
  else match played (play self) key with
       | Some vec => play_level vec obj1
       | None => set_level 1 obj1
       end.

(** [Dopamine._modulate_instrinsic]. *)
Definition _modulate_instrinsic (self : t) (reset : bool) (seg : segment)
    : segment :=
  with_mechs (fun mech =>
    match intrinsic (params self) !! obj_name mech with
    | Some factor => modulate_obj self factor (obj_name mech) reset mech
    | None => mech
    end) seg.

(** [Dopamine._modulate_gaba]. *)
Definition _modulate_gaba (self : t) (reset : bool) (seg : segment)
    : segment :=
  with_pps (fun syn =>
    if str_in "gaba" (obj_name syn)
    then modulate_obj self (synaptic_GABA (params self)) "gaba" reset syn
    else syn) seg.

(** [Dopamine._modulate_glut]. *)
Definition _modulate_glut (self : t) (reset : bool) (seg : segment)
    : segment :=
  with_pps (fun syn =>
    if str_in "ampa" (obj_name syn)
    then modulate_obj self (synaptic_AMPA (params self)) "glut" reset syn
    else if str_in "nmda" (obj_name syn)
    then modulate_obj self (synaptic_NMDA (params self)) "glut" reset syn
    else syn) seg.

(** [Dopamine.__init__]: the new object and the cell it has modulated. *)
Definition init (cell : MSN) (u : nat -> R) (modulate : string)
    (intrinsic_modulation gaba_modulation glut_modulation : bool)
    (play_ : gmap string nat) (dt_ : R) : pyres (t * MSN) :=
  sections ← select_sections cell modulate;
  let self := {| params := get_modulation_params (type cell) DA u;
                 play := play_; dt := dt_; _sections := sections |} in
  Ok (self,
      with_all cell
        (for_segments
           (fun seg =>
              when glut_modulation (_modulate_glut self false)
                (when gaba_modulation (_modulate_gaba self false)
                   (when intrinsic_modulation
                      (_modulate_instrinsic self false) seg)))
           sections (all cell))).

(** [Dopamine.reset]. *)
Definition reset (self : t) (cell : MSN) : MSN :=
  with_all cell
    (for_segments
       (fun seg =>
          _modulate_gaba self true
            (_modulate_glut self true
               (_modulate_instrinsic self true seg)))
       (_sections self) (play_remove_all (play self) (all cell))).

End Dopamine.

(** *** class [Acetylcholine] *)
Module Acetylcholine.

Record t : Type := Make {
  params : modulation;
  play : gmap string nat;
  dt : R;
  _sections : list nat
}.

(** [Acetylcholine._modulate_intrinsic].  After the [reset] branch the
    method goes on to a second [if], whose [else] assigns [lev2 = 1]. *)
Definition _modulate_intrinsic (self : t) (reset : bool) (seg : segment)
    : segment :=
  with_mechs (fun mech =>
    match intrinsic (params self) !! obj_name mech with
    | Some factor =>
        let mech1 := set_max2 factor (set_damod 1 mech) in
        let mech2 := if reset then set_lev2 0 (set_damod 0 mech1)
                     else mech1 in
        match played (play self) (obj_name mech) with
        | Some vec => play_lev2 vec mech2
        | None => set_lev2 1 mech2
        end
    | None => mech
    end) seg.

(** [Acetylcholine._shift_kaf]. *)
Definition _shift_kaf (self : t) (cell_type_ : cell_type) (by_mV : R)
    (reset : bool) (seg : segment) : segment :=
  match cell_type_ with
  | dmsn =>
      with_mechs (fun mech =>
        if String.eqb (obj_name mech) "kaf" then
          if reset then set_modShift 0 (set_damod 0 mech)
          else match played (play self) "kaf" with
               | Some vec => play_modShift vec mech
               | None => set_modShift by_mV mech
               end
        else mech) seg
  | imsn => seg
  end.

(** The branch shared by [_modulate_gaba] and [_modulate_glut] once the
    synapse is selected. *)
Definition modulate_syn (self : t) (factor : R) (key : string) (reset : bool)
    (syn : modulated) : modulated :=
  let syn1 := set_max2 factor (set_damod 1 syn) in
  if reset then set_lev2 0 (set_damod 0 syn1)
  else match played (play self) key with
       | Some vec => play_lev2 vec syn1
       | None => set_lev2 1 syn1
       end.

(** [Acetylcholine._modulate_gaba]. *)
Definition _modulate_gaba (self : t) (reset : bool) (seg : segment)
    : segment :=
  with_pps (fun syn =>
    if str_in "gaba" (obj_name syn)
    then modulate_syn self (synaptic_GABA (params self)) "gaba" reset syn
    else syn) seg.

(** [Acetylcholine._modulate_glut]. *)
Definition _modulate_glut (self : t) (reset : bool) (seg : segment)
    : segment :=
  with_pps (fun syn =>
    if str_in "ampa" (obj_name syn)
    then modulate_syn self (synaptic_AMPA (params self)) "glut" reset syn
    else if str_in "nmda" (obj_name syn)
    then modulate_syn self (synaptic_NMDA (params self)) "glut" reset syn
    else syn) seg.

(** [Acetylcholine.__init__]; [shift_kaf] is tested for truth, so a shift
    of 0 skips [_shift_kaf]. *)
Definition init (cell : MSN) (u : nat -> R) (modulate : string)
    (intrinsic_modulation gaba_modulation glut_modulation : bool)
    (shift_kaf : R) (play_ : gmap string nat) (dt_ : R)
    : pyres (t * MSN) :=
  sections ← select_sections cell modulate;
  let self := {| params := get_modulation_params (type cell) ACh u;
                 play := play_; dt := dt_; _sections := sections |} in
  Ok (self,
      with_all cell
        (for_segments
           (fun seg =>
              when (truthy (Some shift_kaf))
                (_shift_kaf self (type cell) shift_kaf false)
                (when glut_modulation (_modulate_glut self false)
                   (when gaba_modulation (_modulate_gaba self false)
                      (when intrinsic_modulation
                         (_modulate_intrinsic self false) seg))))
           sections (all cell))).

(** [Acetylcholine.reset(what)]. *)
Definition reset (self : t) (cell : MSN) (what : string) : pyres MSN :=
  if String.eqb what "all" || String.eqb what "gaba"
     || String.eqb what "glut" || String.eqb what "intrinsic" then
    let is_ (s : string) := String.eqb what "all" || String.eqb what s in
    Ok (with_all cell
          (for_segments
             (fun seg =>
                when (is_ "gaba") (_modulate_gaba self true)
                  (when (is_ "glut") (_modulate_glut self true)
                     (when (is_ "intrinsic")
                        (fun s => _shift_kaf self (type cell) (-10) true
                                    (_modulate_intrinsic self true s))
                        seg)))
             (_sections self) (play_remove_all (play self) (all cell))))
  else Raise ValueError.

End Acetylcholine.

(** ** Mechanism insertion ([cell.py]) *)

(** The three channel lists of [MSN._setup_mechanisms]; the axonal
    M-current is inserted as ["km"] in [src/msnmodel/cell.py] and as
    ["Im"] in [msn/cell.py]. *)
Definition dendritic_channels : list string :=
  (["naf"; "kaf"; "kas"; "kir"; "sk"; "can"; "cav32"; "cav33"; "kdr";
    "cal12"; "cal13"; "car"; "bk"] ++ ["cadyn"; "caldyn"])%list.

Definition somatic_channels : list string :=
  (["naf"; "kaf"; "kas"; "kdr"; "bk"; "cal12"; "cal13"; "car"; "can"; "sk";
    "kir"] ++ ["cadyn"; "caldyn"])%list.

Definition axonal_channels (m_current : string) : list string :=
  ["naf"; "kas"; m_current].

(** The list chosen for a section by the if/elif chain on its name. *)
Definition section_mechanisms (m_current : string) (name : string)
    : pyres (list string) :=
  if str_in "soma" name then Ok somatic_channels
  else if str_in "axon" name then Ok (axonal_channels m_current)
  else if str_in "dend" name then Ok dendritic_channels
  else Raise ValueError.

(** [MSN._setup_mechanisms]: for each section of [self.all], in order, the
    mechanisms passed to [sec.insert]. *)
Fixpoint _setup_mechanisms (m_current : string) (all_ : list section)
    : pyres (list (list string)) :=
  match all_ with
  | [] => Ok []
  | sec :: rest =>
      mechanisms ← section_mechanisms m_current (sec_name sec);
      later ← _setup_mechanisms m_current rest;
      Ok (mechanisms :: later)
  end.

(** [gbar_pas.value[gbar_pas.mechanism == 'pas'].values[0]] in
    [MSN.__init__]: the first ['pas'] row of [get_gbar(cell_type)]. *)
Definition pas_conductance (params : ModelParameters) (cell_type_ : string)
    : pyres num :=
  match filter (fun row => c_mechanism row = "pas")
               (get_gbar params cell_type_) with
  | row :: _ => Ok (c_value row)
  | [] => Raise IndexError
  end.

(** ** Spike detection and stimulation ([msn/instrumentation.py]) *)

Module ActionPotentials.

(** [np.where(y > threshold, 1, 0)]. *)
Definition is_above_threshold (threshold : R) (y : list R) : list bool :=
  (fun v => Rltb threshold v) <$> y.

(** [np.diff(a) == 1] on an array of zeros and ones: position [i] holds
    when [a[i] = 0] and [a[i+1] = 1]. *)
Fixpoint is_upstroke (a : list bool) : list bool :=
  match a with
  | [] => []
  | a0 :: rest =>
      match rest with
      | [] => []
      | a1 :: _ => (negb a0 && a1) :: is_upstroke rest
      end
  end.

(** The elements of [l] at the true positions of [mask]. *)
Fixpoint select {A : Type} (l : list A) (mask : list bool) : list A :=
  match l, mask with
  | a :: l', b :: mask' =>
      if b then a :: select l' mask' else select l' mask'
  | _, _ => []
  end.

(** [l[mask]] with a boolean array: the lengths must agree. *)
Definition bool_index {A : Type} (l : list A) (mask : list bool)
    : pyres (list A) :=
  if bool_decide (length l = length mask) then Ok (select l mask)
  else Raise IndexError.

(** [mask.sum()]. *)
Definition sum (mask : list bool) : nat :=
  length (List.filter (fun b : bool => b) mask).

(** [ActionPotentials._get_action_potentials]: the new values of
    [_n_spikes] and [_timestamps]. *)
Definition _get_action_potentials (x y : list R) (threshold : R)
    : pyres (nat * list R) :=
  let upstroke := is_upstroke (is_above_threshold threshold y) in
  timestamps ← bool_index (take (length x - 1) x) upstroke;
  Ok (sum upstroke, timestamps).

Record t : Type := Make {
  _x : list R;
  _y : list R;
  _threshold : R;
  _n_spikes : nat;
  _timestamps : list R
}.

(** [ActionPotentials.__init__]. *)
Definition init (x y : list R) (threshold : R) : pyres t :=
  r ← _get_action_potentials x y threshold;
  Ok {| _x := x; _y := y; _threshold := threshold;
        _n_spikes := fst r; _timestamps := snd r |}.

(** The setter of the [threshold] property. *)
Definition set_threshold (self : t) (value : R) : pyres t :=
  init (_x self) (_y self) value.

End ActionPotentials.

Module Stim.

(** The section [Stim.__init__] attaches the current clamp to:
    [cell.soma] for ['soma'], else the first section of [cell.all] whose
    name contains [section]. *)
Definition clamp_section (cell : MSN) (section_ : string) : pyres nat :=
  if String.eqb section_ "soma" then Ok (soma cell)
  else match list_find (fun sec => str_in section_ (sec_name sec) = true)
                       (all cell) with
       | Some (i, _) => Ok i
       | None => Raise ValueError
       end.

End Stim.

(** ** Vocabulary of the properties *)

Local Open Scope R_scope.

(** The dendritic mechanisms that have a profile of their own. *)
Definition profiled_mechs : list string :=
  ["naf"; "kaf"; "kas"; "kir"; "sk"; "can"; "cav32"; "cav33"].

(** Inputs of the density calculation that are valid and within range:
    the (compartment, mechanism) pair has an entry in the dispatch, the
    shape arguments have the arity the entry unpacks, slopes are not zero,
    and the weights keep both limits of the profile at or above zero (the
    distal fraction [p1] of the sodium and N-type calcium sigmoids is at
    most 1, the proximal gain [p1] of the A-type potassium sigmoid at
    least -1, the two plateaux of the axonal step are not negative). *)
Inductive physiological (m_current : string)
  : string -> string -> list R -> Prop :=
| phys_dend_naf p0 p1 p2 p3 :
    p3 <> 0 -> p1 <= 1 ->
    physiological m_current "dend" "naf" [p0; p1; p2; p3]
| phys_dend_kaf p0 p1 p2 p3 :
    p3 <> 0 -> -1 <= p1 ->
    physiological m_current "dend" "kaf" [p0; p1; p2; p3]
| phys_dend_kas p0 p2 p3 :
    p3 <> 0 ->
    physiological m_current "dend" "kas" [p0; p2; p3]
| phys_dend_flat mech p0 rest :
    mech = "kir" \/ mech = "sk" ->
    physiological m_current "dend" mech (p0 :: rest)
| phys_dend_can p0 p1 p2 p3 :
    p3 <> 0 -> p1 <= 1 ->
    physiological m_current "dend" "can" [p0; p1; p2; p3]
| phys_dend_cav mech p0 p2 p3 :
    mech = "cav32" \/ mech = "cav33" -> p3 <> 0 ->
    physiological m_current "dend" mech [p0; p2; p3]
| phys_dend_other mech p0 rest :
    mech ∉ profiled_mechs ->
    physiological m_current "dend" mech (p0 :: rest)
| phys_axon_uniform mech p0 rest :
    mech = "kas" \/ mech = m_current ->
    physiological m_current "axon" mech (p0 :: rest)
| phys_axon_naf p0 p1 p2 p3 :
    0 <= p0 -> 0 <= p1 ->
    physiological m_current "axon" "naf" [p0; p1; p2; p3]
| phys_soma mech p0 rest :
    physiological m_current "soma" mech (p0 :: rest).


(** The rows whose profile does not multiply by the peak value: the
    dendritic calcium sigmoids. *)
Definition peak_free (row : density_row) : Prop :=
  compartment row = "dend" /\
  (mechanism row = "can" \/ mechanism row = "cav32" \/
   mechanism row = "cav33").

(** A small parameter source used to exercise the store: one direct-pathway
    cell with stored arguments for four mechanisms, and a conductance table
    that has no row for the dendritic [bk] channel. *)
Definition example_cell : cell_params :=
  {| rheobase := 300;
     density_params :=
       <["naf" := [0; 0.8; 60; 10]]>
         (<["kaf" := [0; 1; 120; -30]]>
            (<["sk" := [0.5]]> (<["kir" := [-0.2]]> ∅))) |}.

Definition example_store : ModelParameters :=
  {| _params := <["dmsn" := <[0%Z := example_cell]> ∅]> ∅;
     _conductances :=
       [ConductanceRow "all" "naf" "dend" (Fin 0.1);
        ConductanceRow "dmsn" "kaf" "dend" (Fin 0.06);
        ConductanceRow "imsn" "bk" "dend" (Fin 0.001);
        ConductanceRow "all" "naf" "axon" (Fin 9)] |}.

(** The lines of a cell whose stored [sk] and [kir] arguments are [a_sk]
    and [a_kir]. *)
Definition lines_of (dp : gmap string (list R)) (a_sk a_kir : list R)
    : list line3 :=
  ((dend_line dp <$> dend_mechs) ++
   ((fun mech => ("soma", mech, [0])) <$> soma_default_mechs) ++
   [("soma", "sk", a_sk); ("soma", "kir", a_kir)] ++ axon_lines)%list.

(** The content of a pickled file for one direct-pathway cell, with the
    T-type calcium currents under their file names [c32] and [c33]. *)
Definition example_pickles : gmap string (gmap Z pickled_cell) :=
  <["dmsn" :=
      <[0%Z := {| pk_rheobase := 300;
                  pk_variables :=
                    <["c32" := [0; 100; -30]]>
                      (<["c33" := [0.5; 100; -30]]>
                         (<["sk" := [0.5]]> (<["kir" := [-0.2]]> ∅))) |}]>
        ∅]> ∅.

(** The kind of synapse and the connection weight of a tracked element. *)
Definition entry_kind (e : bg_entry) : string := syn_kind (fst (fst e)).
Definition entry_weight (e : bg_entry) : R := weight (snd e).

(** A mechanism or synapse with all its variables at 0 and nothing
    played into it. *)
Definition fresh_obj (name : string) : modulated :=
  Modulated name 0 0 0 0 0 0 None None None.

(** A three-section cell used to exercise the methods: a soma whose one
    segment carries two channels and three synapses, a dendrite and an
    axon. *)
Definition example_sections : list section :=
  [ {| sec_name := "soma[0]"; sec_L := 15; sec_nseg := 1;
       sec_segments :=
         [ {| seg_mechs := [fresh_obj "naf"; fresh_obj "kaf"];
              seg_pps := [fresh_obj "gaba[0]"; fresh_obj "ampa[0]";
                          fresh_obj "nmda[0]"] |} ] |};
    {| sec_name := "dend[0]"; sec_L := 100; sec_nseg := 1;
       sec_segments := [ {| seg_mechs := [fresh_obj "naf"];
                            seg_pps := [] |} ] |};
    {| sec_name := "axon[0]"; sec_L := 50; sec_nseg := 1;
       sec_segments := [ {| seg_mechs := [fresh_obj "naf"];
                            seg_pps := [] |} ] |} ].

Definition example_i3d : instantiated :=
  {| i3d_all := example_sections; i3d_soma := [0%nat];
     i3d_dend := [1%nat] |}.

Definition example_msn (t : cell_type) : MSN :=
  {| type := t; index := 0; all := example_sections; soma := 0%nat;
     dend := [1%nat]; _bg_noise := [] |}.


(** The segment of the soma of a cell. *)
Definition soma_segment (cell : MSN) : option segment :=
  sec ← all cell !! soma cell; sec_segments sec !! 0%nat.

(** How the three elements of one section are configured. *)
Definition configured (gaba_freq glut_freq start_ : R) (sec : nat)
    (e : bg_entry) : Prop :=
  let '(syn, stim, conn) := e in
  syn_sec syn = sec /\
  number stim = 1000 /\ noise stim = 1 /\ start stim = start_ /\
  threshold conn = 0.1 /\ delay conn = 0 /\
  ((syn_kind syn = "ampa" \/ syn_kind syn = "nmda") /\
   syn_x syn = 0.5 /\ interval stim = 1000 / glut_freq \/
   syn_kind syn = "gaba" /\
   syn_x syn = 0.1 /\ interval stim = 1000 / gaba_freq).

(** The object of a cell at a position: channel [k], or synapse [k], of
    segment [j] of section [i]. *)
Definition mech_at (all_ : list section) (i j k : nat) : option modulated :=
  sec ← all_ !! i; seg ← sec_segments sec !! j; seg_mechs seg !! k.

Definition syn_at (all_ : list section) (i j k : nat) : option modulated :=
  sec ← all_ !! i; seg ← sec_segments sec !! j; seg_pps seg !! k.

(** The bodies of the loops of the [Dopamine] methods, on one object. *)
Definition dopamine_intrinsic (self : Dopamine.t) (reset : bool)
    (mech : modulated) : modulated :=
  match intrinsic (Dopamine.params self) !! obj_name mech with
  | Some factor => Dopamine.modulate_obj self factor (obj_name mech) reset mech
  | None => mech
  end.

Definition dopamine_gaba (self : Dopamine.t) (reset : bool)
    (syn : modulated) : modulated :=
  if str_in "gaba" (obj_name syn)
  then Dopamine.modulate_obj self (synaptic_GABA (Dopamine.params self))
         "gaba" reset syn
  else syn.

Definition dopamine_glut (self : Dopamine.t) (reset : bool)
    (syn : modulated) : modulated :=
  if str_in "ampa" (obj_name syn)
  then Dopamine.modulate_obj self (synaptic_AMPA (Dopamine.params self))
         "glut" reset syn
  else if str_in "nmda" (obj_name syn)
  then Dopamine.modulate_obj self (synaptic_NMDA (Dopamine.params self))
         "glut" reset syn
  else syn.

(** The bodies of the loops of the [Acetylcholine] methods, on one
    object; [acetylcholine_channel] and [shift_channel] are the branches
    of [_modulate_intrinsic] and [_shift_kaf] once the channel is
    selected. *)
Definition acetylcholine_channel (self : Acetylcholine.t) (factor : R)
    (key : string) (reset : bool) (mech : modulated) : modulated :=
  let mech1 := set_max2 factor (set_damod 1 mech) in
  let mech2 := if reset then set_lev2 0 (set_damod 0 mech1) else mech1 in
  match played (Acetylcholine.play self) key with
  | Some vec => play_lev2 vec mech2
  | None => set_lev2 1 mech2
  end.

Definition acetylcholine_intrinsic (self : Acetylcholine.t) (reset : bool)
    (mech : modulated) : modulated :=
  match intrinsic (Acetylcholine.params self) !! obj_name mech with
  | Some factor =>
      acetylcholine_channel self factor (obj_name mech) reset mech
  | None => mech
  end.

Definition shift_channel (self : Acetylcholine.t) (by_mV : R) (reset : bool)
    (mech : modulated) : modulated :=
  if reset then set_modShift 0 (set_damod 0 mech)
  else match played (Acetylcholine.play self) "kaf" with
       | Some vec => play_modShift vec mech
       | None => set_modShift by_mV mech
       end.

Definition acetylcholine_shift (self : Acetylcholine.t) (t : cell_type)
    (by_mV : R) (reset : bool) (mech : modulated) : modulated :=
  match t with
  | dmsn =>
      if String.eqb (obj_name mech) "kaf"
      then shift_channel self by_mV reset mech
      else mech
  | imsn => mech
  end.

Definition acetylcholine_gaba (self : Acetylcholine.t) (reset : bool)
    (syn : modulated) : modulated :=
  if str_in "gaba" (obj_name syn)
  then Acetylcholine.modulate_syn self
         (synaptic_GABA (Acetylcholine.params self)) "gaba" reset syn
  else syn.

Definition acetylcholine_glut (self : Acetylcholine.t) (reset : bool)
    (syn : modulated) : modulated :=
  if str_in "ampa" (obj_name syn)
  then Acetylcholine.modulate_syn self
         (synaptic_AMPA (Acetylcholine.params self)) "glut" reset syn
  else if str_in "nmda" (obj_name syn)
  then Acetylcholine.modulate_syn self
         (synaptic_NMDA (Acetylcholine.params self)) "glut" reset syn
  else syn.

(** [f] if the flag is set. *)
Definition on (b : bool) (f : modulated -> modulated) (o : modulated)
    : modulated :=
  if b then f o else o.

(** A step of a loop over segments that maps [M] over the channels and
    [P] over the synapses. *)
Definition both (M P : modulated -> modulated) (seg : segment) : segment :=
  {| seg_mechs := M <$> seg_mechs seg; seg_pps := P <$> seg_pps seg |}.

(** The vectors of a [play] dictionary. *)
Definition play_vectors (play : gmap string nat) : list nat :=
  if bool_decide (size play = 0%nat) then []
  else snd <$> map_to_list play.

(** Two states of an object that agree on everything [Acetylcholine]
    assigns apart from the shared switch [damod]; and on everything
    [Dopamine] assigns apart from it. *)
Definition same_acetylcholine_variables (o o' : modulated) : Prop :=
  obj_name o' = obj_name o /\ max2 o' = max2 o /\ lev2 o' = lev2 o /\
  modShift o' = modShift o /\ lev2_play o' = lev2_play o /\
  modShift_play o' = modShift_play o.

Definition same_dopamine_variables (o o' : modulated) : Prop :=
  obj_name o' = obj_name o /\ maxMod o' = maxMod o /\ level o' = level o /\
  level_play o' = level_play o.

(** A synapse the synaptic steps select. *)
Definition is_synapse_target (name : string) : bool :=
  str_in "gaba" name || str_in "ampa" name || str_in "nmda" name.

(** * Properties *)

(** ** Arithmetic of the number model *)

Lemma Rltb_true (x y : R) : Rltb x y = true <-> x < y.
Proof. unfold Rltb. destruct (Rlt_dec x y); split; intros; try lra; congruence. Qed.

Lemma Rleb_true (x y : R) : Rleb x y = true <-> x <= y.
Proof. unfold Rleb. destruct (Rle_dec x y); split; intros; try lra; congruence. Qed.

Lemma Reqb_true (x y : R) : Reqb x y = true <-> x = y.
Proof. unfold Reqb. destruct (Req_dec_T x y); split; intros; congruence. Qed.

Lemma Reqb_false (x y : R) : Reqb x y = false <-> x <> y.
Proof. unfold Reqb. destruct (Req_dec_T x y); split; intros; congruence. Qed.

Lemma pow10_pos (p : R) : 0 < pow10 p.
Proof. unfold pow10, Rpower. apply exp_pos. Qed.

Lemma pow10_0 : pow10 0 = 1.
Proof. unfold pow10. apply Rpower_O. lra. Qed.

Lemma nmul_1_l (a : num) : nmul (Fin 1) a = a.
Proof. destruct a as [r|]; simpl; [f_equal; lra | reflexivity]. Qed.

Lemma pydiv_ok (a b : R) : b <> 0 -> pydiv a b = Ok (a / b).
Proof. intros Hb. unfold pydiv. apply Reqb_false in Hb. now rewrite Hb. Qed.

Lemma sigmoid_den_ok (d p2 p3 : R) :
  p3 <> 0 -> sigmoid_den d p2 p3 = Ok (1 + exp ((d - p2) / p3)).
Proof. intros Hp. unfold sigmoid_den. now rewrite pydiv_ok. Qed.

(** The logistic factor [1 / (1 + exp q)] lies strictly between 0 and 1. *)
Lemma logistic_bounds (q : R) : 0 < / (1 + exp q) < 1.
Proof.
  pose proof (exp_pos q) as He.
  split.
  - apply Rinv_0_lt_compat. lra.
  - rewrite <- Rinv_1 at 2. apply Rinv_lt_contravar; lra.
Qed.

(** ** Step profile *)

(** The strict window test of [step_fun]. *)
Lemma step_window (d p2 p3 : R) :
  Rltb p2 d && Rltb d p3 = true <-> p2 < d < p3.
Proof.
  rewrite andb_true_iff, !Rltb_true. tauto.
Qed.

(** C4.  For every distance, four shape arguments and peak value,
    [step_fun] returns [args[0] * peak] when [args[2] < distance < args[3]]
    and [args[1] * peak] otherwise; at a distance equal to [args[2]] or to
    [args[3]] the result is [args[1] * peak], the outside branch.  The
    function is the same text in [src/msnmodel/cell.py] and
    [msn/cell.py]. *)
Theorem step_fun_strict_window (d p0 p1 p2 p3 : R) (gbar : num) :
  (p2 < d < p3 ->
   step_fun d [p0; p1; p2; p3] gbar = Ok (nmul (Fin p0) gbar)) /\
  (~ (p2 < d < p3) ->
   step_fun d [p0; p1; p2; p3] gbar = Ok (nmul (Fin p1) gbar)) /\
  step_fun p2 [p0; p1; p2; p3] gbar = Ok (nmul (Fin p1) gbar) /\
  step_fun p3 [p0; p1; p2; p3] gbar = Ok (nmul (Fin p1) gbar).
Proof.
  assert (Hout : forall x, ~ (p2 < x < p3) ->
            step_fun x [p0; p1; p2; p3] gbar = Ok (nmul (Fin p1) gbar)).
  { intros x Hx. unfold step_fun.
    destruct (Rltb p2 x && Rltb x p3) eqn:E; [|reflexivity].
    apply step_window in E. contradiction. }
  repeat split.
  - intros Hin. unfold step_fun.
    apply step_window in Hin. now rewrite Hin.
  - apply Hout.
  - apply Hout. lra.
  - apply Hout. lra.
Qed.

(** Inside the window of the axonal sodium default, and on its lower
    edge. *)
Lemma step_fun_strict_window_witness :
  step_fun 100 [1; 1.1; 30; 500] (Fin 2) = Ok (nmul (Fin 1) (Fin 2)) /\
  step_fun 30 [1; 1.1; 30; 500] (Fin 2) = Ok (nmul (Fin 1.1) (Fin 2)).
Proof.
  split.
  - apply (proj1 (step_fun_strict_window 100 1 1.1 30 500 (Fin 2))). lra.
  - apply (proj1 (proj2 (step_fun_strict_window 30 1 1.1 30 500 (Fin 2)))).
    lra.
Defined.

(** ** Uniform profile *)

(** C9.  For every peak value [P] and every distance, [uniform_fun] with
    shape arguments [[0]] returns exactly [P]. *)
Theorem uniform_fun_zero_exponent (distance : R) (P : num) :
  uniform_fun distance [0] P = Ok P.
Proof.
  unfold uniform_fun. now rewrite pow10_0, nmul_1_l.
Qed.

(** ** Channel density *)

(** Where the chain yields [x] times a non-negative factor of a
    non-negative peak, the assertion passes. *)
Lemma assert_nonneg (x : R) :
  0 <= x ->
  (if nge0 (Fin x) then Ok (Fin x) else Raise AssertionError)
  = Ok (Fin x).
Proof. intros Hx. simpl. apply Rleb_true in Hx. now rewrite Hx. Qed.

Lemma string_eqb_ne (a b : string) : a <> b -> String.eqb a b = false.
Proof. apply String.eqb_neq. Qed.

(** The two sigmoid weights of the dendritic profiles. *)
Lemma distal_fraction_nonneg (p1 q : R) :
  p1 <= 1 -> 0 <= 1 - p1 + p1 / (1 + exp q).
Proof.
  intros Hp. pose proof (logistic_bounds q) as [H0 H1].
  unfold Rdiv. nra.
Qed.

Lemma proximal_gain_nonneg (p1 q : R) :
  -1 <= p1 -> 0 <= 1 + p1 / (1 + exp q).
Proof.
  intros Hp. pose proof (logistic_bounds q) as [H0 H1].
  unfold Rdiv. nra.
Qed.

Lemma scaled_nonneg (gbar p0 w : R) :
  0 <= gbar -> 0 <= w -> 0 <= gbar * pow10 p0 * w.
Proof.
  intros Hg Hw. pose proof (pow10_pos p0).
  apply Rmult_le_pos; [apply Rmult_le_pos |]; lra.
Qed.

Lemma one_plus_exp_ne_0 (q : R) : 1 + exp q <> 0.
Proof. pose proof (exp_pos q). lra. Qed.

(** The assertion passes on a value that is at least 0. *)
Ltac pass_assert := eexists; split; [apply assert_nonneg |].

(** The two divisions of a sigmoid succeed when the slope is not 0. *)
Ltac sigmoid_steps :=
  rewrite sigmoid_den_ok by assumption; simpl;
  rewrite pydiv_ok by apply one_plus_exp_ne_0; simpl.

(** C2.  For every distance and every valid (compartment, mechanism,
    shape arguments) within range, and every peak value at least 0,
    [get_channel_density] returns a value, and that value is at least 0:
    the assertion does not fire.  [m_current] is ["km"] for
    [src/msnmodel/cell.py] and ["Im"] for [msn/cell.py]. *)
Theorem get_channel_density_nonneg (m_current : string) (distance : R)
    (params : density_row) (gbar : R) :
  m_current = "km" \/ m_current = "Im" ->
  physiological m_current (compartment params) (mechanism params)
    (shape_args params) ->
  peak params = Fin gbar ->
  0 <= gbar ->
  exists density : R,
    get_channel_density m_current distance params = Ok (Fin density) /\
    0 <= density.
Proof.
  intros Hm Hphys Hpeak Hg.
  destruct params as [comp mech args pk]. simpl in *. subst pk.
  unfold get_channel_density, density_of. simpl.
  inversion Hphys; subst; simpl.
  - (* dend naf *)
    sigmoid_steps; pass_assert;
      (apply scaled_nonneg; [assumption | now apply distal_fraction_nonneg]).
  - (* dend kaf *)
    sigmoid_steps; pass_assert;
      (apply scaled_nonneg; [assumption | now apply proximal_gain_nonneg]).
  - (* dend kas *)
    sigmoid_steps; pass_assert;
      (apply scaled_nonneg; [assumption |];
       pose proof (logistic_bounds ((distance - p2) / p3)) as [Hl _];
       unfold Rdiv; nra).
  - (* dend kir, sk *)
    destruct H as [-> | ->]; simpl; pass_assert;
      (pose proof (pow10_pos p0); nra).
  - (* dend can *)
    sigmoid_steps; pass_assert;
      (pose proof (distal_fraction_nonneg p1 ((distance - p2) / p3) H0);
       pose proof (pow10_pos p0); apply Rmult_le_pos; lra).
  - (* dend cav32, cav33 *)
    destruct H as [-> | ->]; simpl; sigmoid_steps; pass_assert;
      (pose proof (logistic_bounds ((distance - p2) / p3)) as [Hl _];
       pose proof (pow10_pos p0); unfold Rdiv; nra).
  - (* dend, uniform fallback *)
    unfold profiled_mechs in H. rewrite !not_elem_of_cons in H.
    destruct H as (? & ? & ? & ? & ? & ? & ? & ? & _).
    rewrite !string_eqb_ne by assumption. simpl.
    pass_assert; (pose proof (pow10_pos p0); nra).
  - (* axon kas, M-current *)
    assert (E : (mech =? "kas")%string || (mech =? m_current)%string = true).
    { destruct H as [-> | ->]; [reflexivity |].
      rewrite String.eqb_refl. apply orb_true_r. }
    rewrite E. simpl.
    pass_assert; (pose proof (pow10_pos p0); nra).
  - (* axon naf *)
    destruct Hm as [-> | ->]; simpl;
      destruct (Rltb p2 distance && Rltb distance p3); pass_assert; nra.
  - (* soma *)
    pass_assert; (pose proof (pow10_pos p0); nra).
Qed.

(** The dendritic sodium sigmoid at 50 um with a distal fraction of 0.8. *)
Lemma get_channel_density_nonneg_witness :
  exists density : R,
    get_channel_density "km" 50
      (DensityRow "dend" "naf" [0; 0.8; 60; 10] (Fin 2)) = Ok (Fin density) /\
    0 <= density.
Proof.
  apply (get_channel_density_nonneg "km" 50
           (DensityRow "dend" "naf" [0; 0.8; 60; 10] (Fin 2)) 2).
  - left. reflexivity.
  - simpl. apply phys_dend_naf; lra.
  - reflexivity.
  - lra.
Defined.

(** ** Parameter store *)

Section DensityParams.
Variable self : ModelParameters.
Variable cell_type_ : string.
Variable cell_index : Z.
Variable c : cell_params.
Hypothesis Hcell : lookup_cell self cell_type_ cell_index = Ok c.
Hypothesis Hsk : is_Some (density_params c !! "sk").
Hypothesis Hkir : is_Some (density_params c !! "kir").

(** The lines of a valid cell, written out. *)
Lemma density_lines_ok :
  exists a_sk a_kir,
    density_lines (density_params c)
    = Ok (lines_of (density_params c) a_sk a_kir).
Proof.
  destruct Hsk as [a_sk Ha], Hkir as [a_kir Hb].
  exists a_sk, a_kir.
  unfold density_lines, soma_stored_mechs. simpl.
  unfold soma_stored_line, stored_args. rewrite Ha, Hb. reflexivity.
Qed.

Lemma get_density_params_ok :
  exists a_sk a_kir,
    get_density_params self cell_type_ cell_index
    = Ok (List.map (with_peak (get_gbar self cell_type_))
            (lines_of (density_params c) a_sk a_kir)).
Proof.
  destruct density_lines_ok as (a_sk & a_kir & Hl).
  exists a_sk, a_kir.
  unfold get_density_params. rewrite Hcell. simpl. rewrite Hl. reflexivity.
Qed.

End DensityParams.

(** A [nan] peak reaches the density through every profile that
    multiplies by the peak. *)
Lemma nan_peak_density (m_current : string) (d : R) (row : density_row)
    (v : num) :
  peak row = NaN ->
  density_of m_current d row = Ok v ->
  v = NaN \/ peak_free row.
Proof.
  destruct row as [comp mech args pk]. unfold peak_free. simpl.
  intros -> H. unfold density_of, uniform_fun, step_fun in H. simpl in H.
  repeat match type of H with
         | context [String.eqb ?a ?b] =>
             let E := fresh "E" in
             destruct (String.eqb a b) eqn:E;
             [apply String.eqb_eq in E; subst |]; simpl in H
         end;
    try discriminate;
    try (right; split; [reflexivity | tauto]);
    repeat match type of H with
           | context [match ?l with [] => _ | _ :: _ => _ end] =>
               destruct l; simpl in H; try discriminate
           end;
    repeat match type of H with
           | context [sigmoid_den ?a ?b ?c] =>
               destruct (sigmoid_den a b c); simpl in H; try discriminate
           | context [pydiv ?a ?b] =>
               destruct (pydiv a b); simpl in H; try discriminate
           end;
    try (left; congruence).
Qed.

(** With a [nan] density the assertion raises. *)
Lemma nan_peak_asserts (m_current : string) (d : R) (row : density_row)
    (v : num) :
  peak row = NaN ->
  get_channel_density m_current d row = Ok v ->
  peak_free row.
Proof.
  intros Hp H. unfold get_channel_density in H.
  destruct (density_of m_current d row) as [x|e] eqn:E; simpl in H;
    [| discriminate].
  destruct (nan_peak_density _ _ _ _ Hp E) as [-> | Hfree];
    [discriminate | exact Hfree].
Qed.

(** Membership in the returned list, in terms of the lines. *)
Lemma elem_of_with_peak (G : list conductance_row) (lines : list line3)
    (row : density_row) :
  row ∈ List.map (with_peak G) lines <->
  exists comp mech args,
    (comp, mech, args) ∈ lines /\
    row = DensityRow comp mech args (peak_of G mech comp).
Proof.
  rewrite list_elem_of_In, in_map_iff. split.
  - intros ([[comp mech] args] & <- & Hin). exists comp, mech, args.
    split; [now apply list_elem_of_In | reflexivity].
  - intros (comp & mech & args & Hin & ->). exists (comp, mech, args).
    split; [reflexivity | now apply list_elem_of_In].
Qed.

(** C3.  For a valid cell, [get_density_params] returns its 27 entries,
    and every entry whose lookup in the conductance table selects no row
    has [nan] as its peak value: no error is raised for it.  The [nan] then
    enters the density calculation: whatever profile multiplies by the peak
    yields [nan], so that [get_channel_density] returns no density for the
    entry (the three dendritic calcium sigmoids, which do not read the
    peak, are the only profiles the [nan] does not reach). *)
Theorem missing_conductance_is_nan (self : ModelParameters)
    (cell_type_ : string) (cell_index : Z) (c : cell_params) :
  lookup_cell self cell_type_ cell_index = Ok c ->
  is_Some (density_params c !! "sk") ->
  is_Some (density_params c !! "kir") ->
  exists rows,
    get_density_params self cell_type_ cell_index = Ok rows /\
    length rows = 27%nat /\
    forall row, row ∈ rows ->
      gbar_rows (get_gbar self cell_type_) (mechanism row) (compartment row)
        = [] ->
      peak row = NaN /\
      (forall d v, density_of "km" d row = Ok v -> v = NaN \/ peak_free row) /\
      (forall d v, get_channel_density "km" d row = Ok v -> peak_free row).
Proof.
  intros Hcell Hsk Hkir.
  destruct (get_density_params_ok self cell_type_ cell_index c Hcell Hsk Hkir)
    as (a_sk & a_kir & Hget).
  eexists. split; [exact Hget |]. split; [reflexivity |].
  intros row Hin Hnone.
  apply elem_of_with_peak in Hin as (comp & mech & args & _ & ->).
  simpl in Hnone.
  assert (Hnan : peak (DensityRow comp mech args
                         (peak_of (get_gbar self cell_type_) mech comp)) = NaN).
  { simpl. unfold peak_of. now rewrite Hnone. }
  split; [exact Hnan |]. split.
  - intros d v. now apply nan_peak_density.
  - intros d v. now apply nan_peak_asserts.
Qed.

Lemma example_store_lookup :
  lookup_cell example_store "dmsn" 0 = Ok example_cell.
Proof. reflexivity. Qed.

(** The example store: the dendritic [bk] entry of the direct-pathway cell
    has no conductance row and comes back with a [nan] peak. *)
Lemma missing_conductance_is_nan_witness :
  exists rows,
    get_density_params example_store "dmsn" 0 = Ok rows /\
    length rows = 27%nat /\
    forall row, row ∈ rows ->
      gbar_rows (get_gbar example_store "dmsn") (mechanism row)
        (compartment row) = [] ->
      peak row = NaN /\
      (forall d v, density_of "km" d row = Ok v -> v = NaN \/ peak_free row) /\
      (forall d v, get_channel_density "km" d row = Ok v -> peak_free row).
Proof.
  apply (missing_conductance_is_nan example_store "dmsn" 0 example_cell).
  - reflexivity.
  - exists [0.5]. reflexivity.
  - exists [-0.2]. reflexivity.
Defined.

Example example_store_bk_is_nan :
  exists rows,
    get_density_params example_store "dmsn" 0 = Ok rows /\
    DensityRow "dend" "bk" [0] NaN ∈ rows.
Proof.
  eexists. split; [reflexivity |].
  apply list_elem_of_In. cbn. do 12 right. left. reflexivity.
Qed.

(** The first three components of a returned entry come from a line. *)
Ltac line_cases H :=
  unfold lines_of in H; rewrite !elem_of_app in H;
  destruct H as [H | [H | [H | H]]];
  [ apply list_elem_of_fmap in H as (? & H & ?); unfold dend_line in H
  | apply list_elem_of_fmap in H as (? & H & ?)
  | rewrite !elem_of_cons, elem_of_nil in H;
    destruct H as [H | [H | []]]
  | unfold axon_lines in H; rewrite !elem_of_cons, elem_of_nil in H;
    destruct H as [H | [H | [H | []]]] ];
  injection H as -> -> ->.

(** C5.  For every cell type and valid cell index (the cell is stored, with
    its [sk] and [kir] arguments), [get_density_params] returns a list in
    which every dendritic mechanism that is not a key of the stored
    parameter set has shape arguments [[0]], every somatic mechanism except
    [sk] and [kir] has [[0]], and the axon has [[0]] for [kas],
    [[1, 1.1, 30, 500]] for [naf] and [[0]] for [km]; each of these entries
    is present. *)
Theorem default_shape_args (self : ModelParameters) (cell_type_ : string)
    (cell_index : Z) (c : cell_params) :
  lookup_cell self cell_type_ cell_index = Ok c ->
  is_Some (density_params c !! "sk") ->
  is_Some (density_params c !! "kir") ->
  exists rows,
    get_density_params self cell_type_ cell_index = Ok rows /\
    (forall row, row ∈ rows ->
       (compartment row = "dend" ->
        density_params c !! mechanism row = None ->
        shape_args row = [0]) /\
       (compartment row = "soma" ->
        mechanism row <> "sk" -> mechanism row <> "kir" ->
        shape_args row = [0]) /\
       (compartment row = "axon" -> mechanism row = "kas" ->
        shape_args row = [0]) /\
       (compartment row = "axon" -> mechanism row = "naf" ->
        shape_args row = [1; 1.1; 30; 500]) /\
       (compartment row = "axon" -> mechanism row = "km" ->
        shape_args row = [0])) /\
    (forall mech, mech ∈ dend_mechs ->
       density_params c !! mech = None ->
       exists gbar, DensityRow "dend" mech [0] gbar ∈ rows) /\
    (forall mech, mech ∈ soma_default_mechs ->
       exists gbar, DensityRow "soma" mech [0] gbar ∈ rows) /\
    (exists gbar, DensityRow "axon" "kas" [0] gbar ∈ rows) /\
    (exists gbar, DensityRow "axon" "naf" [1; 1.1; 30; 500] gbar ∈ rows) /\
    (exists gbar, DensityRow "axon" "km" [0] gbar ∈ rows).
Proof.
  intros Hcell Hsk Hkir.
  destruct (get_density_params_ok self cell_type_ cell_index c Hcell Hsk Hkir)
    as (a_sk & a_kir & Hget).
  eexists. split; [exact Hget |]. split; [| repeat split].
  - intros row Hin.
    apply elem_of_with_peak in Hin as (comp & mech & args & Hin & ->).
    simpl. line_cases Hin;
      repeat split; intros; try discriminate; try congruence;
      try reflexivity.
    match goal with Hn : _ !! _ = None |- _ => now rewrite Hn end.
  - intros mech Hmech Hnone. eexists.
    apply elem_of_with_peak. exists "dend", mech, [0].
    split; [| reflexivity].
    unfold lines_of. apply elem_of_app. left.
    apply list_elem_of_fmap. exists mech.
    split; [| exact Hmech]. unfold dend_line. now rewrite Hnone.
  - intros mech Hmech. eexists.
    apply elem_of_with_peak. exists "soma", mech, [0].
    split; [| reflexivity].
    unfold lines_of. apply elem_of_app. right. apply elem_of_app. left.
    apply list_elem_of_fmap. exists mech. split; [reflexivity | exact Hmech].
  - eexists. apply elem_of_with_peak. exists "axon", "kas", [0].
    split; [| reflexivity].
    unfold lines_of. rewrite !elem_of_app. do 3 right. unfold axon_lines.
    rewrite !elem_of_cons. tauto.
  - eexists. apply elem_of_with_peak.
    exists "axon", "naf", [1; 1.1; 30; 500].
    split; [| reflexivity].
    unfold lines_of. rewrite !elem_of_app. do 3 right. unfold axon_lines.
    rewrite !elem_of_cons. tauto.
  - eexists. apply elem_of_with_peak. exists "axon", "km", [0].
    split; [| reflexivity].
    unfold lines_of. rewrite !elem_of_app. do 3 right. unfold axon_lines.
    rewrite !elem_of_cons. tauto.
Qed.

(** The example store: the dendritic [bk] channel is not a stored key and
    gets [[0]]. *)
Lemma default_shape_args_witness :
  exists rows,
    get_density_params example_store "dmsn" 0 = Ok rows /\
    (exists gbar, DensityRow "dend" "bk" [0] gbar ∈ rows) /\
    (exists gbar, DensityRow "axon" "naf" [1; 1.1; 30; 500] gbar ∈ rows).
Proof.
  destruct (default_shape_args example_store "dmsn" 0 example_cell)
    as (rows & Hget & _ & Hdend & _ & _ & Hnaf & _).
  - reflexivity.
  - exists [0.5]. reflexivity.
  - exists [-0.2]. reflexivity.
  - exists rows. split; [exact Hget |]. split; [| exact Hnaf].
    apply Hdend; [| reflexivity].
    unfold dend_mechs. rewrite !elem_of_cons. tauto.
Defined.



(** ** Spatial discretisation *)

(** On a non-negative float [int] is the floor. *)
Lemma py_int_floor (x : R) :
  0 <= x ->
  (0 <= py_int x)%Z /\ IZR (py_int x) <= x < IZR (py_int x) + 1.
Proof.
  intros Hx. unfold py_int. destruct (Rle_dec 0 x) as [_ | n]; [| lra].
  destruct (base_Int_part x) as [Hlo Hhi].
  split; [| lra].
  assert (H : IZR (-1) < IZR (Int_part x)) by lra.
  apply lt_IZR in H. lia.
Qed.

Lemma discretise_spec (sec : section) :
  sec_name (discretise sec) = sec_name sec /\
  sec_L (discretise sec) = sec_L sec /\
  (str_in "axon" (sec_name sec) = true -> sec_nseg (discretise sec) = 2%Z) /\
  (str_in "axon" (sec_name sec) = false ->
   sec_nseg (discretise sec) = (2 * py_int (sec_L sec / 40) + 1)%Z).
Proof.
  unfold discretise. simpl. repeat split; intros ->; reflexivity.
Qed.

(** C7.  After morphology setup (which succeeds when the reconstruction
    has exactly one soma), every section whose name contains ['axon'] has
    exactly 2 segments, and every other section of length [L >= 0] has
    exactly [2 * floor(L / 40) + 1] segments, an odd count that is at
    least 1. *)
Theorem nseg_after_setup (cell_type_ : cell_type) (cell_index : Z)
    (i3d : instantiated) (s : nat) :
  i3d_soma i3d = [s] ->
  exists cell,
    _setup_morphology cell_type_ cell_index i3d = Ok cell /\
    length (all cell) = length (i3d_all i3d) /\
    forall sec, sec ∈ all cell ->
      (str_in "axon" (sec_name sec) = true -> sec_nseg sec = 2%Z) /\
      (str_in "axon" (sec_name sec) = false -> 0 <= sec_L sec ->
       exists k : Z,
         (0 <= k)%Z /\
         IZR k <= sec_L sec / 40 < IZR k + 1 /\
         sec_nseg sec = (2 * k + 1)%Z /\
         Z.odd (sec_nseg sec) = true /\
         (1 <= sec_nseg sec)%Z).
Proof.
  intros Hsoma. unfold _setup_morphology. rewrite Hsoma.
  eexists. split; [reflexivity |]. simpl.
  split; [apply length_fmap |].
  intros sec Hin. apply list_elem_of_fmap in Hin as (sec0 & -> & _).
  destruct (discretise_spec sec0) as (Hname & HL & Haxon & Hother).
  rewrite Hname, HL. split; [exact Haxon |].
  intros Hno HLpos. exists (py_int (sec_L sec0 / 40)).
  destruct (py_int_floor (sec_L sec0 / 40)) as (Hk & Hfloor); [lra |].
  rewrite (Hother Hno).
  repeat split; try lra; try lia.
  rewrite Z.add_comm, Z.odd_add_mul_2. reflexivity.
Qed.

(** The example reconstruction: three sections, one soma. *)
Lemma nseg_after_setup_witness :
  exists cell,
    _setup_morphology dmsn 0 example_i3d = Ok cell /\
    length (all cell) = length (i3d_all example_i3d) /\
    forall sec, sec ∈ all cell ->
      (str_in "axon" (sec_name sec) = true -> sec_nseg sec = 2%Z) /\
      (str_in "axon" (sec_name sec) = false -> 0 <= sec_L sec ->
       exists k : Z,
         (0 <= k)%Z /\
         IZR k <= sec_L sec / 40 < IZR k + 1 /\
         sec_nseg sec = (2 * k + 1)%Z /\
         Z.odd (sec_nseg sec) = true /\
         (1 <= sec_nseg sec)%Z).
Proof.
  apply (nseg_after_setup dmsn 0 example_i3d 0%nat). reflexivity.
Defined.

(** A dendrite of 100 um gets 5 segments, an axon 2. *)
Example discretise_dendrite_100 :
  sec_nseg (discretise (Section_ "dend[0]" 100 1 [])) = 5%Z /\
  sec_nseg (discretise (Section_ "axon[0]" 50 1 [])) = 2%Z.
Proof.
  split; [| reflexivity].
  destruct (discretise_spec (Section_ "dend[0]" 100 1 []))
    as (_ & _ & _ & H). rewrite H by reflexivity. simpl. clear H.
  destruct (py_int_floor (100 / 40)) as (H0 & Hlo & Hhi); [lra |].
  assert (H1 : IZR (py_int (100 / 40)) < IZR 3) by lra.
  assert (H2 : IZR 1 < IZR (py_int (100 / 40))) by lra.
  apply lt_IZR in H1, H2. lia.
Qed.

(** ** Background noise *)

Lemma truthy_zero : truthy (Some 0) = false.
Proof.
  unfold truthy. assert (E : Reqb 0 0 = true) by now apply Reqb_true.
  now rewrite E.
Qed.

Lemma truthy_nonzero (f : R) : f <> 0 -> truthy (Some f) = true.
Proof. intros Hf. unfold truthy. apply Reqb_false in Hf. now rewrite Hf. Qed.

(** The three cases of the GABA conductance. *)
Lemma gaba_conductance_cases (gbase : R) :
  gaba_conductance gbase None = gbase * 5 /\
  gaba_conductance gbase (Some 0) = gbase * 5 /\
  (forall f, f <> 0 -> gaba_conductance gbase (Some f) = gbase * 3 * f).
Proof.
  unfold gaba_conductance. rewrite truthy_zero. repeat split.
  intros f Hf. now rewrite truthy_nonzero.
Qed.

Lemma gbase_pos (t : cell_type) : 0 < gbase_of t.
Proof. destruct t; simpl; lra. Qed.

Lemma set_attr_if_keeps (attr : string) (factor : option R) (e : bg_entry) :
  entry_kind (set_attr_if attr factor e) = entry_kind e /\
  entry_weight (set_attr_if attr factor e) = entry_weight e.
Proof.
  destruct e as [[syn stim] conn]. unfold set_attr_if.
  destruct factor as [v |]; [destruct (truthy (Some v)) |]; split; reflexivity.
Qed.

Lemma set_attr_keeps (attr : string) (v : R) (e : bg_entry) :
  entry_kind (set_attr attr v e) = entry_kind e /\
  entry_weight (set_attr attr v e) = entry_weight e.
Proof. destruct e as [[syn stim] conn]. split; reflexivity. Qed.

Lemma remove_bg_noise_empties (self : MSN) :
  _bg_noise (fst (remove_bg_noise self)) = [] /\
  type (fst (remove_bg_noise self)) = type self.
Proof.
  unfold remove_bg_noise. case_bool_decide as H; simpl; [tauto |].
  split; [| reflexivity].
  destruct (_bg_noise self); [reflexivity | simpl in H; lia].
Qed.

(** Every element a loop over the sections appends comes from one run of
    its body. *)
Lemma enumerate_loop_elem (body : nat -> nat -> pyres (list bg_entry))
    (sections : list nat) :
  forall indx added,
    enumerate_loop body indx sections = Ok added ->
    forall e, e ∈ added ->
      exists i sec here, body i sec = Ok here /\ e ∈ here.
Proof.
  induction sections as [| sec rest IH]; intros indx added H e He; simpl in H.
  - injection H as <-. now apply elem_of_nil in He.
  - destruct (body indx sec) as [here |] eqn:Hb; simpl in H; [| discriminate].
    destruct (enumerate_loop body (S indx) rest) as [later |] eqn:Hl;
      simpl in H; [| discriminate].
    injection H as <-. apply elem_of_app in He as [He | He].
    + now exists indx, sec, here.
    + exact (IH _ _ Hl e He).
Qed.

(** The loop succeeds when its body does on every index it visits, and
    then appends [n] elements per section. *)
Lemma enumerate_loop_total (body : nat -> nat -> pyres (list bg_entry))
    (n : nat) (sections : list nat) :
  forall indx,
    (forall i sec, (indx <= i < indx + length sections)%nat ->
       exists here, body i sec = Ok here /\ length here = n) ->
    exists added,
      enumerate_loop body indx sections = Ok added /\
      length added = (n * length sections)%nat.
Proof.
  induction sections as [| sec rest IH]; intros indx Hbody; simpl.
  - exists []. split; [reflexivity | simpl; lia].
  - destruct (Hbody indx sec) as (here & -> & Hn); [simpl; lia |].
    destruct (IH (S indx)) as (later & -> & Hlen).
    { intros i s Hi. apply Hbody. simpl. lia. }
    simpl. eexists. split; [reflexivity |].
    rewrite length_app, Hn, Hlen. lia.
Qed.

Lemma delay_of_ok (delays : list R) (indx : nat) :
  length delays = 0%nat \/ (indx < length delays)%nat ->
  exists d, delay_of delays indx = Ok d.
Proof.
  intros H. unfold delay_of. case_bool_decide as E; [now eexists |].
  destruct H as [H | H]; [contradiction |].
  destruct (lookup_lt_is_Some_2 delays indx H) as [d ->]. now eexists.
Qed.

(** What one run of the body of [add_bg_noise] appends. *)
Lemma add_bg_noise_body_spec (gbase gaba_freq glut_freq : R)
    (a n s : option R) (delays : list R) (indx sec : nat)
    (here : list bg_entry) :
  add_bg_noise_body gbase gaba_freq glut_freq a n s delays indx sec = Ok here ->
  length here = 3%nat /\
  forall e, e ∈ here ->
    (entry_kind e = "ampa" /\ entry_weight e = gbase) \/
    (entry_kind e = "nmda" /\ entry_weight e = gbase) \/
    (entry_kind e = "gaba" /\ entry_weight e = gaba_conductance gbase s).
Proof.
  unfold add_bg_noise_body. intros H.
  destruct (delay_of delays indx) as [d |]; simpl in H; [| discriminate].
  destruct (pydiv 1000 glut_freq) as [i1 |]; simpl in H; [| discriminate].
  destruct (pydiv 1000 gaba_freq) as [i2 |]; simpl in H; [| discriminate].
  injection H as <-. split; [reflexivity |].
  intros e He. rewrite !elem_of_cons, elem_of_nil in He.
  destruct He as [-> | [-> | [-> | []]]].
  - left. split;
      [rewrite (proj1 (set_attr_if_keeps _ _ _))
      | rewrite (proj2 (set_attr_if_keeps _ _ _))]; reflexivity.
  - right. left. split;
      [rewrite (proj1 (set_attr_if_keeps _ _ _))
      | rewrite (proj2 (set_attr_if_keeps _ _ _))]; reflexivity.
  - right. right. split; reflexivity.
Qed.

Lemma add_bg_noise_body_total (gbase gaba_freq glut_freq : R)
    (a n s : option R) (delays : list R) (indx sec : nat) :
  gaba_freq <> 0 -> glut_freq <> 0 ->
  length delays = 0%nat \/ (indx < length delays)%nat ->
  exists here,
    add_bg_noise_body gbase gaba_freq glut_freq a n s delays indx sec
    = Ok here /\ length here = 3%nat.
Proof.
  intros Hga Hgl Hd. unfold add_bg_noise_body.
  destruct (delay_of_ok delays indx Hd) as [d ->]. simpl.
  rewrite !pydiv_ok by assumption. simpl.
  eexists. split; reflexivity.
Qed.

(** The same two facts for the body of the older [add_bg_noise]. *)
Lemma legacy_body_spec (gbase gaba_freq glut_freq : R)
    (a n s : option R) (delays : list R) (indx sec : nat)
    (here : list bg_entry) :
  Legacy.add_bg_noise_body gbase gaba_freq glut_freq a n s delays indx sec
  = Ok here ->
  length here = 2%nat /\
  forall e, e ∈ here ->
    (entry_kind e = "glut" /\ entry_weight e = gbase) \/
    (entry_kind e = "gaba" /\ entry_weight e = gaba_conductance gbase s).
Proof.
  unfold Legacy.add_bg_noise_body. intros H.
  destruct (delay_of delays indx) as [d |]; simpl in H; [| discriminate].
  destruct (pydiv 1000 glut_freq) as [i1 |]; simpl in H; [| discriminate].
  destruct (pydiv 1000 gaba_freq) as [i2 |]; simpl in H; [| discriminate].
  injection H as <-. split; [reflexivity |].
  intros e He. rewrite !elem_of_cons, elem_of_nil in He.
  destruct He as [-> | [-> | []]].
  - left. split.
    + rewrite (proj1 (set_attr_if_keeps _ _ _)).
      rewrite (proj1 (set_attr_if_keeps _ _ _)). reflexivity.
    + rewrite (proj2 (set_attr_if_keeps _ _ _)).
      rewrite (proj2 (set_attr_if_keeps _ _ _)). reflexivity.
  - right. split; reflexivity.
Qed.

Lemma legacy_body_total (gbase gaba_freq glut_freq : R)
    (a n s : option R) (delays : list R) (indx sec : nat) :
  gaba_freq <> 0 -> glut_freq <> 0 ->
  length delays = 0%nat \/ (indx < length delays)%nat ->
  exists here,
    Legacy.add_bg_noise_body gbase gaba_freq glut_freq a n s delays indx sec
    = Ok here /\ length here = 2%nat.
Proof.
  intros Hga Hgl Hd. unfold Legacy.add_bg_noise_body.
  destruct (delay_of_ok delays indx Hd) as [d ->]. simpl.
  rewrite !pydiv_ok by assumption. simpl.
  eexists. split; reflexivity.
Qed.

(** The elements tracked after [add_bg_noise] returns. *)
Lemma add_bg_noise_entries (self cell' : MSN) (gaba_freq glut_freq : R)
    (dend_only : bool) (a n s : option R) (delays : list R) :
  add_bg_noise self gaba_freq glut_freq dend_only a n s delays = Ok cell' ->
  forall e, e ∈ _bg_noise cell' ->
    (entry_kind e = "ampa" /\ entry_weight e = gbase_of (type self)) \/
    (entry_kind e = "nmda" /\ entry_weight e = gbase_of (type self)) \/
    (entry_kind e = "gaba" /\
     entry_weight e = gaba_conductance (gbase_of (type self)) s).
Proof.
  unfold add_bg_noise. intros H e He.
  destruct (remove_bg_noise_empties self) as [Hnil Hty].
  rewrite Hnil, Hty in H.
  destruct (enumerate_loop _ _ _) as [added |] eqn:Hloop; simpl in H;
    [| discriminate].
  injection H as <-. simpl in He.
  destruct (enumerate_loop_elem _ _ _ _ Hloop e He)
    as (i & sec & here & Hbody & Hin).
  exact (proj2 (add_bg_noise_body_spec _ _ _ _ _ _ _ _ _ _ Hbody) e Hin).
Qed.

Lemma legacy_add_bg_noise_entries (self cell' : MSN)
    (gaba_freq glut_freq : R) (dend_only : bool) (a n s : option R)
    (delays : list R) :
  Legacy.add_bg_noise self gaba_freq glut_freq dend_only a n s delays
  = Ok cell' ->
  forall e, e ∈ _bg_noise cell' ->
    (entry_kind e = "glut" /\ entry_weight e = gbase_of (type self)) \/
    (entry_kind e = "gaba" /\
     entry_weight e = gaba_conductance (gbase_of (type self)) s).
Proof.
  unfold Legacy.add_bg_noise. intros H e He.
  destruct (remove_bg_noise_empties self) as [Hnil Hty].
  rewrite Hnil, Hty in H.
  destruct (enumerate_loop _ _ _) as [added |] eqn:Hloop; simpl in H;
    [| discriminate].
  injection H as <-. simpl in He.
  destruct (enumerate_loop_elem _ _ _ _ Hloop e He)
    as (i & sec & here & Hbody & Hin).
  exact (proj2 (legacy_body_spec _ _ _ _ _ _ _ _ _ _ Hbody) e Hin).
Qed.

Lemma add_bg_noise_total (self : MSN) (gaba_freq glut_freq : R)
    (dend_only : bool) (a n s : option R) (delays : list R) :
  gaba_freq <> 0 -> glut_freq <> 0 ->
  length delays = 0%nat \/
  (length (noise_sections self dend_only) <= length delays)%nat ->
  (exists cell',
     add_bg_noise self gaba_freq glut_freq dend_only a n s delays = Ok cell' /\
     length (_bg_noise cell')
     = (3 * length (noise_sections self dend_only))%nat) /\
  (exists cell',
     Legacy.add_bg_noise self gaba_freq glut_freq dend_only a n s delays
     = Ok cell' /\
     length (_bg_noise cell')
     = (2 * length (noise_sections self dend_only))%nat).
Proof.
  intros Hga Hgl Hd.
  destruct (remove_bg_noise_empties self) as [Hnil Hty].
  split.
  - unfold add_bg_noise.
    destruct (enumerate_loop_total
                (add_bg_noise_body (gbase_of (type (fst (remove_bg_noise self))))
                   gaba_freq glut_freq a n s delays)
                3 (noise_sections self dend_only) 0) as (added & Hloop & Hlen).
    { intros i sec Hi. apply add_bg_noise_body_total; try assumption.
      destruct Hd as [Hd | Hd]; [now left | right; lia]. }
    rewrite Hloop. simpl. eexists. split; [reflexivity |].
    simpl. rewrite Hnil. exact Hlen.
  - unfold Legacy.add_bg_noise.
    destruct (enumerate_loop_total
                (Legacy.add_bg_noise_body
                   (gbase_of (type (fst (remove_bg_noise self))))
                   gaba_freq glut_freq a n s delays)
                2 (noise_sections self dend_only) 0) as (added & Hloop & Hlen).
    { intros i sec Hi. apply legacy_body_total; try assumption.
      destruct Hd as [Hd | Hd]; [now left | right; lia]. }
    rewrite Hloop. simpl. eexists. split; [reflexivity |].
    simpl. rewrite Hnil. exact Hlen.
Qed.





(** What [add_bg_noise] tracks on the example cell with
    [gaba_scale_factor=0]: the third element is the GABA connection of the
    soma, with 5 times the base conductance. *)
Lemma example_zero_factor (t : cell_type) :
  exists cell' e,
    add_bg_noise (example_msn t) 4 12 false None None (Some 0) [] = Ok cell' /\
    _bg_noise cell' !! 2%nat = Some e /\
    entry_kind e = "gaba" /\
    entry_weight e = gbase_of t * 5.
Proof.
  unfold add_bg_noise. cbn.
  unfold add_bg_noise_body. cbn.
  rewrite !pydiv_ok by lra. cbn.
  do 2 eexists. split; [reflexivity |]. cbn.
  split; [reflexivity |]. split; [reflexivity |].
  unfold entry_weight. cbn.
  apply (gaba_conductance_cases (gbase_of t)).
Qed.


(** C10.  In both versions of [cell.py], [add_bg_noise] called with
    [gaba_scale_factor=0] does exactly what it does with no scale factor;
    every GABA connection it tracks has the default weight, 5 times the
    base conductance, which is not 0. *)
Theorem zero_gaba_scale_factor_is_default (self : MSN)
    (gaba_freq glut_freq : R) (dend_only : bool) (a n : option R)
    (delays : list R) :
  add_bg_noise self gaba_freq glut_freq dend_only a n (Some 0) delays
  = add_bg_noise self gaba_freq glut_freq dend_only a n None delays /\
  Legacy.add_bg_noise self gaba_freq glut_freq dend_only a n (Some 0) delays
  = Legacy.add_bg_noise self gaba_freq glut_freq dend_only a n None delays /\
  forall cell',
    add_bg_noise self gaba_freq glut_freq dend_only a n (Some 0) delays
    = Ok cell' \/
    Legacy.add_bg_noise self gaba_freq glut_freq dend_only a n (Some 0) delays
    = Ok cell' ->
    forall e, e ∈ _bg_noise cell' -> entry_kind e = "gaba" ->
      entry_weight e = gbase_of (type self) * 5 /\ entry_weight e <> 0.
Proof.
  destruct (gaba_conductance_cases (gbase_of (type self))) as (H0 & H1 & _).
  assert (Hsame : forall g, gaba_conductance g (Some 0)
                            = gaba_conductance g None).
  { intros g. destruct (gaba_conductance_cases g) as (-> & -> & _).
    reflexivity. }
  split; [| split].
  - unfold add_bg_noise, add_bg_noise_body. now rewrite Hsame.
  - unfold Legacy.add_bg_noise, Legacy.add_bg_noise_body. now rewrite Hsame.
  - intros cell' Hrun e He Hk.
    assert (Hw : entry_weight e = gaba_conductance (gbase_of (type self))
                                    (Some 0)).
    { destruct Hrun as [Hrun | Hrun].
      - destruct (add_bg_noise_entries _ _ _ _ _ _ _ _ _ Hrun e He)
          as [[Hk' _] | [[Hk' _] | [_ Hw]]]; [congruence | congruence | exact Hw].
      - destruct (legacy_add_bg_noise_entries _ _ _ _ _ _ _ _ _ Hrun e He)
          as [[Hk' _] | [_ Hw]]; [congruence | exact Hw]. }
    rewrite Hw, H1. split; [reflexivity |].
    pose proof (gbase_pos (type self)). lra.
Qed.

(** The example cell: the run with factor 0 returns, and its soma's GABA
    connection has weight 5 times the base conductance. *)
Lemma zero_gaba_scale_factor_is_default_witness :
  exists cell' e,
    add_bg_noise (example_msn imsn) 4 12 false None None (Some 0) []
    = Ok cell' /\
    add_bg_noise (example_msn imsn) 4 12 false None None None [] = Ok cell' /\
    e ∈ _bg_noise cell' /\
    entry_weight e = 2e-4 * 5 /\ entry_weight e <> 0.
Proof.
  destruct (example_zero_factor imsn) as (cell' & e & Hrun & He & Hk & _).
  destruct (zero_gaba_scale_factor_is_default (example_msn imsn) 4 12 false
              None None []) as (Hsame & _ & Hw).
  assert (Hin : e ∈ _bg_noise cell')
    by (eapply list_elem_of_lookup_2; exact He).
  exists cell', e. split; [exact Hrun |].
  split; [rewrite <- Hsame; exact Hrun |].
  split; [exact Hin |].
  exact (Hw cell' (or_introl Hrun) e Hin Hk).
Defined.

(** ** Neuromodulation *)

(** A property of each element of an explicit list. *)
Ltac each_object tac :=
  repeat (apply List.Forall_cons; [tac |]); apply List.Forall_nil.

(** C1 fails on the code.  On the example cell of either type, with no
    trajectory played: after [Dopamine(cell)] and [reset()] each of the two
    channels and three synapses of the soma has [level = 0] but
    [damod = 1]; after [Acetylcholine(cell)] and [reset('all')] the three
    synapses have [damod = 0] and [lev2 = 0], but the sodium channel, which
    the modulator touched, has [damod = 0] and [lev2 = 1]. *)
Theorem reset_leaves_modulation_set (t : cell_type) (u : nat -> R) (dt : R) :
  (exists da cell1 seg,
     Dopamine.init (example_msn t) u "no_axon" true true true ∅ dt
     = Ok (da, cell1) /\
     soma_segment (Dopamine.reset da cell1) = Some seg /\
     length (seg_mechs seg ++ seg_pps seg) = 5%nat /\
     Forall (fun obj => damod obj = 1 /\ level obj = 0)
            (seg_mechs seg ++ seg_pps seg)) /\
  (exists ach cell1 cell2 seg naf,
     Acetylcholine.init (example_msn t) u "all" true true true (-10) ∅ dt
     = Ok (ach, cell1) /\
     Acetylcholine.reset ach cell1 "all" = Ok cell2 /\
     soma_segment cell2 = Some seg /\
     seg_mechs seg !! 0%nat = Some naf /\
     obj_name naf = "naf" /\ damod naf = 0 /\ lev2 naf = 1 /\
     length (seg_pps seg) = 3%nat /\
     Forall (fun syn => damod syn = 0 /\ lev2 syn = 0) (seg_pps seg)).
Proof.
  split.
  - destruct t;
      (do 3 eexists; split; [reflexivity |]; split; [reflexivity |];
       split; [reflexivity |]; each_object ltac:(split; reflexivity)).
  - assert (Hshift : truthy (Some (-10)) = true)
      by (apply truthy_nonzero; lra).
    destruct t;
      (do 5 eexists;
       split; [unfold Acetylcholine.init; rewrite Hshift; reflexivity |];
       split; [reflexivity |];
       split; [reflexivity |]; split; [reflexivity |];
       split; [reflexivity |]; split; [reflexivity |];
       split; [reflexivity |]; split; [reflexivity |];
       each_object ltac:(split; reflexivity)).
Qed.

(** The two defects behind it, for every cell.  A dopamine reset of any
    selected object re-asserts [damod = 1] before it zeroes [level]. *)
Lemma dopamine_reset_keeps_damod (self : Dopamine.t) (factor : R)
    (key : string) (obj : modulated) :
  damod (Dopamine.modulate_obj self factor key true obj) = 1 /\
  level (Dopamine.modulate_obj self factor key true obj) = 0.
Proof. split; reflexivity. Qed.

(** An acetylcholine reset of a channel with a modulation factor and no
    trajectory falls through to the assignment [lev2 = 1]. *)
Lemma acetylcholine_reset_sets_lev2 (self : Acetylcholine.t)
    (seg : segment) (mech : modulated) (factor : R) :
  mech ∈ seg_mechs seg ->
  intrinsic (Acetylcholine.params self) !! obj_name mech = Some factor ->
  played (Acetylcholine.play self) (obj_name mech) = None ->
  exists mech',
    mech' ∈ seg_mechs (Acetylcholine._modulate_intrinsic self true seg) /\
    obj_name mech' = obj_name mech /\
    damod mech' = 0 /\ lev2 mech' = 1.
Proof.
  intros Hin Hf Hp. eexists. split.
  - unfold Acetylcholine._modulate_intrinsic, with_mechs. simpl.
    apply list_elem_of_fmap. exists mech. split; [reflexivity | exact Hin].
  - simpl. rewrite Hf, Hp. repeat split.
Qed.

(** The synapses are reset as C1 says by [Acetylcholine]: the [elif] of
    [_modulate_gaba] and [_modulate_glut] stops after the reset branch. *)
Lemma acetylcholine_reset_synapse (self : Acetylcholine.t) (factor : R)
    (key : string) (syn : modulated) :
  damod (Acetylcholine.modulate_syn self factor key true syn) = 0 /\
  lev2 (Acetylcholine.modulate_syn self factor key true syn) = 0.
Proof. split; reflexivity. Qed.

(** ** Density setup with a missing conductance *)

(** A loop returns only if its body does on every element. *)
Lemma for_each_ok {A B : Type} (body : A -> pyres (list B)) (l : list A)
    (out : list B) :
  for_each body l = Ok out ->
  forall a, a ∈ l -> exists here, body a = Ok here.
Proof.
  revert out. induction l as [| x rest IH]; intros out H a Ha; simpl in H.
  - now apply elem_of_nil in Ha.
  - destruct (body x) as [here |] eqn:Hx; simpl in H; [| discriminate].
    destruct (for_each body rest) as [later |] eqn:Hr; simpl in H;
      [| discriminate].
    apply elem_of_cons in Ha as [-> | Ha]; [now exists here |].
    exact (IH later eq_refl a Ha).
Qed.

(** X10.  When an entry with a [nan] peak, of a profile that reads the
    peak, matches a section that has a segment, [_setup_density] raises:
    the cell is not built. *)
Lemma setup_density_nan_raises (m_current : string)
    (distance : nat -> nat -> R) (rows : list density_row)
    (all_ : list section) (row : density_row) (i : nat) (sec : section)
    (seg : segment) :
  row ∈ rows -> peak row = NaN -> ~ peak_free row ->
  all_ !! i = Some sec ->
  str_in (compartment row) (sec_name sec) = true ->
  sec_segments sec !! 0%nat = Some seg ->
  exists e, _setup_density m_current distance rows all_ = Raise e.
Proof.
  intros Hrow Hnan Hfree Hsec Hname Hseg.
  destruct (_setup_density m_current distance rows all_) as [out | e] eqn:H;
    [| now exists e].
  exfalso. unfold _setup_density in H.
  destruct (for_each_ok _ _ _ H row Hrow) as [out1 H1].
  assert (Hi : (i, sec) ∈ imap (fun i (s : section) => (i, s)) all_).
  { apply list_elem_of_lookup. exists i.
    rewrite list_lookup_imap, Hsec. reflexivity. }
  destruct (for_each_ok _ _ _ H1 (i, sec) Hi) as [out2 H2].
  simpl in H2. rewrite Hname in H2.
  assert (Hj : (0%nat, seg)
               ∈ imap (fun j (s : segment) => (j, s)) (sec_segments sec)).
  { apply list_elem_of_lookup. exists 0%nat.
    rewrite list_lookup_imap, Hseg. reflexivity. }
  destruct (for_each_ok _ _ _ H2 (0%nat, seg) Hj) as [out3 H3].
  simpl in H3.
  destruct (get_channel_density m_current (distance i 0%nat) row)
    as [v |] eqn:Hd; simpl in H3; [| discriminate].
  exact (Hfree (nan_peak_asserts _ _ _ _ Hnan Hd)).
Qed.

(** * Further properties of the code *)

(** ** Loading the parameter files *)

Lemma pop_into_lookup (old new : string) (d d' : gmap string (list R)) :
  pop_into old new d = Ok d' ->
  d' !! new = d !! old /\
  (old <> new -> d' !! old = None) /\
  (forall k, k <> old -> k <> new -> d' !! k = d !! k).
Proof.
  unfold pop_into. destruct (d !! old) as [v |] eqn:E; [| discriminate].
  intros [= <-]. repeat split.
  - now rewrite lookup_insert_eq.
  - intros Hne. rewrite lookup_insert_ne by congruence.
    apply lookup_delete_eq.
  - intros k H1 H2. rewrite lookup_insert_ne by congruence.
    now rewrite lookup_delete_ne by congruence.
Qed.

(** The load of a pickled cell that has both keys, and of one that lacks
    one of them. *)
Lemma load_cell_ok (val : pickled_cell) (v32 v33 : list R) :
  pk_variables val !! "c32" = Some v32 ->
  pk_variables val !! "c33" = Some v33 ->
  exists c,
    load_cell val = Ok c /\
    rheobase c = pk_rheobase val /\
    density_params c !! "cav32" = Some v32 /\
    density_params c !! "cav33" = Some v33 /\
    density_params c !! "c32" = None /\
    density_params c !! "c33" = None /\
    forall k, k <> "c32" -> k <> "c33" -> k <> "cav32" -> k <> "cav33" ->
              density_params c !! k = pk_variables val !! k.
Proof.
  intros H32 H33. unfold load_cell.
  destruct (pop_into "c33" "cav33" (pk_variables val)) as [d1 |] eqn:E1;
    [| unfold pop_into in E1; rewrite H33 in E1; discriminate].
  destruct (pop_into_lookup _ _ _ _ E1) as (A1 & B1 & C1).
  assert (H32' : d1 !! "c32" = Some v32)
    by (rewrite C1 by discriminate; exact H32).
  simpl.
  destruct (pop_into "c32" "cav32" d1) as [d2 |] eqn:E2;
    [| unfold pop_into in E2; rewrite H32' in E2; discriminate].
  destruct (pop_into_lookup _ _ _ _ E2) as (A2 & B2 & C2).
  simpl. eexists. split; [reflexivity |]. simpl.
  repeat split.
  - now rewrite A2.
  - rewrite C2 by discriminate. now rewrite A1.
  - apply B2. discriminate.
  - rewrite C2 by discriminate. apply B1. discriminate.
  - intros k K1 K2 K3 K4. rewrite C2 by assumption. now apply C1.
Qed.

Lemma load_cell_missing (val : pickled_cell) :
  pk_variables val !! "c32" = None \/ pk_variables val !! "c33" = None ->
  load_cell val = Raise KeyError.
Proof.
  intros H. unfold load_cell, pop_into.
  destruct (pk_variables val !! "c33") as [v33 |] eqn:E33; [| reflexivity].
  destruct H as [H | H]; [| discriminate]. simpl.
  rewrite lookup_insert_ne by discriminate.
  rewrite lookup_delete_ne by discriminate. now rewrite H.
Qed.

(** X1.  [ModelParameters.__init__] renames the T-type calcium currents of
    a pickled cell: when the cell has both [c32] and [c33], the loaded
    parameter set has their arguments under [cav32] and [cav33], has no
    [c32] or [c33] any more, keeps every other key and the rheobase; when
    one of the two is missing the load raises [KeyError]. *)
Theorem load_cell_renames (val : pickled_cell) :
  (forall v32 v33,
     pk_variables val !! "c32" = Some v32 ->
     pk_variables val !! "c33" = Some v33 ->
     exists c,
       load_cell val = Ok c /\
       rheobase c = pk_rheobase val /\
       density_params c !! "cav32" = Some v32 /\
       density_params c !! "cav33" = Some v33 /\
       density_params c !! "c32" = None /\
       density_params c !! "c33" = None /\
       forall k, k <> "c32" -> k <> "c33" -> k <> "cav32" -> k <> "cav33" ->
                 density_params c !! k = pk_variables val !! k) /\
  (pk_variables val !! "c32" = None \/ pk_variables val !! "c33" = None ->
   load_cell val = Raise KeyError).
Proof.
  split.
  - intros v32 v33. apply load_cell_ok.
  - apply load_cell_missing.
Qed.

(** The example pickle has both keys. *)
Lemma load_cell_renames_witness :
  exists c,
    load_cell (PickledCell 300 (<["c32" := [0; 100; -30]]>
                                  (<["c33" := [0.5; 100; -30]]> ∅))) = Ok c /\
    density_params c !! "cav32" = Some [0; 100; -30] /\
    density_params c !! "c32" = None.
Proof.
  destruct (proj1 (load_cell_renames
                     (PickledCell 300 (<["c32" := [0; 100; -30]]>
                                         (<["c33" := [0.5; 100; -30]]> ∅))))
              [0; 100; -30] [0.5; 100; -30])
    as (c & Hc & _ & H32 & _ & Hgone & _); [reflexivity | reflexivity |].
  exists c. repeat split; assumption.
Defined.

(** What a loop over the items of a dict returns. *)
Lemma map_items_spec {K : Type} `{Countable K} {A B : Type}
    (f : A -> pyres B) (m : gmap K A) :
  (forall r, map_items f m = Ok r ->
     forall k, r !! k = None /\ m !! k = None \/
               exists a b, m !! k = Some a /\ f a = Ok b /\ r !! k = Some b) /\
  (forall e, map_items f m = Raise e ->
     exists k a, m !! k = Some a /\ f a = Raise e) /\
  ((forall k a, m !! k = Some a -> exists b, f a = Ok b) ->
   exists r, map_items f m = Ok r).
Proof.
  unfold map_items.
  apply (map_fold_weak_ind
    (fun res m =>
       (forall r, res = Ok r ->
          forall k, r !! k = None /\ m !! k = None \/
             exists a b, m !! k = Some a /\ f a = Ok b /\ r !! k = Some b) /\
       (forall e, res = Raise e ->
          exists k a, m !! k = Some a /\ f a = Raise e) /\
       ((forall k a, m !! k = Some a -> exists b, f a = Ok b) ->
        exists r, res = Ok r))).
  - repeat split.
    + intros r [= <-] k. left. split; apply lookup_empty.
    + discriminate.
    + intros _. now eexists.
  - intros i x m0 res Hi (IH1 & IH2 & IH3). repeat split.
    + intros r Hr k. destruct res as [r0 |]; simpl in Hr; [| discriminate].
      destruct (f x) as [b |] eqn:Hfx; simpl in Hr; [| discriminate].
      injection Hr as <-.
      destruct (decide (i = k)) as [-> | Hne].
      * right. exists x, b. rewrite !lookup_insert_eq. tauto.
      * rewrite !lookup_insert_ne by assumption. exact (IH1 r0 eq_refl k).
    + intros e He. destruct res as [r0 | e0]; simpl in He.
      * destruct (f x) as [b | e1] eqn:Hfx; simpl in He; [discriminate |].
        injection He as <-. exists i, x. now rewrite lookup_insert_eq.
      * injection He as <-. destruct (IH2 e0 eq_refl) as (k & a & Hk & Ha).
        exists k, a. split; [| exact Ha].
        rewrite lookup_insert_ne; [exact Hk | congruence].
    + intros Hall. destruct IH3 as [r0 ->].
      { intros k a Hk. apply (Hall k).
        rewrite lookup_insert_ne; [exact Hk | congruence]. }
      destruct (Hall i x) as [b Hb]; [apply lookup_insert_eq |].
      simpl. rewrite Hb. simpl. now eexists.
Qed.

Lemma load_cell_error (val : pickled_cell) (e : exn) :
  load_cell val = Raise e ->
  e = KeyError /\
  (pk_variables val !! "c32" = None \/ pk_variables val !! "c33" = None).
Proof.
  intros H.
  destruct (pk_variables val !! "c32") as [v32 |] eqn:E32;
    destruct (pk_variables val !! "c33") as [v33 |] eqn:E33.
  - destruct (load_cell_ok val v32 v33 E32 E33) as (c & Hc & _).
    congruence.
  - rewrite load_cell_missing in H by tauto.
    injection H as <-. tauto.
  - rewrite load_cell_missing in H by tauto.
    injection H as <-. tauto.
  - rewrite load_cell_missing in H by tauto.
    injection H as <-. tauto.
Qed.

(** X2.  [ModelParameters.__init__] loads every cell of every pickled file
    or none: when each pickled cell has [c32] and [c33] the object is
    built, it keeps the conductance table as read, and looking a cell up in
    it gives the renamed parameters of that very cell ([KeyError] for a
    cell type or index that is not in the files); when some pickled cell
    lacks [c32] or [c33] the constructor raises [KeyError]. *)
Theorem init_loads_every_cell (pickles : gmap string (gmap Z pickled_cell))
    (csv : list conductance_row) :
  ((forall ct cells idx val,
      pickles !! ct = Some cells -> cells !! idx = Some val ->
      is_Some (pk_variables val !! "c32") /\
      is_Some (pk_variables val !! "c33")) ->
   exists self,
     ModelParameters_init pickles csv = Ok self /\
     _conductances self = csv /\
     forall ct idx,
       lookup_cell self ct idx
       = match pickles !! ct ≫= (fun cells => cells !! idx) with
         | Some val => load_cell val
         | None => Raise KeyError
         end) /\
  (forall ct cells idx val,
     pickles !! ct = Some cells -> cells !! idx = Some val ->
     pk_variables val !! "c32" = None \/ pk_variables val !! "c33" = None ->
     ModelParameters_init pickles csv = Raise KeyError).
Proof.
  unfold ModelParameters_init. split.
  - intros Hall.
    destruct (map_items_spec (map_items load_cell) pickles)
      as (Hok & _ & Htot).
    destruct Htot as [ps Hps].
    { intros ct cells Hct.
      apply (map_items_spec load_cell cells).
      intros idx val Hidx.
      destruct (Hall ct cells idx val Hct Hidx) as [[v32 H32] [v33 H33]].
      destruct (load_cell_ok val v32 v33 H32 H33) as (c & Hc & _).
      now exists c. }
    rewrite Hps. simpl. eexists. split; [reflexivity |].
    split; [reflexivity |].
    intros ct idx. unfold lookup_cell. simpl.
    destruct (Hok ps Hps ct) as [[-> ->] | (cells & loaded & -> & Hl & ->)];
      [reflexivity |]. simpl.
    destruct (proj1 (map_items_spec load_cell cells) loaded Hl idx)
      as [[-> ->] | (val & c & -> & Hc & ->)]; [reflexivity |].
    now rewrite Hc.
  - intros ct cells idx val Hct Hidx Hmiss.
    destruct (map_items (map_items load_cell) pickles) as [ps | e] eqn:Hps.
    + exfalso.
      destruct (proj1 (map_items_spec (map_items load_cell) pickles) ps Hps ct)
        as [[_ Hn] | (cells' & loaded & Hc' & Hl & _)]; [congruence |].
      assert (cells' = cells) as -> by congruence.
      destruct (proj1 (map_items_spec load_cell cells) loaded Hl idx)
        as [[_ Hn] | (val' & c & Hv & Hc & _)]; [congruence |].
      assert (val' = val) as -> by congruence.
      rewrite (load_cell_missing val Hmiss) in Hc. discriminate.
    + simpl.
      destruct (proj1 (proj2 (map_items_spec (map_items load_cell) pickles))
                  e Hps) as (ct' & cells' & _ & He).
      destruct (proj1 (proj2 (map_items_spec load_cell cells')) e He)
        as (idx' & val' & _ & Hv).
      now destruct (load_cell_error val' e Hv) as [-> _].
Qed.

(** The example files: the loaded cell 0 has the renamed currents. *)
Lemma init_loads_every_cell_witness :
  exists self c,
    ModelParameters_init example_pickles [] = Ok self /\
    lookup_cell self "dmsn" 0 = Ok c /\
    density_params c !! "cav32" = Some [0; 100; -30] /\
    lookup_cell self "dmsn" 1 = Raise KeyError /\
    lookup_cell self "imsn" 0 = Raise KeyError.
Proof.
  destruct (proj1 (init_loads_every_cell example_pickles [])) as (self & Hs & _ & Hl).
  { intros ct cells idx val Hct Hidx. unfold example_pickles in Hct.
    destruct (decide (ct = "dmsn")) as [-> | Hne];
      [| rewrite lookup_insert_ne in Hct by congruence;
         rewrite lookup_empty in Hct; discriminate].
    rewrite lookup_insert_eq in Hct. injection Hct as <-.
    destruct (decide (idx = 0%Z)) as [-> | Hne];
      [| rewrite lookup_insert_ne in Hidx by congruence;
         rewrite lookup_empty in Hidx; discriminate].
    rewrite lookup_insert_eq in Hidx. injection Hidx as <-.
    split; eexists; reflexivity. }
  exists self. eexists. split; [exact Hs |].
  rewrite !Hl. split; [reflexivity |].
  split; [reflexivity |]. split; reflexivity.
Defined.

(** ** Looking parameters up *)

Lemma lookup_cell_error (self : ModelParameters) (ct : string) (idx : Z)
    (e : exn) :
  lookup_cell self ct idx = Raise e -> e = KeyError.
Proof.
  unfold lookup_cell. destruct (_params self !! ct) as [cells |];
    [destruct (cells !! idx) |]; congruence.
Qed.

Lemma density_lines_error (dp : gmap string (list R)) (e : exn) :
  density_lines dp = Raise e ->
  e = KeyError /\ (dp !! "sk" = None \/ dp !! "kir" = None).
Proof.
  unfold density_lines, soma_stored_mechs. simpl.
  unfold soma_stored_line, stored_args.
  destruct (dp !! "sk"); simpl; [destruct (dp !! "kir"); simpl |];
    intros [= <-]; tauto.
Qed.

(** X3.  The two lookups of the store fail only with [KeyError].
    [get_rheobase] returns exactly when the (cell type, cell index) pair is
    stored; [get_density_params] returns exactly when it is stored and its
    parameter set has the somatic [sk] and [kir] arguments, so it can fail
    on a cell whose rheobase is available.  An index that is not among the
    stored ones of a known cell type makes both raise [KeyError]. *)
Theorem parameter_lookup_errors (self : ModelParameters) (ct : string)
    (idx : Z) :
  ((exists r, get_rheobase self ct idx = Ok r) <->
   (exists c, lookup_cell self ct idx = Ok c)) /\
  ((exists rows, get_density_params self ct idx = Ok rows) <->
   (exists c, lookup_cell self ct idx = Ok c /\
              is_Some (density_params c !! "sk") /\
              is_Some (density_params c !! "kir"))) /\
  (forall e, get_rheobase self ct idx = Raise e \/
             get_density_params self ct idx = Raise e -> e = KeyError) /\
  (forall cells, _params self !! ct = Some cells -> cells !! idx = None ->
     get_rheobase self ct idx = Raise KeyError /\
     get_density_params self ct idx = Raise KeyError).
Proof.
  unfold get_rheobase, get_density_params.
  destruct (lookup_cell self ct idx) as [c | e0] eqn:Hc; simpl.
  - split; [split; intros _; eexists; reflexivity |].
    destruct (density_lines (density_params c)) as [lines | e1] eqn:Hl; simpl.
    + split; [| split].
      * split; [| intros _; eexists; reflexivity].
        intros _. exists c. split; [reflexivity |].
        unfold density_lines, soma_stored_mechs in Hl. simpl in Hl.
        unfold soma_stored_line, stored_args in Hl.
        destruct (density_params c !! "sk"); simpl in Hl; [| discriminate].
        destruct (density_params c !! "kir"); simpl in Hl; [| discriminate].
        split; eexists; reflexivity.
      * intros e [H | H]; discriminate.
      * intros cells H1 H2. unfold lookup_cell in Hc.
        rewrite H1, H2 in Hc. discriminate.
    + destruct (density_lines_error _ _ Hl) as [-> Hmiss].
      split; [| split].
      * split; [intros [rows Hr]; discriminate |].
        intros (c' & [= <-] & [a Ha] & [b Hb]).
        destruct Hmiss; congruence.
      * intros e [H | H]; [discriminate | congruence].
      * intros cells H1 H2. unfold lookup_cell in Hc.
        rewrite H1, H2 in Hc. discriminate.
  - pose proof (lookup_cell_error _ _ _ _ Hc) as ->.
    split; [split; intros [x Hx]; discriminate |].
    split; [split; [intros [x Hx]; discriminate
                   | intros (c & Hx & _); discriminate] |].
    split; [intros e [H | H]; congruence |].
    intros cells _ _. split; reflexivity.
Qed.

(** The example store has cell 0 of the direct pathway and no cell 71. *)
Lemma parameter_lookup_errors_witness :
  get_rheobase example_store "dmsn" 71 = Raise KeyError /\
  get_density_params example_store "dmsn" 71 = Raise KeyError.
Proof.
  apply (proj2 (proj2 (proj2 (parameter_lookup_errors example_store "dmsn" 71)))
           (<[0%Z := example_cell]> ∅)); reflexivity.
Defined.

Lemma filter_none {A : Type} (P : A -> Prop) `{forall x, Decision (P x)}
    (l : list A) :
  (forall x, x ∈ l -> ~ P x) -> filter P l = [].
Proof.
  induction l as [| a l IH]; intros Hl; [reflexivity |].
  rewrite filter_cons_False by (apply Hl; left).
  apply IH. intros x Hx. apply Hl. now right.
Qed.

(** The peak value is that of the first row of the file that is for the
    cell type (or for ['all']), the mechanism and the compartment. *)
Lemma peak_of_first_match (self : ModelParameters) (ct mech comp : string)
    (pre post : list conductance_row) (row : conductance_row) :
  _conductances self = (pre ++ row :: post)%list ->
  c_cell row = ct \/ c_cell row = "all" ->
  c_mechanism row = mech -> c_compartment row = comp ->
  (forall r, r ∈ pre ->
     ~ ((c_cell r = ct \/ c_cell r = "all") /\
        c_mechanism r = mech /\ c_compartment r = comp)) ->
  peak_of (get_gbar self ct) mech comp = c_value row.
Proof.
  intros Hfile Hcell Hmech Hcomp Hpre.
  unfold peak_of, gbar_rows, get_gbar. rewrite Hfile.
  rewrite filter_app, filter_cons_True by exact Hcell.
  rewrite filter_app, filter_cons_True by tauto.
  rewrite (filter_none _ (filter _ pre)); [reflexivity |].
  intros r Hr. apply list_elem_of_filter in Hr as [Hc Hin].
  intros [Hm Hco]. apply (Hpre r Hin). tauto.
Qed.

(** X4.  Which conductance row an entry gets: for a valid cell, an entry
    of [get_density_params] for (compartment, mechanism) carries the value
    of the first row of the conductance file, in file order, whose cell
    column is the cell type or ['all'] and whose mechanism and compartment
    are those of the entry; a row for ['all'] placed before the row of the
    cell type takes precedence over it, and rows of another cell type are
    never used. *)
Theorem peak_is_first_matching_row (self : ModelParameters) (ct : string)
    (idx : Z) (c : cell_params) (pre post : list conductance_row)
    (row : conductance_row) :
  lookup_cell self ct idx = Ok c ->
  is_Some (density_params c !! "sk") ->
  is_Some (density_params c !! "kir") ->
  _conductances self = (pre ++ row :: post)%list ->
  c_cell row = ct \/ c_cell row = "all" ->
  (forall r, r ∈ pre ->
     ~ ((c_cell r = ct \/ c_cell r = "all") /\
        c_mechanism r = c_mechanism row /\
        c_compartment r = c_compartment row)) ->
  exists rows,
    get_density_params self ct idx = Ok rows /\
    forall entry, entry ∈ rows ->
      mechanism entry = c_mechanism row ->
      compartment entry = c_compartment row ->
      peak entry = c_value row.
Proof.
  intros Hcell Hsk Hkir Hfile Hrow Hpre.
  destruct (get_density_params_ok self ct idx c Hcell Hsk Hkir)
    as (a_sk & a_kir & Hget).
  eexists. split; [exact Hget |].
  intros entry Hin Hm Hc.
  apply elem_of_with_peak in Hin as (comp & mech & args & _ & ->).
  simpl in *. subst.
  now apply (peak_of_first_match self ct _ _ pre post row).
Qed.

(** In the example table the dendritic sodium row is the first row. *)
Lemma peak_is_first_matching_row_witness :
  exists rows,
    get_density_params example_store "dmsn" 0 = Ok rows /\
    forall entry, entry ∈ rows ->
      mechanism entry = "naf" -> compartment entry = "dend" ->
      peak entry = Fin 0.1.
Proof.
  apply (peak_is_first_matching_row example_store "dmsn" 0 example_cell []
           [ConductanceRow "dmsn" "kaf" "dend" (Fin 0.06);
            ConductanceRow "imsn" "bk" "dend" (Fin 0.001);
            ConductanceRow "all" "naf" "axon" (Fin 9)]
           (ConductanceRow "all" "naf" "dend" (Fin 0.1))).
  - reflexivity.
  - exists [0.5]. reflexivity.
  - exists [-0.2]. reflexivity.
  - reflexivity.
  - right. reflexivity.
  - intros r Hr. now apply elem_of_nil in Hr.
Defined.

(** ** Defaults meeting the density calculation *)

(** X5.  The default [[0]] does not fit the dendritic sigmoids.  For a
    valid cell whose stored parameter set lacks one of [naf], [kaf], [kas],
    [can], [cav32] or [cav33], [get_density_params] returns a dendritic
    entry for that mechanism with shape arguments [[0]], and on that entry
    [get_channel_density] raises [ValueError] at every distance and for
    every peak value (the profile unpacks three or four arguments), in
    both versions of [cell.py]. *)
Theorem default_breaks_dendritic_sigmoid (self : ModelParameters)
    (ct : string) (idx : Z) (c : cell_params) (mech : string) :
  lookup_cell self ct idx = Ok c ->
  is_Some (density_params c !! "sk") ->
  is_Some (density_params c !! "kir") ->
  mech ∈ ["naf"; "kaf"; "kas"; "can"; "cav32"; "cav33"] ->
  density_params c !! mech = None ->
  exists rows entry,
    get_density_params self ct idx = Ok rows /\
    entry ∈ rows /\
    compartment entry = "dend" /\ mechanism entry = mech /\
    shape_args entry = [0] /\
    forall m_current d,
      get_channel_density m_current d entry = Raise ValueError.
Proof.
  intros Hcell Hsk Hkir Hmech Hnone.
  destruct (get_density_params_ok self ct idx c Hcell Hsk Hkir)
    as (a_sk & a_kir & Hget).
  eexists. exists (DensityRow "dend" mech [0]
                     (peak_of (get_gbar self ct) mech "dend")).
  split; [exact Hget |]. split.
  { apply elem_of_with_peak. exists "dend", mech, [0].
    split; [| reflexivity].
    unfold lines_of. apply elem_of_app. left.
    apply list_elem_of_fmap. exists mech. split.
    - unfold dend_line. now rewrite Hnone.
    - unfold dend_mechs. rewrite !elem_of_cons in *. tauto. }
  repeat split.
  intros m_current d. rewrite !elem_of_cons, elem_of_nil in Hmech.
  destruct Hmech as [-> | [-> | [-> | [-> | [-> | [-> | []]]]]]];
    reflexivity.
Qed.

(** The example cell stores no [kas] arguments. *)
Lemma default_breaks_dendritic_sigmoid_witness :
  exists rows entry,
    get_density_params example_store "dmsn" 0 = Ok rows /\
    entry ∈ rows /\
    compartment entry = "dend" /\ mechanism entry = "kas" /\
    shape_args entry = [0] /\
    forall m_current d,
      get_channel_density m_current d entry = Raise ValueError.
Proof.
  apply (default_breaks_dendritic_sigmoid example_store "dmsn" 0 example_cell
           "kas").
  - reflexivity.
  - exists [0.5]. reflexivity.
  - exists [-0.2]. reflexivity.
  - rewrite !elem_of_cons. tauto.
  - reflexivity.
Defined.

Lemma uniform_zero_density (d gbar : R) :
  0 <= gbar ->
  (density ← uniform_fun d [0] (Fin gbar);
   if nge0 density then Ok density else Raise AssertionError)
  = Ok (Fin gbar).
Proof.
  intros Hg. unfold uniform_fun. rewrite pow10_0, nmul_1_l. simpl.
  apply Rleb_true in Hg. now rewrite Hg.
Qed.

(** X6.  What the hard-coded defaults amount to.  For a valid cell and a
    peak value that is a number at least 0: on every somatic entry other
    than [sk] and [kir], and on the axonal [kas] and [km] entries, the
    density is the peak value itself at every distance; on the axonal
    [naf] entry it is the peak value strictly between 30 and 500 um from
    the soma and 1.1 times the peak value elsewhere
    ([src/msnmodel/cell.py]). *)
Theorem default_entries_density (self : ModelParameters) (ct : string)
    (idx : Z) (c : cell_params) :
  lookup_cell self ct idx = Ok c ->
  is_Some (density_params c !! "sk") ->
  is_Some (density_params c !! "kir") ->
  exists rows,
    get_density_params self ct idx = Ok rows /\
    forall entry gbar d,
      entry ∈ rows -> peak entry = Fin gbar -> 0 <= gbar ->
      (compartment entry = "soma" ->
       mechanism entry <> "sk" -> mechanism entry <> "kir" ->
       get_channel_density "km" d entry = Ok (Fin gbar)) /\
      (compartment entry = "axon" -> mechanism entry <> "naf" ->
       get_channel_density "km" d entry = Ok (Fin gbar)) /\
      (compartment entry = "axon" -> mechanism entry = "naf" ->
       (30 < d < 500 -> get_channel_density "km" d entry = Ok (Fin gbar)) /\
       (~ (30 < d < 500) ->
        get_channel_density "km" d entry = Ok (Fin (1.1 * gbar)))).
Proof.
  intros Hcell Hsk Hkir.
  destruct (get_density_params_ok self ct idx c Hcell Hsk Hkir)
    as (a_sk & a_kir & Hget).
  eexists. split; [exact Hget |].
  intros entry gbar d Hin Hpeak Hg.
  apply elem_of_with_peak in Hin as (comp & mech & args & Hin & ->).
  simpl in Hpeak. rewrite Hpeak. clear Hpeak Hget. simpl.
  pose proof (uniform_zero_density d gbar Hg) as Hu.
  line_cases Hin; (split; [| split]); intros; try discriminate;
    try congruence; try exact Hu.
  split; intros Hw; unfold get_channel_density, density_of; simpl.
  - apply step_window in Hw. rewrite Hw. simpl.
    apply Rleb_true in Hg as Hg'.
    replace (1 * gbar) with gbar by lra. now rewrite Hg'.
  - destruct (Rltb 30 d && Rltb d 500) eqn:E;
      [apply step_window in E; contradiction |]. simpl.
    assert (Hg' : Rleb 0 (1.1 * gbar) = true) by (apply Rleb_true; lra).
    now rewrite Hg'.
Qed.

(** The example store: the axonal sodium entry has the peak 9. *)
Lemma default_entries_density_witness :
  exists rows,
    get_density_params example_store "dmsn" 0 = Ok rows /\
    get_channel_density "km" 100
      (DensityRow "axon" "naf" [1; 1.1; 30; 500] (Fin 9)) = Ok (Fin 9) /\
    get_channel_density "km" 30
      (DensityRow "axon" "naf" [1; 1.1; 30; 500] (Fin 9))
    = Ok (Fin (1.1 * 9)).
Proof.
  destruct (default_entries_density example_store "dmsn" 0 example_cell)
    as (rows & Hget & Hd).
  - reflexivity.
  - exists [0.5]. reflexivity.
  - exists [-0.2]. reflexivity.
  - exists rows. split; [exact Hget |].
    assert (Hin : DensityRow "axon" "naf" [1; 1.1; 30; 500] (Fin 9) ∈ rows).
    { assert (E : Ok rows = get_density_params example_store "dmsn" 0)
        by (symmetry; exact Hget).
      injection E as ->. apply list_elem_of_In. cbn.
      do 25 right. left. reflexivity. }
    split.
    + destruct (Hd _ 9 100 Hin eq_refl) as (_ & _ & H); [lra |].
      apply H; [reflexivity | reflexivity | lra].
    + destruct (Hd _ 9 30 Hin eq_refl) as (_ & _ & H); [lra |].
      apply H; [reflexivity | reflexivity | lra].
Defined.

(** ** Section names and mechanism insertion *)

Lemma prefix_spec (a b : string) :
  String.prefix a b = true <-> exists post, b = (a ++ post)%string.
Proof.
  revert b. induction a as [| ch a IH]; intros b.
  - split; [intros _; now exists b | intros _; now destruct b].
  - destruct b as [| ch' b]; simpl.
    + split; [discriminate | intros [p Hp]; discriminate].
    + destruct (Ascii.ascii_dec ch ch') as [-> | Hne].
      * rewrite IH. split.
        -- intros [post ->]. now exists post.
        -- intros [post [= ->]]. now exists post.
      * split; [discriminate |]. intros [post [= H _]]. congruence.
Qed.

(** [str_in] is the substring test. *)
Lemma str_in_spec (needle hay : string) :
  str_in needle hay = true <->
  exists pre post, hay = (pre ++ needle ++ post)%string.
Proof.
  induction hay as [| ch hay IH].
  - change (str_in needle "") with (String.prefix needle "" || false).
    rewrite orb_false_r, prefix_spec. split.
    + intros [post Hp]. now exists EmptyString, post.
    + intros (pre & post & H). destruct pre; [now exists post | discriminate].
  - change (str_in needle (String ch hay))
      with (String.prefix needle (String ch hay) || str_in needle hay).
    rewrite orb_true_iff, prefix_spec, IH. split.
    + intros [[post Hp] | (pre & post & ->)].
      * now exists EmptyString, post.
      * now exists (String ch pre), post.
    + intros (pre & post & H). destruct pre as [| ch' pre]; simpl in H.
      * left. now exists post.
      * right. injection H as _ ->. now exists pre, post.
Qed.

(** X7.  [MSN._setup_mechanisms] classifies every section by its name,
    ['soma'] before ['axon'] before ['dend']: a section whose name
    contains ['soma'] gets the 13 somatic mechanisms whatever else its name
    contains, otherwise one that contains ['axon'] gets the 3 axonal ones,
    otherwise one that contains ['dend'] the 15 dendritic ones.  The method
    returns when every name contains one of the three words and raises
    [ValueError] as soon as one section has none of them. *)
Theorem setup_mechanisms_classifies (m_current : string)
    (all_ : list section) :
  ((forall sec, sec ∈ all_ ->
      str_in "soma" (sec_name sec) = true \/
      str_in "axon" (sec_name sec) = true \/
      str_in "dend" (sec_name sec) = true) ->
   exists inserted,
     _setup_mechanisms m_current all_ = Ok inserted /\
     length inserted = length all_ /\
     forall i sec mechs,
       all_ !! i = Some sec -> inserted !! i = Some mechs ->
       (str_in "soma" (sec_name sec) = true ->
        mechs = somatic_channels /\ length mechs = 13%nat) /\
       (str_in "soma" (sec_name sec) = false ->
        str_in "axon" (sec_name sec) = true ->
        mechs = axonal_channels m_current /\ length mechs = 3%nat) /\
       (str_in "soma" (sec_name sec) = false ->
        str_in "axon" (sec_name sec) = false ->
        mechs = dendritic_channels /\ length mechs = 15%nat)) /\
  (forall sec, sec ∈ all_ ->
     str_in "soma" (sec_name sec) = false ->
     str_in "axon" (sec_name sec) = false ->
     str_in "dend" (sec_name sec) = false ->
     _setup_mechanisms m_current all_ = Raise ValueError).
Proof.
  split.
  - induction all_ as [| s rest IH]; intros Hall.
    + exists []. split; [reflexivity |]. split; [reflexivity |].
      intros i sec mechs H. now rewrite lookup_nil in H.
    + destruct IH as (later & Hl & Hlen & Hspec).
      { intros sec Hsec. apply Hall. now right. }
      simpl. rewrite Hl.
      assert (Hs : exists mechs,
        section_mechanisms m_current (sec_name s) = Ok mechs /\
        (str_in "soma" (sec_name s) = true ->
         mechs = somatic_channels /\ length mechs = 13%nat) /\
        (str_in "soma" (sec_name s) = false ->
         str_in "axon" (sec_name s) = true ->
         mechs = axonal_channels m_current /\ length mechs = 3%nat) /\
        (str_in "soma" (sec_name s) = false ->
         str_in "axon" (sec_name s) = false ->
         mechs = dendritic_channels /\ length mechs = 15%nat)).
      { unfold section_mechanisms.
        destruct (Hall s) as [H | [H | H]]; [now left | | |];
          destruct (str_in "soma" (sec_name s)) eqn:E1;
          destruct (str_in "axon" (sec_name s)) eqn:E2;
          try rewrite H; try discriminate;
          eexists; (split; [reflexivity |]);
          (repeat split); intros; try discriminate; reflexivity. }
      destruct Hs as (mechs & -> & Hm). simpl.
      eexists. split; [reflexivity |]. split; [simpl; now rewrite Hlen |].
      intros [| i] sec ms Hsec Hms; simpl in Hsec, Hms.
      * injection Hsec as <-. injection Hms as <-. exact Hm.
      * exact (Hspec i sec ms Hsec Hms).
  - intros sec Hin H1 H2 H3.
    induction all_ as [| s rest IH]; [now apply elem_of_nil in Hin |].
    simpl. apply elem_of_cons in Hin as [<- | Hin].
    + unfold section_mechanisms. now rewrite H1, H2, H3.
    + rewrite (IH Hin).
      destruct (section_mechanisms m_current (sec_name s)) as [ms | e] eqn:E;
        [reflexivity |].
      unfold section_mechanisms in E.
      destruct (str_in "soma" (sec_name s)); [discriminate |].
      destruct (str_in "axon" (sec_name s)); [discriminate |].
      destruct (str_in "dend" (sec_name s)); [discriminate |].
      injection E as <-. reflexivity.
Qed.

(** The example cell: soma, dendrite and axon. *)
Lemma setup_mechanisms_classifies_witness :
  exists inserted,
    _setup_mechanisms "km" example_sections = Ok inserted /\
    length inserted = 3%nat /\
    _setup_mechanisms "km" (Section_ "apic[0]" 10 1 [] :: example_sections)
    = Raise ValueError.
Proof.
  destruct (proj1 (setup_mechanisms_classifies "km" example_sections))
    as (inserted & Hi & Hlen & _).
  { intros sec Hsec. unfold example_sections in Hsec.
    rewrite !elem_of_cons, elem_of_nil in Hsec.
    destruct Hsec as [-> | [-> | [-> | []]]]; simpl; tauto. }
  exists inserted. split; [exact Hi |]. split; [exact Hlen |].
  apply (proj2 (setup_mechanisms_classifies "km"
                  (Section_ "apic[0]" 10 1 [] :: example_sections))
           (Section_ "apic[0]" 10 1 [])); [left | | |]; reflexivity.
Defined.

(** X8.  Parameters and mechanisms agree.  For a valid cell, every entry
    of [get_density_params] names a mechanism that [_setup_mechanisms]
    inserts in the sections the entry is written to: a somatic entry in
    every section whose name contains ['soma'], an axonal entry in every
    section whose name contains ['axon'] and not ['soma'], a dendritic
    entry in every section whose name contains ['dend'] and neither
    ['soma'] nor ['axon'] ([src/msnmodel]). *)
Theorem density_entries_are_inserted (self : ModelParameters) (ct : string)
    (idx : Z) (c : cell_params) :
  lookup_cell self ct idx = Ok c ->
  is_Some (density_params c !! "sk") ->
  is_Some (density_params c !! "kir") ->
  exists rows,
    get_density_params self ct idx = Ok rows /\
    forall entry name,
      entry ∈ rows ->
      str_in (compartment entry) name = true ->
      (compartment entry = "soma" \/
       (compartment entry = "axon" /\ str_in "soma" name = false) \/
       (compartment entry = "dend" /\ str_in "soma" name = false /\
        str_in "axon" name = false)) ->
      exists mechs,
        section_mechanisms "km" name = Ok mechs /\
        mechanism entry ∈ mechs.
Proof.
  intros Hcell Hsk Hkir.
  destruct (get_density_params_ok self ct idx c Hcell Hsk Hkir)
    as (a_sk & a_kir & Hget).
  eexists. split; [exact Hget |].
  intros entry name Hin Hname Hcase.
  apply elem_of_with_peak in Hin as (comp & mech & args & Hin & ->).
  simpl in *. unfold section_mechanisms.
  line_cases Hin;
    destruct Hcase as [Hc | [[Hc H1] | (Hc & H1 & H2)]];
    try discriminate Hc;
    try rewrite H1; try rewrite H2; rewrite ?Hname;
    eexists; (split; [reflexivity |]).
  - match goal with H : _ ∈ dend_mechs |- _ =>
      unfold dend_mechs in H; unfold dendritic_channels;
      rewrite elem_of_app; left; exact H end.
  - match goal with H : _ ∈ soma_default_mechs |- _ =>
      unfold soma_default_mechs in H; unfold somatic_channels;
      rewrite !elem_of_cons, elem_of_nil in H;
      rewrite elem_of_app, !elem_of_cons; tauto end.
  - unfold somatic_channels. rewrite elem_of_app, !elem_of_cons. tauto.
  - unfold somatic_channels. rewrite elem_of_app, !elem_of_cons. tauto.
  - unfold axonal_channels. rewrite !elem_of_cons. tauto.
  - unfold axonal_channels. rewrite !elem_of_cons. tauto.
  - unfold axonal_channels. rewrite !elem_of_cons. tauto.
Qed.

(** The example store and the section names of the example cell. *)
Lemma density_entries_are_inserted_witness :
  exists rows,
    get_density_params example_store "dmsn" 0 = Ok rows /\
    forall entry name,
      entry ∈ rows ->
      str_in (compartment entry) name = true ->
      (compartment entry = "soma" \/
       (compartment entry = "axon" /\ str_in "soma" name = false) \/
       (compartment entry = "dend" /\ str_in "soma" name = false /\
        str_in "axon" name = false)) ->
      exists mechs,
        section_mechanisms "km" name = Ok mechs /\
        mechanism entry ∈ mechs.
Proof.
  apply (density_entries_are_inserted example_store "dmsn" 0 example_cell).
  - reflexivity.
  - exists [0.5]. reflexivity.
  - exists [-0.2]. reflexivity.
Defined.

(** ** Density setup *)

(** Every element a loop returns comes from one run of its body. *)
Lemma for_each_elem {A B : Type} (body : A -> pyres (list B)) (l : list A)
    (out : list B) :
  for_each body l = Ok out ->
  forall b, b ∈ out -> exists a here, a ∈ l /\ body a = Ok here /\ b ∈ here.
Proof.
  revert out. induction l as [| x rest IH]; intros out H b Hb; simpl in H.
  - injection H as <-. now apply elem_of_nil in Hb.
  - destruct (body x) as [here |] eqn:Hx; simpl in H; [| discriminate].
    destruct (for_each body rest) as [later |] eqn:Hr; simpl in H;
      [| discriminate].
    injection H as <-. apply elem_of_app in Hb as [Hb | Hb].
    + exists x, here. split; [now left | tauto].
    + destruct (IH later eq_refl b Hb) as (a & h & Ha & Hh & Hbh).
      exists a, h. split; [now right | tauto].
Qed.

(** When the loop returns, what each run of the body yields is in the
    result. *)
Lemma for_each_complete {A B : Type} (body : A -> pyres (list B))
    (l : list A) (out : list B) :
  for_each body l = Ok out ->
  forall a here b, a ∈ l -> body a = Ok here -> b ∈ here -> b ∈ out.
Proof.
  revert out. induction l as [| x rest IH]; intros out H a here b Ha Hb Hin;
    simpl in H.
  - now apply elem_of_nil in Ha.
  - destruct (body x) as [hx |] eqn:Hx; simpl in H; [| discriminate].
    destruct (for_each body rest) as [later |] eqn:Hr; simpl in H;
      [| discriminate].
    injection H as <-. apply elem_of_app.
    apply elem_of_cons in Ha as [-> | Ha].
    + left. congruence.
    + right. exact (IH later eq_refl a here b Ha Hb Hin).
Qed.

Lemma elem_of_imap_pair {A : Type} (l : list A) (i : nat) (a : A) :
  (i, a) ∈ imap (fun i (x : A) => (i, x)) l <-> l !! i = Some a.
Proof.
  rewrite list_elem_of_lookup. split.
  - intros [j Hj]. rewrite list_lookup_imap in Hj.
    destruct (l !! j) eqn:E; simpl in Hj; [| discriminate].
    now injection Hj as <- <-.
  - intros H. exists i. now rewrite list_lookup_imap, H.
Qed.

(** What [get_channel_density] returns has passed the assertion. *)
Lemma get_channel_density_value (m_current : string) (d : R)
    (row : density_row) (v : num) :
  get_channel_density m_current d row = Ok v ->
  exists r, v = Fin r /\ 0 <= r.
Proof.
  unfold get_channel_density.
  destruct (density_of m_current d row) as [x |]; simpl; [| discriminate].
  destruct x as [r |]; simpl; [| discriminate].
  destruct (Rleb 0 r) eqn:E; [| discriminate].
  intros [= <-]. exists r. split; [reflexivity | now apply Rleb_true].
Qed.

(** X9.  When [MSN._setup_density] returns, it has written a value for
    every entry and every segment of every section whose name contains the
    compartment of the entry, and nothing else, each to the variable
    [gbar_<mechanism>] ([pbar_] for the names that start with ['ca']), and
    every value written is a number at least 0, never [nan]: the value
    [get_channel_density] gives at the distance of the segment. *)
Theorem setup_density_writes (m_current : string)
    (distance : nat -> nat -> R) (rows : list density_row)
    (all_ : list section) (writes : list (nat * nat * string * num)) :
  _setup_density m_current distance rows all_ = Ok writes ->
  (forall i j var v, (i, j, var, v) ∈ writes ->
     exists entry sec seg r,
       entry ∈ rows /\ all_ !! i = Some sec /\
       sec_segments sec !! j = Some seg /\
       str_in (compartment entry) (sec_name sec) = true /\
       var = density_variable (mechanism entry) /\
       get_channel_density m_current (distance i j) entry = Ok v /\
       v = Fin r /\ 0 <= r) /\
  (forall entry i sec j seg,
     entry ∈ rows -> all_ !! i = Some sec ->
     sec_segments sec !! j = Some seg ->
     str_in (compartment entry) (sec_name sec) = true ->
     exists r,
       0 <= r /\
       get_channel_density m_current (distance i j) entry = Ok (Fin r) /\
       (i, j, density_variable (mechanism entry), Fin r) ∈ writes).
Proof.
  unfold _setup_density. intros H. split.
  - intros i j var v Hw.
    destruct (for_each_elem _ _ _ H _ Hw) as (entry & w1 & He & H1 & Hw1).
    destruct (for_each_elem _ _ _ H1 _ Hw1) as ([i' sec] & w2 & Hs & H2 & Hw2).
    apply elem_of_imap_pair in Hs. simpl in H2.
    destruct (str_in (compartment entry) (sec_name sec)) eqn:Hname;
      [| injection H2 as <-; now apply elem_of_nil in Hw2].
    destruct (for_each_elem _ _ _ H2 _ Hw2) as ([j' seg] & w3 & Hg & H3 & Hw3).
    apply elem_of_imap_pair in Hg. simpl in H3.
    destruct (get_channel_density m_current (distance i' j') entry)
      as [d |] eqn:Hd; simpl in H3; [| discriminate].
    injection H3 as <-. apply list_elem_of_singleton in Hw3.
    injection Hw3 as -> -> -> ->.
    destruct (get_channel_density_value _ _ _ _ Hd) as (r & -> & Hr).
    exists entry, sec, seg, r. tauto.
  - intros entry i sec j seg He Hs Hg Hname.
    destruct (for_each_ok _ _ _ H entry He) as [w1 H1].
    assert (Hi : (i, sec) ∈ imap (fun i (s : section) => (i, s)) all_)
      by now apply elem_of_imap_pair.
    destruct (for_each_ok _ _ _ H1 (i, sec) Hi) as [w2 H2].
    pose proof H2 as H2'. simpl in H2'. rewrite Hname in H2'.
    assert (Hj : (j, seg)
                 ∈ imap (fun j (s : segment) => (j, s)) (sec_segments sec))
      by now apply elem_of_imap_pair.
    destruct (for_each_ok _ _ _ H2' (j, seg) Hj) as [w3 H3].
    pose proof H3 as H3'. simpl in H3'.
    destruct (get_channel_density m_current (distance i j) entry)
      as [d |] eqn:Hd; simpl in H3'; [| discriminate].
    destruct (get_channel_density_value _ _ _ _ Hd) as (r & -> & Hr).
    exists r. split; [exact Hr |]. split; [reflexivity |].
    apply (for_each_complete _ _ _ H entry w1); [exact He | exact H1 |].
    apply (for_each_complete _ _ _ H1 (i, sec) w2); [exact Hi | exact H2 |].
    apply (for_each_complete _ _ _ H2' (j, seg) w3);
      [exact Hj | simpl; rewrite Hd; exact H3' |].
    injection H3' as <-. now left.
Qed.

(** The soma of the example cell with a somatic sodium entry. *)
Lemma setup_density_writes_witness :
  _setup_density "km" (fun _ _ => 0)
    [DensityRow "soma" "naf" [0] (Fin 2)] example_sections
  = Ok [(0%nat, 0%nat, "gbar_naf", Fin 2)] /\
  exists r,
    0 <= r /\
    get_channel_density "km" 0 (DensityRow "soma" "naf" [0] (Fin 2))
    = Ok (Fin r) /\
    (0%nat, 0%nat, "gbar_naf", Fin r) ∈ [(0%nat, 0%nat, "gbar_naf", Fin 2)].
Proof.
  assert (Hd : get_channel_density "km" 0 (DensityRow "soma" "naf" [0] (Fin 2))
               = Ok (Fin 2)) by (apply uniform_zero_density; lra).
  assert (Hrun : _setup_density "km" (fun _ _ => 0)
                   [DensityRow "soma" "naf" [0] (Fin 2)] example_sections
                 = Ok [(0%nat, 0%nat, "gbar_naf", Fin 2)]).
  { unfold _setup_density. cbn -[get_channel_density].
    rewrite Hd. reflexivity. }
  split; [exact Hrun |].
  destruct (setup_density_writes _ _ _ _ _ Hrun) as [_ Hall].
  apply (Hall (DensityRow "soma" "naf" [0] (Fin 2)) 0%nat
           (Section_ "soma[0]" 15 1
              [ {| seg_mechs := [fresh_obj "naf"; fresh_obj "kaf"];
                   seg_pps := [fresh_obj "gaba[0]"; fresh_obj "ampa[0]";
                               fresh_obj "nmda[0]"] |} ])
           0%nat
           {| seg_mechs := [fresh_obj "naf"; fresh_obj "kaf"];
              seg_pps := [fresh_obj "gaba[0]"; fresh_obj "ampa[0]";
                          fresh_obj "nmda[0]"] |}).
  - now left.
  - reflexivity.
  - reflexivity.
  - reflexivity.
Defined.

(** A somatic sodium entry without a conductance on the example cell. *)
Lemma setup_density_nan_raises_witness :
  exists e,
    _setup_density "km" (fun _ _ => 0)
      [DensityRow "soma" "naf" [0] NaN] example_sections = Raise e.
Proof.
  apply (setup_density_nan_raises "km" (fun _ _ => 0)
           [DensityRow "soma" "naf" [0] NaN] example_sections
           (DensityRow "soma" "naf" [0] NaN) 0%nat
           (Section_ "soma[0]" 15 1
              [ {| seg_mechs := [fresh_obj "naf"; fresh_obj "kaf"];
                   seg_pps := [fresh_obj "gaba[0]"; fresh_obj "ampa[0]";
                               fresh_obj "nmda[0]"] |} ])
           {| seg_mechs := [fresh_obj "naf"; fresh_obj "kaf"];
              seg_pps := [fresh_obj "gaba[0]"; fresh_obj "ampa[0]";
                          fresh_obj "nmda[0]"] |}).
  - now left.
  - reflexivity.
  - unfold peak_free. simpl. intros [H _]. discriminate.
  - reflexivity.
  - reflexivity.
  - reflexivity.
Defined.

(** ** Background noise: removal and re-application *)

(** What [remove_bg_noise] leaves of the cell, and what it releases. *)
Lemma remove_bg_noise_frame (self : MSN) :
  let cell' := fst (remove_bg_noise self) in
  _bg_noise cell' = [] /\
  type cell' = type self /\ index cell' = index self /\
  all cell' = all self /\ soma cell' = soma self /\ dend cell' = dend self.
Proof.
  unfold remove_bg_noise. case_bool_decide as Hlen; simpl.
  - split_and!; reflexivity.
  - destruct (_bg_noise self) as [| e l] eqn:E; [| simpl in Hlen; lia].
    split_and!; reflexivity.
Qed.

Lemma remove_bg_noise_released (self : MSN) :
  let released := snd (remove_bg_noise self) in
  length released = length (_bg_noise self) /\
  forall i e, _bg_noise self !! i = Some e ->
    exists e', released !! i = Some e' /\
      entry_weight e' = 0 /\
      fst e' = fst e /\
      threshold (snd e') = threshold (snd e) /\
      delay (snd e') = delay (snd e).
Proof.
  unfold remove_bg_noise. case_bool_decide as Hlen; simpl.
  - split; [apply length_fmap |].
    intros i e He. exists (silence e).
    rewrite list_lookup_fmap. unfold bg_entry in *. rewrite He.
    split; [reflexivity |].
    destruct e as [[syn stim] conn]. repeat split.
  - destruct (_bg_noise self) as [| e l] eqn:E; [| simpl in Hlen; lia].
    split; [reflexivity |].
    intros i e He. now rewrite lookup_nil in He.
Qed.

(** X11.  [MSN.remove_bg_noise] lets go of every tracked element: the
    tracked list is empty afterwards, each connection it held has weight 0
    (its synapse, spike generator, threshold and delay are untouched), and
    nothing else of the cell changes; removing again releases nothing. *)
Theorem remove_bg_noise_silences (self : MSN) :
  let cell' := fst (remove_bg_noise self) in
  let released := snd (remove_bg_noise self) in
  _bg_noise cell' = [] /\
  type cell' = type self /\ index cell' = index self /\
  all cell' = all self /\ soma cell' = soma self /\ dend cell' = dend self /\
  length released = length (_bg_noise self) /\
  (forall i e, _bg_noise self !! i = Some e ->
     exists e', released !! i = Some e' /\
       entry_weight e' = 0 /\
       fst e' = fst e /\
       threshold (snd e') = threshold (snd e) /\
       delay (snd e') = delay (snd e)) /\
  remove_bg_noise cell' = (cell', []).
Proof.
  intros cell' released.
  destruct (remove_bg_noise_frame self) as (N & T & I & A & S & D).
  destruct (remove_bg_noise_released self) as (L & W).
  split_and!; try assumption.
  subst cell'. unfold remove_bg_noise at 1.
  rewrite N. reflexivity.
Qed.








(** ** Background noise: errors and placement *)

Lemma pydiv_inv (a b q : R) : pydiv a b = Ok q -> b <> 0 /\ q = a / b.
Proof.
  unfold pydiv. destruct (Reqb b 0) eqn:E; [discriminate |].
  intros [= <-]. split; [now apply Reqb_false | reflexivity].
Qed.

Lemma pydiv_zero (a : R) : pydiv a 0 = Raise ZeroDivisionError.
Proof.
  unfold pydiv. assert (E : Reqb 0 0 = true) by now apply Reqb_true.
  now rewrite E.
Qed.

Lemma pydiv_error (a b : R) (e : exn) :
  pydiv a b = Raise e -> e = ZeroDivisionError.
Proof. unfold pydiv. destruct (Reqb b 0); congruence. Qed.

Lemma delay_of_error (delays : list R) (indx : nat) (e : exn) :
  delay_of delays indx = Raise e ->
  e = IndexError /\ (0 < length delays <= indx)%nat.
Proof.
  unfold delay_of. case_bool_decide as E; [discriminate |].
  destruct (delays !! indx) eqn:Hd; [discriminate |].
  intros [= <-]. apply lookup_ge_None in Hd. split; [reflexivity | lia].
Qed.

(** The element a loop appended, with the position of its section. *)
Lemma enumerate_loop_elem_at (body : nat -> nat -> pyres (list bg_entry))
    (sections : list nat) :
  forall indx added,
    enumerate_loop body indx sections = Ok added ->
    forall e, e ∈ added ->
      exists k sec here,
        sections !! k = Some sec /\
        body (indx + k)%nat sec = Ok here /\ e ∈ here.
Proof.
  induction sections as [| sec rest IH]; intros indx added H e He; simpl in H.
  - injection H as <-. now apply elem_of_nil in He.
  - destruct (body indx sec) as [here |] eqn:Hb; simpl in H; [| discriminate].
    destruct (enumerate_loop body (S indx) rest) as [later |] eqn:Hl;
      simpl in H; [| discriminate].
    injection H as <-. apply elem_of_app in He as [He | He].
    + exists 0%nat, sec, here. rewrite Nat.add_0_r. tauto.
    + destruct (IH _ _ Hl e He) as (k & s & h & Hk & Hh & Hin).
      exists (S k), s, h. rewrite Nat.add_succ_r. tauto.
Qed.

(** The first run of the body that raises ends the loop. *)
Lemma enumerate_loop_raises (body : nat -> nat -> pyres (list bg_entry))
    (sections : list nat) :
  forall indx k sec e,
    sections !! k = Some sec ->
    body (indx + k)%nat sec = Raise e ->
    (forall k' sec', (k' < k)%nat -> sections !! k' = Some sec' ->
       exists here, body (indx + k')%nat sec' = Ok here) ->
    enumerate_loop body indx sections = Raise e.
Proof.
  induction sections as [| s rest IH]; intros indx k sec e Hk Hb Hbefore.
  - now rewrite lookup_nil in Hk.
  - simpl. destruct k as [| k].
    + injection Hk as ->. rewrite Nat.add_0_r in Hb. now rewrite Hb.
    + destruct (Hbefore 0%nat s) as [here Hh]; [lia | reflexivity |].
      rewrite Nat.add_0_r in Hh. rewrite Hh. simpl.
      rewrite (IH (S indx) k sec e); [reflexivity | exact Hk | |].
      * now rewrite Nat.add_succ_comm.
      * intros k' sec' Hlt Hs'. rewrite Nat.add_succ_comm.
        apply (Hbefore (S k') sec'); [lia | exact Hs'].
Qed.

Lemma enumerate_loop_error (body : nat -> nat -> pyres (list bg_entry))
    (sections : list nat) :
  forall indx e,
    enumerate_loop body indx sections = Raise e ->
    exists i sec, body i sec = Raise e.
Proof.
  induction sections as [| s rest IH]; intros indx e H; simpl in H;
    [discriminate |].
  destruct (body indx s) as [here | e'] eqn:Hb; simpl in H.
  - destruct (enumerate_loop body (S indx) rest) as [later | e''] eqn:Hl;
      simpl in H; [discriminate |].
    injection H as <-. exact (IH _ _ Hl).
  - injection H as <-. now exists indx, s.
Qed.

Lemma add_bg_noise_body_error (gbase gaba_freq glut_freq : R)
    (a n s : option R) (delays : list R) (indx sec : nat) (e : exn) :
  add_bg_noise_body gbase gaba_freq glut_freq a n s delays indx sec = Raise e ->
  e = IndexError \/ e = ZeroDivisionError.
Proof.
  unfold add_bg_noise_body. intros H.
  destruct (delay_of delays indx) as [d | e1] eqn:Hd; simpl in H.
  - destruct (pydiv 1000 glut_freq) as [i1 | e2] eqn:H1; simpl in H.
    + destruct (pydiv 1000 gaba_freq) as [i2 | e3] eqn:H2; simpl in H;
        [discriminate |].
      injection H as <-. right. exact (pydiv_error _ _ _ H2).
    + injection H as <-. right. exact (pydiv_error _ _ _ H1).
  - injection H as <-. left. exact (proj1 (delay_of_error _ _ _ Hd)).
Qed.

(** X14.  The ways [add_bg_noise] fails ([src/msnmodel/cell.py]).  With
    rates that are not 0 and a non-empty [delays] shorter than the list of
    target sections it raises [IndexError]; with a target section and a
    glutamate or GABA rate of 0 it raises [ZeroDivisionError]; it raises
    nothing else; and without any target section it returns with nothing
    tracked, whatever the rates. *)
Theorem add_bg_noise_errors (self : MSN) (gaba_freq glut_freq : R)
    (dend_only : bool) (a n s : option R) (delays : list R) :
  (gaba_freq <> 0 -> glut_freq <> 0 ->
   (0 < length delays < length (noise_sections self dend_only))%nat ->
   add_bg_noise self gaba_freq glut_freq dend_only a n s delays
   = Raise IndexError) /\
  (noise_sections self dend_only <> [] ->
   glut_freq = 0 \/ gaba_freq = 0 ->
   add_bg_noise self gaba_freq glut_freq dend_only a n s delays
   = Raise ZeroDivisionError) /\
  (forall e,
     add_bg_noise self gaba_freq glut_freq dend_only a n s delays = Raise e ->
     e = IndexError \/ e = ZeroDivisionError) /\
  (noise_sections self dend_only = [] ->
   exists cell',
     add_bg_noise self gaba_freq glut_freq dend_only a n s delays = Ok cell' /\
     _bg_noise cell' = []).
Proof.
  split_and!.
  - intros Hga Hgl [Hpos Hshort]. unfold add_bg_noise.
    destruct (lookup_lt_is_Some_2 (noise_sections self dend_only)
                (length delays) Hshort) as [sec Hsec].
    rewrite (enumerate_loop_raises _ _ 0 (length delays) sec IndexError);
      [reflexivity | exact Hsec | |].
    + unfold add_bg_noise_body, delay_of. simpl.
      case_bool_decide as E; [lia |].
      now rewrite (proj2 (lookup_ge_None delays (length delays))) by lia.
    + intros k' sec' Hlt _. simpl.
      destruct (add_bg_noise_body_total
                  (gbase_of (type (fst (remove_bg_noise self))))
                  gaba_freq glut_freq a n s delays k' sec' Hga Hgl)
        as (here & Hh & _); [right; lia |].
      now exists here.
  - intros Hne Hzero. unfold add_bg_noise.
    destruct (noise_sections self dend_only) as [| sec rest];
      [congruence |].
    rewrite (enumerate_loop_raises _ _ 0 0 sec ZeroDivisionError);
      [reflexivity | reflexivity | | intros k' ? Hlt; lia].
    unfold add_bg_noise_body. simpl.
    destruct (delay_of_ok delays 0) as [d ->].
    { destruct delays; [now left | right; simpl; lia]. }
    simpl. destruct Hzero as [-> | ->].
    + now rewrite pydiv_zero.
    + destruct (pydiv 1000 glut_freq) as [i1 | e1] eqn:H1; simpl.
      * now rewrite pydiv_zero.
      * now rewrite (pydiv_error _ _ _ H1).
  - intros e H. unfold add_bg_noise in H.
    destruct (enumerate_loop _ _ _) as [added | e'] eqn:Hl; simpl in H;
      [discriminate |].
    injection H as <-.
    destruct (enumerate_loop_error _ _ _ _ Hl) as (i & sec & Hb).
    exact (add_bg_noise_body_error _ _ _ _ _ _ _ _ _ _ Hb).
  - intros Hnil. unfold add_bg_noise. rewrite Hnil. simpl.
    eexists. split; [reflexivity |]. simpl.
    rewrite (proj1 (remove_bg_noise_empties self)). reflexivity.
Qed.

(** The example cell has three sections: one delay is too few, and a
    glutamate rate of 0 divides by zero. *)
Lemma add_bg_noise_errors_witness :
  add_bg_noise (example_msn dmsn) 4 12 false None None None [5]
  = Raise IndexError /\
  add_bg_noise (example_msn dmsn) 4 0 false None None None []
  = Raise ZeroDivisionError.
Proof.
  destruct (add_bg_noise_errors (example_msn dmsn) 4 12 false None None None
              [5]) as (H1 & _).
  destruct (add_bg_noise_errors (example_msn dmsn) 4 0 false None None None
              []) as (_ & H2 & _).
  split.
  - apply H1; [lra | lra | simpl; lia].
  - apply H2; [discriminate | now left].
Defined.

Lemma noise_sections_spec (self : MSN) (dend_only : bool) (i : nat) :
  i ∈ noise_sections self dend_only <->
  exists sec, all self !! i = Some sec /\
              (dend_only = true -> str_in "dend" (sec_name sec) = true).
Proof.
  unfold noise_sections. rewrite list_elem_of_fmap. split.
  - intros ([j sec] & -> & Hin). simpl. exists sec.
    destruct dend_only.
    + apply list_elem_of_In, filter_In in Hin as [Hin Hname].
      apply list_elem_of_In, elem_of_imap_pair in Hin. tauto.
    + apply elem_of_imap_pair in Hin. split; [exact Hin | discriminate].
  - intros (sec & Hsec & Hname). exists (i, sec). split; [reflexivity |].
    destruct dend_only.
    + apply list_elem_of_In, filter_In. split.
      * now apply list_elem_of_In, elem_of_imap_pair.
      * now apply Hname.
    + now apply elem_of_imap_pair.
Qed.

Lemma set_attr_if_configured (gaba_freq glut_freq start_ : R) (sec : nat)
    (attr : string) (factor : option R) (e : bg_entry) :
  configured gaba_freq glut_freq start_ sec e ->
  configured gaba_freq glut_freq start_ sec (set_attr_if attr factor e).
Proof.
  destruct e as [[syn stim] conn]. unfold set_attr_if.
  destruct factor as [v |]; [destruct (truthy (Some v)) |]; simpl; tauto.
Qed.

Lemma add_bg_noise_body_shape (gbase gaba_freq glut_freq : R)
    (a n s : option R) (delays : list R) (indx sec : nat)
    (here : list bg_entry) :
  add_bg_noise_body gbase gaba_freq glut_freq a n s delays indx sec = Ok here ->
  exists start_ e1 e2 e3,
    delay_of delays indx = Ok start_ /\
    here = [e1; e2; e3] /\
    entry_kind e1 = "ampa" /\ entry_kind e2 = "nmda" /\
    entry_kind e3 = "gaba" /\
    Forall (configured gaba_freq glut_freq start_ sec) here.
Proof.
  unfold add_bg_noise_body. intros H.
  destruct (delay_of delays indx) as [d |]; simpl in H; [| discriminate].
  destruct (pydiv 1000 glut_freq) as [i1 |] eqn:H1; simpl in H;
    [| discriminate].
  destruct (pydiv 1000 gaba_freq) as [i2 |] eqn:H2; simpl in H;
    [| discriminate].
  apply pydiv_inv in H1 as [_ ->]. apply pydiv_inv in H2 as [_ ->].
  injection H as <-. exists d. do 3 eexists.
  split; [reflexivity |]. split; [reflexivity |].
  split; [apply set_attr_if_keeps |]. split; [apply set_attr_if_keeps |].
  split; [reflexivity |].
  repeat apply List.Forall_cons; try apply List.Forall_nil;
    try apply set_attr_if_configured; simpl; tauto.
Qed.

Lemma enumerate_loop_complete (body : nat -> nat -> pyres (list bg_entry))
    (sections : list nat) :
  forall indx added,
    enumerate_loop body indx sections = Ok added ->
    forall k sec,
      sections !! k = Some sec ->
      exists here, body (indx + k)%nat sec = Ok here /\
                   forall e, e ∈ here -> e ∈ added.
Proof.
  induction sections as [| s rest IH]; intros indx added H k sec Hk;
    simpl in H.
  - now rewrite lookup_nil in Hk.
  - destruct (body indx s) as [here |] eqn:Hb; simpl in H; [| discriminate].
    destruct (enumerate_loop body (S indx) rest) as [later |] eqn:Hl;
      simpl in H; [| discriminate].
    injection H as <-. destruct k as [| k].
    + injection Hk as <-. exists here. rewrite Nat.add_0_r.
      split; [exact Hb |]. intros e He. apply elem_of_app. now left.
    + destruct (IH _ _ Hl k sec Hk) as (h & Hh & Hin).
      exists h. rewrite Nat.add_succ_r. split; [exact Hh |].
      intros e He. apply elem_of_app. right. now apply Hin.
Qed.

(** X15.  Where [add_bg_noise] puts the synapses and how it drives them
    ([src/msnmodel/cell.py]).  When it returns, every tracked element sits
    on a section of the cell, a section whose name contains ['dend'] if
    [dend_only] is set; AMPA and NMDA synapses are at 0.5 with mean
    interval [1000 / glut_freq], GABA synapses at 0.1 with mean interval
    [1000 / gaba_freq]; every generator has number 1000, noise 1 and starts
    at 0 when [delays] is empty, else at the element of [delays] at the
    position of its section among the targets; every connection has
    threshold 0.1 and delay 0.  Every target section carries an AMPA, an
    NMDA and a GABA synapse. *)
Theorem bg_noise_placement (self cell' : MSN) (gaba_freq glut_freq : R)
    (dend_only : bool) (a n s : option R) (delays : list R) :
  add_bg_noise self gaba_freq glut_freq dend_only a n s delays = Ok cell' ->
  (forall e, e ∈ _bg_noise cell' ->
     exists k sec start_,
       noise_sections self dend_only !! k = Some (syn_sec (fst (fst e))) /\
       all self !! syn_sec (fst (fst e)) = Some sec /\
       (dend_only = true -> str_in "dend" (sec_name sec) = true) /\
       (delays = [] -> start_ = 0) /\
       (delays <> [] -> delays !! k = Some start_) /\
       configured gaba_freq glut_freq start_ (syn_sec (fst (fst e))) e) /\
  (forall i, i ∈ noise_sections self dend_only ->
     forall kind, kind = "ampa" \/ kind = "nmda" \/ kind = "gaba" ->
       exists e, e ∈ _bg_noise cell' /\ entry_kind e = kind /\
                 syn_sec (fst (fst e)) = i).
Proof.
  unfold add_bg_noise. intros H.
  destruct (enumerate_loop _ _ _) as [added |] eqn:Hloop; simpl in H;
    [| discriminate].
  injection H as <-. simpl.
  rewrite (proj1 (remove_bg_noise_empties self)). simpl. split.
  - intros e He.
    destruct (enumerate_loop_elem_at _ _ _ _ Hloop e He)
      as (k & i & here & Hk & Hb & Hin). simpl in Hb.
    destruct (add_bg_noise_body_shape _ _ _ _ _ _ _ _ _ _ Hb)
      as (start_ & e1 & e2 & e3 & Hd & -> & _ & _ & _ & Hcfg).
    rewrite List.Forall_forall in Hcfg.
    pose proof (Hcfg e (proj1 (list_elem_of_In _ _) Hin)) as Hc.
    assert (Hsec : syn_sec (fst (fst e)) = i).
    { destruct e as [[syn stim] conn]. simpl in *. tauto. }
    rewrite Hsec.
    assert (Hi : i ∈ noise_sections self dend_only)
      by (eapply list_elem_of_lookup_2; exact Hk).
    apply noise_sections_spec in Hi as (sec & Hs & Hname).
    exists k, sec, start_. split_and!; try assumption.
    + intros ->. unfold delay_of in Hd. simpl in Hd. congruence.
    + intros Hne. unfold delay_of in Hd.
      case_bool_decide as E; [destruct delays; [congruence | discriminate] |].
      destruct (delays !! k); congruence.
  - intros i Hi kind Hkind.
    apply list_elem_of_lookup in Hi as [k Hk].
    destruct (enumerate_loop_complete _ _ _ _ Hloop k i Hk)
      as (here & Hb & Hsub). simpl in Hb.
    destruct (add_bg_noise_body_shape _ _ _ _ _ _ _ _ _ _ Hb)
      as (start_ & e1 & e2 & e3 & _ & -> & K1 & K2 & K3 & Hcfg).
    rewrite List.Forall_forall in Hcfg.
    assert (Hsec : forall e, e ∈ [e1; e2; e3] -> syn_sec (fst (fst e)) = i).
    { intros e He. specialize (Hcfg e (proj1 (list_elem_of_In _ _) He)).
      destruct e as [[syn stim] conn]. simpl in *. tauto. }
    destruct Hkind as [-> | [-> | ->]].
    + exists e1. split_and!; [apply Hsub | exact K1 | apply Hsec];
        rewrite !elem_of_cons; tauto.
    + exists e2. split_and!; [apply Hsub | exact K2 | apply Hsec];
        rewrite !elem_of_cons; tauto.
    + exists e3. split_and!; [apply Hsub | exact K3 | apply Hsec];
        rewrite !elem_of_cons; tauto.
Qed.

(** Dendrites only, on the example cell: three synapses on [dend[0]]. *)
Lemma bg_noise_placement_witness :
  exists cell',
    add_bg_noise (example_msn dmsn) 4 12 true None None None [] = Ok cell' /\
    length (_bg_noise cell') = 3%nat /\
    (forall e, e ∈ _bg_noise cell' -> syn_sec (fst (fst e)) = 1%nat) /\
    exists e, e ∈ _bg_noise cell' /\ entry_kind e = "gaba" /\
              syn_sec (fst (fst e)) = 1%nat.
Proof.
  destruct (proj1 (add_bg_noise_total (example_msn dmsn) 4 12 true
                     None None None [] ltac:(lra) ltac:(lra)
                     (or_introl eq_refl))) as (cell' & H1 & Hlen).
  destruct (bg_noise_placement _ _ _ _ _ _ _ _ _ H1) as [Hall Hevery].
  exists cell'. split; [exact H1 |]. split; [exact Hlen |]. split.
  - intros e He. destruct (Hall e He) as (k & sec & st & Hk & _).
    change (noise_sections (example_msn dmsn) true) with [1%nat] in Hk.
    destruct k as [| k]; [now injection Hk as <- |].
    simpl in Hk. discriminate.
  - apply (Hevery 1%nat); [| tauto].
    change (noise_sections (example_msn dmsn) true) with [1%nat]. now left.
Defined.

(** ** Neuromodulation on any cell *)

(** *** Loops over section references *)

Lemma option_Forall2_Some_l {A B : Type} (R : A -> B -> Prop) (x : A)
    (my : option B) :
  option_Forall2 R (Some x) my -> exists y, my = Some y /\ R x y.
Proof. intros H. inversion H as [? y HR |]; subst. now exists y. Qed.

Lemma for_segments_snoc (f : segment -> segment) (sections : list nat)
    (i : nat) (all_ : list section) :
  for_segments f (sections ++ [i]) all_
  = alter (map_segments f) i (for_segments f sections all_).
Proof. unfold for_segments. now rewrite foldl_app. Qed.

Lemma for_segments_length (f : segment -> segment) (sections : list nat)
    (all_ : list section) :
  length (for_segments f sections all_) = length all_.
Proof.
  induction sections as [| s sections IH] using rev_ind; [reflexivity |].
  rewrite for_segments_snoc, length_alter. exact IH.
Qed.

Lemma map_segments_idem (f : segment -> segment) (sec : section) :
  (forall seg, f (f seg) = f seg) ->
  map_segments f (map_segments f sec) = map_segments f sec.
Proof.
  intros Hf. unfold map_segments. simpl. f_equal.
  rewrite <- list_fmap_compose. apply list_fmap_ext. intros ? seg _.
  simpl. apply Hf.
Qed.

(** A loop over section references applies [f] to the segments of each
    referred section (once or more) and leaves the other sections alone;
    when [f] does nothing new the second time, referred sections get
    exactly [f]. *)
Lemma for_segments_lookup (f : segment -> segment) (sections : list nat)
    (all_ : list section) (i : nat) :
  (forall seg, f (f seg) = f seg) ->
  for_segments f sections all_ !! i
  = (if bool_decide (i ∈ sections) then map_segments f <$> all_ !! i
     else all_ !! i).
Proof.
  intros Hf. induction sections as [| s sections IH] using rev_ind.
  - reflexivity.
  - rewrite for_segments_snoc.
    destruct (decide (s = i)) as [-> | Hne].
    + rewrite list_lookup_alter_eq, IH.
      rewrite (bool_decide_eq_true_2 (i ∈ (sections ++ [i])%list))
        by (apply elem_of_app; right; now left).
      case_bool_decide; [| reflexivity].
      destruct (all_ !! i) as [sec |]; [| reflexivity]. simpl.
      now rewrite map_segments_idem.
    + rewrite list_lookup_alter_ne by exact Hne. rewrite IH.
      case_bool_decide as H1; case_bool_decide as H2; try reflexivity.
      * exfalso. apply H2. apply elem_of_app. now left.
      * exfalso. apply elem_of_app in H2 as [H2 | H2]; [contradiction |].
        apply list_elem_of_singleton in H2. congruence.
Qed.

Lemma for_segments_ext (f g : segment -> segment) (sections : list nat)
    (all_ : list section) :
  (forall seg, f seg = g seg) ->
  for_segments f sections all_ = for_segments g sections all_.
Proof.
  intros Hfg. revert all_.
  induction sections as [| s sections IH]; intros all_; [reflexivity |].
  unfold for_segments in *. simpl. rewrite IH. f_equal.
  apply list_eq. intros i. rewrite !list_lookup_alter.
  case_decide as E; [subst s | reflexivity].
  destruct (all_ !! i) as [sec |]; [| reflexivity]. simpl. f_equal.
  unfold map_segments. f_equal. apply list_fmap_ext. intros; apply Hfg.
Qed.

Lemma mech_at_map (M P : modulated -> modulated) (all_ : list section)
    (i j k : nat) :
  mech_at (map_segments (both M P) <$> all_) i j k = M <$> mech_at all_ i j k.
Proof.
  unfold mech_at. rewrite list_lookup_fmap.
  destruct (all_ !! i) as [sec |]; [| reflexivity]. simpl.
  rewrite list_lookup_fmap.
  destruct (sec_segments sec !! j) as [seg |]; [| reflexivity]. simpl.
  now rewrite list_lookup_fmap.
Qed.

Lemma syn_at_map (M P : modulated -> modulated) (all_ : list section)
    (i j k : nat) :
  syn_at (map_segments (both M P) <$> all_) i j k = P <$> syn_at all_ i j k.
Proof.
  unfold syn_at. rewrite list_lookup_fmap.
  destruct (all_ !! i) as [sec |]; [| reflexivity]. simpl.
  rewrite list_lookup_fmap.
  destruct (sec_segments sec !! j) as [seg |]; [| reflexivity]. simpl.
  now rewrite list_lookup_fmap.
Qed.

(** A loop whose step maps [M] over the channels and [P] over the
    synapses of a segment acts pointwise, on the referred sections only. *)
Lemma for_segments_pointwise (M P : modulated -> modulated)
    (sections : list nat) (all_ : list section) (i j k : nat) :
  (forall o, M (M o) = M o) -> (forall o, P (P o) = P o) ->
  mech_at (for_segments (both M P) sections all_) i j k
  = (if bool_decide (i ∈ sections) then M <$> mech_at all_ i j k
     else mech_at all_ i j k) /\
  syn_at (for_segments (both M P) sections all_) i j k
  = (if bool_decide (i ∈ sections) then P <$> syn_at all_ i j k
     else syn_at all_ i j k).
Proof.
  intros HM HP.
  assert (Hstep : forall seg, both M P (both M P seg) = both M P seg).
  { intros seg. unfold both. simpl. rewrite <- !list_fmap_compose.
    f_equal; apply list_fmap_ext; intros; simpl; [apply HM | apply HP]. }
  pose proof (for_segments_lookup (both M P) sections all_ i Hstep) as Hl.
  unfold mech_at, syn_at. rewrite Hl.
  case_bool_decide; [| tauto].
  destruct (all_ !! i) as [sec |]; [| tauto]. simpl.
  rewrite list_lookup_fmap.
  destruct (sec_segments sec !! j) as [seg |]; [| tauto]. simpl.
  now rewrite !list_lookup_fmap.
Qed.

(** The steps of the four loops, as maps over channels and synapses. *)
Ltac step_shape :=
  unfold both, when, on, with_mechs, with_pps; cbn [seg_mechs seg_pps];
  f_equal; rewrite <- ?list_fmap_compose;
  first [reflexivity | symmetry; apply list_fmap_id].

Lemma dopamine_init_step (self : Dopamine.t) (bi bg bq : bool)
    (seg : segment) :
  when bq (Dopamine._modulate_glut self false)
    (when bg (Dopamine._modulate_gaba self false)
       (when bi (Dopamine._modulate_instrinsic self false) seg))
  = both (on bi (dopamine_intrinsic self false))
         (fun o => on bq (dopamine_glut self false)
                     (on bg (dopamine_gaba self false) o)) seg.
Proof.
  destruct seg as [mechs pps].
  unfold Dopamine._modulate_glut, Dopamine._modulate_gaba,
    Dopamine._modulate_instrinsic.
  destruct bi, bg, bq; step_shape.
Qed.

Lemma dopamine_reset_step (self : Dopamine.t) (seg : segment) :
  Dopamine._modulate_gaba self true
    (Dopamine._modulate_glut self true
       (Dopamine._modulate_instrinsic self true seg))
  = both (dopamine_intrinsic self true)
         (fun o => dopamine_gaba self true (dopamine_glut self true o)) seg.
Proof.
  destruct seg as [mechs pps].
  unfold Dopamine._modulate_glut, Dopamine._modulate_gaba,
    Dopamine._modulate_instrinsic.
  step_shape.
Qed.

Lemma acetylcholine_init_step (self : Acetylcholine.t) (t : cell_type)
    (shift : R) (bs bi bg bq : bool) (seg : segment) :
  when bs (Acetylcholine._shift_kaf self t shift false)
    (when bq (Acetylcholine._modulate_glut self false)
       (when bg (Acetylcholine._modulate_gaba self false)
          (when bi (Acetylcholine._modulate_intrinsic self false) seg)))
  = both (fun o => on bs (acetylcholine_shift self t shift false)
                     (on bi (acetylcholine_intrinsic self false) o))
         (fun o => on bq (acetylcholine_glut self false)
                     (on bg (acetylcholine_gaba self false) o)) seg.
Proof.
  destruct seg as [mechs pps].
  unfold Acetylcholine._modulate_glut, Acetylcholine._modulate_gaba,
    Acetylcholine._modulate_intrinsic, Acetylcholine._shift_kaf.
  destruct t, bs, bi, bg, bq; step_shape.
Qed.

Lemma acetylcholine_reset_step (self : Acetylcholine.t) (t : cell_type)
    (bi bg bq : bool) (seg : segment) :
  when bg (Acetylcholine._modulate_gaba self true)
    (when bq (Acetylcholine._modulate_glut self true)
       (when bi (fun s => Acetylcholine._shift_kaf self t (-10) true
                            (Acetylcholine._modulate_intrinsic self true s))
          seg))
  = both (on bi (fun o => acetylcholine_shift self t (-10) true
                            (acetylcholine_intrinsic self true o)))
         (fun o => on bg (acetylcholine_gaba self true)
                     (on bq (acetylcholine_glut self true) o)) seg.
Proof.
  destruct seg as [mechs pps].
  unfold Acetylcholine._modulate_glut, Acetylcholine._modulate_gaba,
    Acetylcholine._modulate_intrinsic, Acetylcholine._shift_kaf.
  destruct t, bi, bg, bq; step_shape.
Qed.

(** *** The steps on one object *)

(** Every step keeps the name of the object, so the tests it makes give
    the same answers on its own result. *)
Lemma modulate_obj_name (self : Dopamine.t) (factor : R) (key : string)
    (reset : bool) (o : modulated) :
  obj_name (Dopamine.modulate_obj self factor key reset o) = obj_name o.
Proof.
  unfold Dopamine.modulate_obj.
  destruct reset; [reflexivity |].
  destruct (played _ _); reflexivity.
Qed.

Lemma modulate_syn_name (self : Acetylcholine.t) (factor : R) (key : string)
    (reset : bool) (o : modulated) :
  obj_name (Acetylcholine.modulate_syn self factor key reset o) = obj_name o.
Proof.
  unfold Acetylcholine.modulate_syn.
  destruct reset; [reflexivity |].
  destruct (played _ _); reflexivity.
Qed.

Lemma acetylcholine_channel_name (self : Acetylcholine.t) (factor : R)
    (key : string) (reset : bool) (o : modulated) :
  obj_name (acetylcholine_channel self factor key reset o) = obj_name o.
Proof.
  unfold acetylcholine_channel.
  destruct reset; destruct (played _ _); reflexivity.
Qed.

Lemma shift_channel_name (self : Acetylcholine.t) (by_mV : R)
    (reset : bool) (o : modulated) :
  obj_name (shift_channel self by_mV reset o) = obj_name o.
Proof.
  unfold shift_channel.
  destruct reset; [reflexivity |].
  destruct (played _ _); reflexivity.
Qed.

(** A step overwrites what an earlier run of the same step wrote, also
    with another step in between. *)
Lemma modulate_obj_absorb (self : Dopamine.t) (f1 f2 : R) (k1 k2 : string)
    (reset : bool) (o : modulated) :
  Dopamine.modulate_obj self f1 k1 reset
    (Dopamine.modulate_obj self f2 k2 reset
       (Dopamine.modulate_obj self f1 k1 reset o))
  = Dopamine.modulate_obj self f1 k1 reset
      (Dopamine.modulate_obj self f2 k2 reset o).
Proof.
  unfold Dopamine.modulate_obj.
  destruct reset; [reflexivity |].
  destruct (played (Dopamine.play self) k1),
           (played (Dopamine.play self) k2); reflexivity.
Qed.

Lemma modulate_obj_idem (self : Dopamine.t) (f1 : R) (k1 : string)
    (reset : bool) (o : modulated) :
  Dopamine.modulate_obj self f1 k1 reset
    (Dopamine.modulate_obj self f1 k1 reset o)
  = Dopamine.modulate_obj self f1 k1 reset o.
Proof.
  unfold Dopamine.modulate_obj.
  destruct reset; [reflexivity |].
  destruct (played _ k1); reflexivity.
Qed.

Lemma modulate_syn_absorb (self : Acetylcholine.t) (f1 f2 : R)
    (k1 k2 : string) (reset : bool) (o : modulated) :
  Acetylcholine.modulate_syn self f1 k1 reset
    (Acetylcholine.modulate_syn self f2 k2 reset
       (Acetylcholine.modulate_syn self f1 k1 reset o))
  = Acetylcholine.modulate_syn self f1 k1 reset
      (Acetylcholine.modulate_syn self f2 k2 reset o).
Proof.
  unfold Acetylcholine.modulate_syn.
  destruct reset; [reflexivity |].
  destruct (played (Acetylcholine.play self) k1),
           (played (Acetylcholine.play self) k2); reflexivity.
Qed.

Lemma modulate_syn_idem (self : Acetylcholine.t) (f1 : R) (k1 : string)
    (reset : bool) (o : modulated) :
  Acetylcholine.modulate_syn self f1 k1 reset
    (Acetylcholine.modulate_syn self f1 k1 reset o)
  = Acetylcholine.modulate_syn self f1 k1 reset o.
Proof.
  unfold Acetylcholine.modulate_syn.
  destruct reset; [reflexivity |].
  destruct (played _ k1); reflexivity.
Qed.

Lemma acetylcholine_channel_idem (self : Acetylcholine.t) (f1 : R)
    (k1 : string) (reset : bool) (o : modulated) :
  acetylcholine_channel self f1 k1 reset
    (acetylcholine_channel self f1 k1 reset o)
  = acetylcholine_channel self f1 k1 reset o.
Proof.
  unfold acetylcholine_channel.
  destruct reset; destruct (played _ k1); reflexivity.
Qed.

Lemma shift_channel_idem (self : Acetylcholine.t) (by_mV : R)
    (reset : bool) (o : modulated) :
  shift_channel self by_mV reset (shift_channel self by_mV reset o)
  = shift_channel self by_mV reset o.
Proof.
  unfold shift_channel.
  destruct reset; [reflexivity |].
  destruct (played _ _); reflexivity.
Qed.

Lemma shift_channel_absorb (self : Acetylcholine.t) (by_mV f1 : R)
    (k1 : string) (reset : bool) (o : modulated) :
  shift_channel self by_mV reset
    (acetylcholine_channel self f1 k1 reset
       (shift_channel self by_mV reset o))
  = shift_channel self by_mV reset (acetylcholine_channel self f1 k1 reset o).
Proof.
  unfold shift_channel, acetylcholine_channel.
  destruct reset;
    destruct (played (Acetylcholine.play self) k1),
             (played (Acetylcholine.play self) "kaf"); reflexivity.
Qed.

(** The loop bodies keep the name. *)
Lemma dopamine_intrinsic_name (self : Dopamine.t) (reset : bool)
    (o : modulated) :
  obj_name (dopamine_intrinsic self reset o) = obj_name o.
Proof.
  unfold dopamine_intrinsic.
  destruct (intrinsic _ !! _); [apply modulate_obj_name | reflexivity].
Qed.

Lemma dopamine_gaba_name (self : Dopamine.t) (reset : bool) (o : modulated) :
  obj_name (dopamine_gaba self reset o) = obj_name o.
Proof.
  unfold dopamine_gaba.
  destruct (str_in _ _); [apply modulate_obj_name | reflexivity].
Qed.

Lemma dopamine_glut_name (self : Dopamine.t) (reset : bool) (o : modulated) :
  obj_name (dopamine_glut self reset o) = obj_name o.
Proof.
  unfold dopamine_glut.
  destruct (str_in "ampa" _); [apply modulate_obj_name |].
  destruct (str_in "nmda" _); [apply modulate_obj_name | reflexivity].
Qed.

Lemma acetylcholine_intrinsic_name (self : Acetylcholine.t) (reset : bool)
    (o : modulated) :
  obj_name (acetylcholine_intrinsic self reset o) = obj_name o.
Proof.
  unfold acetylcholine_intrinsic.
  destruct (intrinsic _ !! _); [apply acetylcholine_channel_name |
                                reflexivity].
Qed.

Lemma acetylcholine_shift_name (self : Acetylcholine.t) (t : cell_type)
    (by_mV : R) (reset : bool) (o : modulated) :
  obj_name (acetylcholine_shift self t by_mV reset o) = obj_name o.
Proof.
  unfold acetylcholine_shift. destruct t; [| reflexivity].
  destruct (String.eqb _ _); [apply shift_channel_name | reflexivity].
Qed.

Lemma acetylcholine_gaba_name (self : Acetylcholine.t) (reset : bool)
    (o : modulated) :
  obj_name (acetylcholine_gaba self reset o) = obj_name o.
Proof.
  unfold acetylcholine_gaba.
  destruct (str_in _ _); [apply modulate_syn_name | reflexivity].
Qed.

Lemma acetylcholine_glut_name (self : Acetylcholine.t) (reset : bool)
    (o : modulated) :
  obj_name (acetylcholine_glut self reset o) = obj_name o.
Proof.
  unfold acetylcholine_glut.
  destruct (str_in "ampa" _); [apply modulate_syn_name |].
  destruct (str_in "nmda" _); [apply modulate_syn_name | reflexivity].
Qed.

Lemma unplay_obj_name (vecs : list nat) (o : modulated) :
  obj_name (unplay_obj vecs o) = obj_name o.
Proof. reflexivity. Qed.

Lemma on_name (b : bool) (f : modulated -> modulated) (o : modulated) :
  (forall x, obj_name (f x) = obj_name x) ->
  obj_name (on b f o) = obj_name o.
Proof. intros Hf. destruct b; [apply Hf | reflexivity]. Qed.

(** Each loop body runs on an object by the tests on its name. *)
Ltac names :=
  repeat first
    [ rewrite dopamine_intrinsic_name | rewrite dopamine_gaba_name
    | rewrite dopamine_glut_name | rewrite acetylcholine_intrinsic_name
    | rewrite acetylcholine_shift_name | rewrite acetylcholine_gaba_name
    | rewrite acetylcholine_glut_name | rewrite modulate_obj_name
    | rewrite modulate_syn_name | rewrite acetylcholine_channel_name
    | rewrite shift_channel_name | rewrite unplay_obj_name ].

Lemma dopamine_intrinsic_on (self : Dopamine.t) (reset : bool)
    (x : modulated) (r : option R) :
  intrinsic (Dopamine.params self) !! obj_name x = r ->
  dopamine_intrinsic self reset x
  = match r with
    | Some factor => Dopamine.modulate_obj self factor (obj_name x) reset x
    | None => x
    end.
Proof. now intros <-. Qed.

Lemma dopamine_gaba_on (self : Dopamine.t) (reset : bool) (x : modulated)
    (g : bool) :
  str_in "gaba" (obj_name x) = g ->
  dopamine_gaba self reset x
  = if g then Dopamine.modulate_obj self (synaptic_GABA (Dopamine.params self))
                "gaba" reset x
    else x.
Proof. now intros <-. Qed.

Lemma dopamine_glut_on (self : Dopamine.t) (reset : bool) (x : modulated)
    (a n : bool) :
  str_in "ampa" (obj_name x) = a -> str_in "nmda" (obj_name x) = n ->
  dopamine_glut self reset x
  = if a then Dopamine.modulate_obj self (synaptic_AMPA (Dopamine.params self))
                "glut" reset x
    else if n
    then Dopamine.modulate_obj self (synaptic_NMDA (Dopamine.params self))
           "glut" reset x
    else x.
Proof. now intros <- <-. Qed.

Lemma acetylcholine_intrinsic_on (self : Acetylcholine.t) (reset : bool)
    (x : modulated) (r : option R) :
  intrinsic (Acetylcholine.params self) !! obj_name x = r ->
  acetylcholine_intrinsic self reset x
  = match r with
    | Some factor =>
        acetylcholine_channel self factor (obj_name x) reset x
    | None => x
    end.
Proof. now intros <-. Qed.

Lemma acetylcholine_shift_on (self : Acetylcholine.t) (t : cell_type)
    (by_mV : R) (reset : bool) (x : modulated) (k : bool) :
  String.eqb (obj_name x) "kaf" = k ->
  acetylcholine_shift self t by_mV reset x
  = match t with
    | dmsn => if k then shift_channel self by_mV reset x else x
    | imsn => x
    end.
Proof. now intros <-. Qed.

Lemma acetylcholine_gaba_on (self : Acetylcholine.t) (reset : bool)
    (x : modulated) (g : bool) :
  str_in "gaba" (obj_name x) = g ->
  acetylcholine_gaba self reset x
  = if g then Acetylcholine.modulate_syn self
                (synaptic_GABA (Acetylcholine.params self)) "gaba" reset x
    else x.
Proof. now intros <-. Qed.

Lemma acetylcholine_glut_on (self : Acetylcholine.t) (reset : bool)
    (x : modulated) (a n : bool) :
  str_in "ampa" (obj_name x) = a -> str_in "nmda" (obj_name x) = n ->
  acetylcholine_glut self reset x
  = if a then Acetylcholine.modulate_syn self
                (synaptic_AMPA (Acetylcholine.params self)) "glut" reset x
    else if n
    then Acetylcholine.modulate_syn self
           (synaptic_NMDA (Acetylcholine.params self)) "glut" reset x
    else x.
Proof. now intros <- <-. Qed.

(** Runs the loop bodies of the goal, given the answers of the tests on
    the name of the object as hypotheses. *)
Ltac run_body :=
  first
    [ erewrite dopamine_intrinsic_on by (names; eassumption)
    | erewrite dopamine_gaba_on by (names; eassumption)
    | erewrite dopamine_glut_on by (names; eassumption)
    | erewrite acetylcholine_intrinsic_on by (names; eassumption)
    | erewrite acetylcholine_shift_on by (names; eassumption)
    | erewrite acetylcholine_gaba_on by (names; eassumption)
    | erewrite acetylcholine_glut_on by (names; eassumption) ];
  cbv beta iota.

Ltac run_bodies := repeat run_body; names.

Lemma dopamine_intrinsic_idem (self : Dopamine.t) (reset : bool)
    (o : modulated) :
  dopamine_intrinsic self reset (dopamine_intrinsic self reset o)
  = dopamine_intrinsic self reset o.
Proof.
  destruct (intrinsic (Dopamine.params self) !! obj_name o) eqn:E;
    run_bodies; [apply modulate_obj_idem | reflexivity].
Qed.

Lemma dopamine_synapse_idem (self : Dopamine.t) (reset bg bq : bool)
    (o : modulated) :
  let P := fun o => on bq (dopamine_glut self reset)
                      (on bg (dopamine_gaba self reset) o) in
  P (P o) = P o.
Proof.
  cbv zeta.
  destruct (str_in "gaba" (obj_name o)) eqn:Eg;
    destruct (str_in "ampa" (obj_name o)) eqn:Ea;
    destruct (str_in "nmda" (obj_name o)) eqn:En;
    destruct bg, bq; unfold on; run_bodies;
    rewrite ?modulate_obj_absorb, ?modulate_obj_idem; reflexivity.
Qed.

Lemma acetylcholine_channel_step_idem (self : Acetylcholine.t)
    (t : cell_type) (by_mV : R) (reset bs bi : bool) (o : modulated) :
  let M := fun o => on bs (acetylcholine_shift self t by_mV reset)
                      (on bi (acetylcholine_intrinsic self reset) o) in
  M (M o) = M o.
Proof.
  cbv zeta.
  destruct (intrinsic (Acetylcholine.params self) !! obj_name o) eqn:E;
    destruct (String.eqb (obj_name o) "kaf") eqn:Ek;
    destruct t, bs, bi; unfold on; run_bodies;
    rewrite ?shift_channel_absorb, ?shift_channel_idem,
      ?acetylcholine_channel_idem; reflexivity.
Qed.

Lemma acetylcholine_reset_channel_idem (self : Acetylcholine.t)
    (t : cell_type) (bi : bool) (o : modulated) :
  let M := on bi (fun o => acetylcholine_shift self t (-10) true
                             (acetylcholine_intrinsic self true o)) in
  M (M o) = M o.
Proof.
  cbv zeta. destruct bi; [| reflexivity].
  exact (acetylcholine_channel_step_idem self t (-10) true true true o).
Qed.

Lemma acetylcholine_synapse_idem (self : Acetylcholine.t)
    (reset bg bq : bool) (o : modulated) :
  let P := fun o => on bq (acetylcholine_glut self reset)
                      (on bg (acetylcholine_gaba self reset) o) in
  P (P o) = P o.
Proof.
  cbv zeta.
  destruct (str_in "gaba" (obj_name o)) eqn:Eg;
    destruct (str_in "ampa" (obj_name o)) eqn:Ea;
    destruct (str_in "nmda" (obj_name o)) eqn:En;
    destruct bg, bq; unfold on; run_bodies;
    rewrite ?modulate_syn_absorb, ?modulate_syn_idem; reflexivity.
Qed.

(** The reset loops run the synaptic steps in the other order. *)
Lemma dopamine_reset_synapse_idem (self : Dopamine.t) (o : modulated) :
  let P := fun o => dopamine_gaba self true (dopamine_glut self true o) in
  P (P o) = P o.
Proof.
  cbv zeta.
  destruct (str_in "gaba" (obj_name o)) eqn:Eg;
    destruct (str_in "ampa" (obj_name o)) eqn:Ea;
    destruct (str_in "nmda" (obj_name o)) eqn:En;
    run_bodies;
    rewrite ?modulate_obj_absorb, ?modulate_obj_idem; reflexivity.
Qed.

Lemma acetylcholine_reset_synapse_idem (self : Acetylcholine.t)
    (bg bq : bool) (o : modulated) :
  let P := fun o => on bg (acetylcholine_gaba self true)
                      (on bq (acetylcholine_glut self true) o) in
  P (P o) = P o.
Proof.
  cbv zeta.
  destruct (str_in "gaba" (obj_name o)) eqn:Eg;
    destruct (str_in "ampa" (obj_name o)) eqn:Ea;
    destruct (str_in "nmda" (obj_name o)) eqn:En;
    destruct bg, bq; unfold on; run_bodies;
    rewrite ?modulate_syn_absorb, ?modulate_syn_idem; reflexivity.
Qed.

(** *** The four operations on a cell, object by object *)

Lemma select_sections_ok (cell : MSN) (modulate : string) :
  modulate = "all" \/ modulate = "no_axon" ->
  select_sections cell modulate
  = Ok (if String.eqb modulate "all" then seq 0 (length (all cell))
        else soma cell :: dend cell).
Proof. intros [-> | ->]; reflexivity. Qed.

Lemma select_sections_error (cell : MSN) (modulate : string) :
  modulate <> "all" -> modulate <> "no_axon" ->
  select_sections cell modulate = Raise AttributeError.
Proof.
  intros H1 H2. unfold select_sections.
  apply String.eqb_neq in H1, H2. now rewrite H1, H2.
Qed.

Lemma unplay_nil (o : option nat) : unplay [] o = o.
Proof. now destruct o. Qed.

Lemma unplay_obj_nil (o : modulated) : unplay_obj [] o = o.
Proof. destruct o. unfold unplay_obj. simpl. now rewrite !unplay_nil. Qed.

(** [play_remove] of every vector of [play], on each object. *)
Lemma play_remove_all_at (play : gmap string nat) (all_ : list section)
    (i j k : nat) :
  length (play_remove_all play all_) = length all_ /\
  mech_at (play_remove_all play all_) i j k
  = unplay_obj (play_vectors play) <$> mech_at all_ i j k /\
  syn_at (play_remove_all play all_) i j k
  = unplay_obj (play_vectors play) <$> syn_at all_ i j k.
Proof.
  unfold play_remove_all, play_vectors. case_bool_decide.
  - split; [reflexivity |].
    split; [destruct (mech_at all_ i j k) | destruct (syn_at all_ i j k)];
      simpl; now rewrite ?unplay_obj_nil.
  - split; [apply length_fmap |].
    split; [apply (mech_at_map _ _ all_) | apply (syn_at_map _ _ all_)].
Qed.

Lemma dopamine_init_at (cell : MSN) (u : nat -> R) (modulate : string)
    (bi bg bq : bool) (play : gmap string nat) (dt : R)
    (sections : list nat) :
  select_sections cell modulate = Ok sections ->
  let self := Dopamine.Make (get_modulation_params (type cell) DA u)
                play dt sections in
  exists cell',
    Dopamine.init cell u modulate bi bg bq play dt = Ok (self, cell') /\
    type cell' = type cell /\ index cell' = index cell /\
    soma cell' = soma cell /\ dend cell' = dend cell /\
    _bg_noise cell' = _bg_noise cell /\
    length (all cell') = length (all cell) /\
    forall i j k,
      mech_at (all cell') i j k
      = (if bool_decide (i ∈ sections)
         then on bi (dopamine_intrinsic self false) <$> mech_at (all cell) i j k
         else mech_at (all cell) i j k) /\
      syn_at (all cell') i j k
      = (if bool_decide (i ∈ sections)
         then (fun o => on bq (dopamine_glut self false)
                          (on bg (dopamine_gaba self false) o))
              <$> syn_at (all cell) i j k
         else syn_at (all cell) i j k).
Proof.
  intros Hsel self. unfold Dopamine.init. rewrite Hsel. simpl.
  eexists. split; [reflexivity |]. simpl.
  split_and!; try reflexivity.
  - apply for_segments_length.
  - intros i j k. fold self.
    rewrite (for_segments_ext _ _ _ _ (dopamine_init_step self bi bg bq)).
    apply for_segments_pointwise.
    + intros o. destruct bi; [apply dopamine_intrinsic_idem | reflexivity].
    + intros o. apply (dopamine_synapse_idem self false bg bq).
Qed.

Lemma dopamine_reset_at (self : Dopamine.t) (cell : MSN) (i j k : nat) :
  let vecs := play_vectors (Dopamine.play self) in
  mech_at (all (Dopamine.reset self cell)) i j k
  = (if bool_decide (i ∈ Dopamine._sections self)
     then (fun o => dopamine_intrinsic self true (unplay_obj vecs o))
          <$> mech_at (all cell) i j k
     else unplay_obj vecs <$> mech_at (all cell) i j k) /\
  syn_at (all (Dopamine.reset self cell)) i j k
  = (if bool_decide (i ∈ Dopamine._sections self)
     then (fun o => dopamine_gaba self true
                      (dopamine_glut self true (unplay_obj vecs o)))
          <$> syn_at (all cell) i j k
     else unplay_obj vecs <$> syn_at (all cell) i j k).
Proof.
  intros vecs. unfold Dopamine.reset. simpl.
  rewrite (for_segments_ext _ _ _ _ (dopamine_reset_step self)).
  destruct (for_segments_pointwise (dopamine_intrinsic self true)
              (fun o => dopamine_gaba self true (dopamine_glut self true o))
              (Dopamine._sections self)
              (play_remove_all (Dopamine.play self) (all cell)) i j k)
    as [Hm Hs].
  { apply dopamine_intrinsic_idem. }
  { apply dopamine_reset_synapse_idem. }
  rewrite Hm, Hs.
  destruct (play_remove_all_at (Dopamine.play self) (all cell) i j k)
    as (_ & -> & ->).
  fold vecs. rewrite <- !option_fmap_compose.
  case_bool_decide; split; reflexivity.
Qed.

Lemma acetylcholine_init_at (cell : MSN) (u : nat -> R) (modulate : string)
    (bi bg bq : bool) (shift_kaf : R) (play : gmap string nat) (dt : R)
    (sections : list nat) :
  select_sections cell modulate = Ok sections ->
  let self := Acetylcholine.Make (get_modulation_params (type cell) ACh u)
                play dt sections in
  exists cell',
    Acetylcholine.init cell u modulate bi bg bq shift_kaf play dt
    = Ok (self, cell') /\
    type cell' = type cell /\ index cell' = index cell /\
    soma cell' = soma cell /\ dend cell' = dend cell /\
    _bg_noise cell' = _bg_noise cell /\
    length (all cell') = length (all cell) /\
    forall i j k,
      mech_at (all cell') i j k
      = (if bool_decide (i ∈ sections)
         then (fun o => on (truthy (Some shift_kaf))
                          (acetylcholine_shift self (type cell) shift_kaf
                             false)
                          (on bi (acetylcholine_intrinsic self false) o))
              <$> mech_at (all cell) i j k
         else mech_at (all cell) i j k) /\
      syn_at (all cell') i j k
      = (if bool_decide (i ∈ sections)
         then (fun o => on bq (acetylcholine_glut self false)
                          (on bg (acetylcholine_gaba self false) o))
              <$> syn_at (all cell) i j k
         else syn_at (all cell) i j k).
Proof.
  intros Hsel self. unfold Acetylcholine.init. rewrite Hsel. simpl.
  eexists. split; [reflexivity |]. simpl.
  split_and!; try reflexivity.
  - apply for_segments_length.
  - intros i j k. fold self.
    rewrite (for_segments_ext _ _ _ _
               (acetylcholine_init_step self (type cell) shift_kaf
                  (truthy (Some shift_kaf)) bi bg bq)).
    apply for_segments_pointwise.
    + intros o.
      apply (acetylcholine_channel_step_idem self (type cell) shift_kaf
               false (truthy (Some shift_kaf)) bi).
    + intros o. apply (acetylcholine_synapse_idem self false bg bq).
Qed.

Lemma acetylcholine_reset_at (self : Acetylcholine.t) (cell cell' : MSN)
    (what : string) (i j k : nat) :
  Acetylcholine.reset self cell what = Ok cell' ->
  let vecs := play_vectors (Acetylcholine.play self) in
  let is_ := fun s => String.eqb what "all" || String.eqb what s in
  mech_at (all cell') i j k
  = (if bool_decide (i ∈ Acetylcholine._sections self)
     then (fun o => on (is_ "intrinsic")
                      (fun o => acetylcholine_shift self (type cell) (-10)
                                  true (acetylcholine_intrinsic self true o))
                      (unplay_obj vecs o))
          <$> mech_at (all cell) i j k
     else unplay_obj vecs <$> mech_at (all cell) i j k) /\
  syn_at (all cell') i j k
  = (if bool_decide (i ∈ Acetylcholine._sections self)
     then (fun o => on (is_ "gaba") (acetylcholine_gaba self true)
                      (on (is_ "glut") (acetylcholine_glut self true)
                         (unplay_obj vecs o)))
          <$> syn_at (all cell) i j k
     else unplay_obj vecs <$> syn_at (all cell) i j k).
Proof.
  intros H vecs is_. unfold Acetylcholine.reset in H.
  destruct (_ || _); [| discriminate]. injection H as <-. simpl.
  rewrite (for_segments_ext _ _ _ _
             (acetylcholine_reset_step self (type cell) (is_ "intrinsic")
                (is_ "gaba") (is_ "glut"))).
  destruct (for_segments_pointwise
              (on (is_ "intrinsic")
                 (fun o => acetylcholine_shift self (type cell) (-10) true
                             (acetylcholine_intrinsic self true o)))
              (fun o => on (is_ "gaba") (acetylcholine_gaba self true)
                          (on (is_ "glut") (acetylcholine_glut self true) o))
              (Acetylcholine._sections self)
              (play_remove_all (Acetylcholine.play self) (all cell)) i j k)
    as [Hm Hs].
  { apply acetylcholine_reset_channel_idem. }
  { apply acetylcholine_reset_synapse_idem. }
  rewrite Hm, Hs.
  destruct (play_remove_all_at (Acetylcholine.play self) (all cell) i j k)
    as (_ & -> & ->).
  fold vecs. rewrite <- !option_fmap_compose.
  case_bool_decide; split; reflexivity.
Qed.

(** *** What the modulators do to a cell *)

(** X16.  [Dopamine.__init__] on any cell.  With [modulate] one of
    ['all'] and ['no_axon'] it returns; the modulator refers to all
    sections, or to the soma and the dendrites; the cell keeps its type,
    its section lists and its tracked noise; a section the modulator does
    not refer to (the axon under ['no_axon']) is left as it was; and in a
    referred section each channel has gone exactly once through the body
    of [_modulate_instrinsic] and each synapse through the bodies of
    [_modulate_gaba] and [_modulate_glut], as far as the three flags allow,
    however often the section is referred to.  With any other string the
    constructor fails with [AttributeError]. *)
Theorem dopamine_init_modulates (cell : MSN) (u : nat -> R)
    (modulate : string) (bi bg bq : bool) (play : gmap string nat) (dt : R) :
  (modulate = "all" \/ modulate = "no_axon" ->
   exists self cell',
     Dopamine.init cell u modulate bi bg bq play dt = Ok (self, cell') /\
     Dopamine.params self = get_modulation_params (type cell) DA u /\
     Dopamine.play self = play /\
     Dopamine._sections self
     = (if String.eqb modulate "all" then seq 0 (length (all cell))
        else soma cell :: dend cell) /\
     type cell' = type cell /\ soma cell' = soma cell /\
     dend cell' = dend cell /\ _bg_noise cell' = _bg_noise cell /\
     length (all cell') = length (all cell) /\
     forall i j k,
       mech_at (all cell') i j k
       = (if bool_decide (i ∈ Dopamine._sections self)
          then on bi (dopamine_intrinsic self false)
               <$> mech_at (all cell) i j k
          else mech_at (all cell) i j k) /\
       syn_at (all cell') i j k
       = (if bool_decide (i ∈ Dopamine._sections self)
          then (fun o => on bq (dopamine_glut self false)
                           (on bg (dopamine_gaba self false) o))
               <$> syn_at (all cell) i j k
          else syn_at (all cell) i j k)) /\
  (modulate <> "all" -> modulate <> "no_axon" ->
   Dopamine.init cell u modulate bi bg bq play dt = Raise AttributeError).
Proof.
  split.
  - intros Hm.
    destruct (dopamine_init_at cell u modulate bi bg bq play dt _
                (select_sections_ok cell modulate Hm))
      as (cell' & Hi & Ht & _ & Hs & Hd & Hn & Hl & Hat).
    eexists. exists cell'. split; [exact Hi |].
    split_and!; try reflexivity; assumption.
  - intros H1 H2. unfold Dopamine.init.
    now rewrite select_sections_error.
Qed.

Lemma dopamine_init_modulates_witness :
  exists self cell' naf axon_naf,
    Dopamine.init (example_msn dmsn) (fun _ => 0) "no_axon" true true true
      ∅ 0.025 = Ok (self, cell') /\
    mech_at (all cell') 0 0 0 = Some naf /\ damod naf = 1 /\
    maxMod naf = 0.6 /\ level naf = 1 /\
    mech_at (all cell') 2 0 0 = Some axon_naf /\ damod axon_naf = 0.
Proof.
  destruct (proj1 (dopamine_init_modulates (example_msn dmsn) (fun _ => 0)
                     "no_axon" true true true ∅ 0.025)
              (or_intror eq_refl))
    as (self & cell' & Hi & Hp & Hpl & Hs & _ & _ & _ & _ & _ & Hat).
  destruct (Hat 0%nat 0%nat 0%nat) as [H0 _].
  destruct (Hat 2%nat 0%nat 0%nat) as [H2 _].
  rewrite Hs in H0, H2. simpl in H0, H2.
  assert (E : dopamine_intrinsic self false (fresh_obj "naf")
              = Modulated "naf" 1 (0.6 + (0.8 - 0.6) * 0) 1 0 0 0
                  None None None).
  { unfold dopamine_intrinsic, Dopamine.modulate_obj.
    rewrite Hp, Hpl. reflexivity. }
  rewrite E in H0.
  exists self, cell'. do 2 eexists.
  split; [exact Hi |]. split; [exact H0 |]. simpl.
  split; [reflexivity |]. split; [lra |]. split; [reflexivity |].
  split; [exact H2 | reflexivity].
Defined.

(** What a dopamine reset does to a channel and to a synapse. *)
Lemma dopamine_reset_channel_values (self : Dopamine.t) (vecs : list nat)
    (o : modulated) :
  let o' := dopamine_intrinsic self true (unplay_obj vecs o) in
  obj_name o' = obj_name o /\
  level_play o' = unplay vecs (level_play o) /\
  lev2_play o' = unplay vecs (lev2_play o) /\
  modShift_play o' = unplay vecs (modShift_play o) /\
  max2 o' = max2 o /\ lev2 o' = lev2 o /\ modShift o' = modShift o /\
  match intrinsic (Dopamine.params self) !! obj_name o with
  | Some factor => damod o' = 1 /\ maxMod o' = factor /\ level o' = 0
  | None => damod o' = damod o /\ maxMod o' = maxMod o /\ level o' = level o
  end.
Proof.
  unfold dopamine_intrinsic. cbn [obj_name unplay_obj].
  destruct (intrinsic _ !! _); split_and!; reflexivity.
Qed.

Lemma dopamine_reset_synapse_values (self : Dopamine.t) (vecs : list nat)
    (o : modulated) :
  let o' := dopamine_gaba self true
              (dopamine_glut self true (unplay_obj vecs o)) in
  obj_name o' = obj_name o /\
  level_play o' = unplay vecs (level_play o) /\
  lev2_play o' = unplay vecs (lev2_play o) /\
  modShift_play o' = unplay vecs (modShift_play o) /\
  max2 o' = max2 o /\ lev2 o' = lev2 o /\ modShift o' = modShift o /\
  if is_synapse_target (obj_name o)
  then damod o' = 1 /\ level o' = 0
  else damod o' = damod o /\ maxMod o' = maxMod o /\ level o' = level o.
Proof.
  cbv zeta. unfold is_synapse_target.
  destruct (str_in "gaba" (obj_name o)) eqn:Eg;
    destruct (str_in "ampa" (obj_name o)) eqn:Ea;
    destruct (str_in "nmda" (obj_name o)) eqn:En;
    run_bodies; unfold Dopamine.modulate_obj; simpl;
    split_and!; reflexivity.
Qed.

Lemma unplay_not (vecs : list nat) (x : option nat) (v : nat) :
  v ∈ vecs -> unplay vecs x <> Some v.
Proof.
  intros Hv. destruct x as [w |]; simpl; [| discriminate].
  case_bool_decide; congruence.
Qed.

(** X17.  [Dopamine.reset] on any cell.  Every object of the cell keeps
    its name and its [max2], [lev2] and [modShift]; each of its three
    driven variables is let go of when it was driven by one of the
    vectors of [play], so that none of these vectors drives anything
    afterwards; in a section the modulator refers to, a channel with a
    modulation factor and a synapse with gaba, ampa or nmda in its name
    end with [level = 0] and with the switch [damod] at 1, the channel
    with its factor in [maxMod]; every other object keeps [damod],
    [maxMod] and [level]. *)
Theorem dopamine_reset_zeroes_level (self : Dopamine.t) (cell : MSN)
    (i j k : nat) :
  let cell' := Dopamine.reset self cell in
  let vecs := play_vectors (Dopamine.play self) in
  let kept := fun o o' : modulated =>
    obj_name o' = obj_name o /\
    level_play o' = unplay vecs (level_play o) /\
    lev2_play o' = unplay vecs (lev2_play o) /\
    modShift_play o' = unplay vecs (modShift_play o) /\
    max2 o' = max2 o /\ lev2 o' = lev2 o /\ modShift o' = modShift o in
  let untouched := fun o o' : modulated =>
    damod o' = damod o /\ maxMod o' = maxMod o /\ level o' = level o in
  type cell' = type cell /\ soma cell' = soma cell /\
  dend cell' = dend cell /\ _bg_noise cell' = _bg_noise cell /\
  length (all cell') = length (all cell) /\
  option_Forall2
    (fun o o' =>
       kept o o' /\
       match intrinsic (Dopamine.params self) !! obj_name o with
       | Some factor =>
           if bool_decide (i ∈ Dopamine._sections self)
           then damod o' = 1 /\ maxMod o' = factor /\ level o' = 0
           else untouched o o'
       | None => untouched o o'
       end)
    (mech_at (all cell) i j k) (mech_at (all cell') i j k) /\
  option_Forall2
    (fun o o' =>
       kept o o' /\
       if bool_decide (i ∈ Dopamine._sections self)
          && is_synapse_target (obj_name o)
       then damod o' = 1 /\ level o' = 0
       else untouched o o')
    (syn_at (all cell) i j k) (syn_at (all cell') i j k) /\
  forall v, v ∈ vecs ->
    option_Forall
      (fun o' => level_play o' <> Some v /\ lev2_play o' <> Some v /\
                 modShift_play o' <> Some v)
      (mech_at (all cell') i j k) /\
    option_Forall
      (fun o' => level_play o' <> Some v /\ lev2_play o' <> Some v /\
                 modShift_play o' <> Some v)
      (syn_at (all cell') i j k).
Proof.
  intros cell' vecs kept untouched.
  destruct (dopamine_reset_at self cell i j k) as [Hm Hs].
  fold cell' vecs in Hm, Hs.
  assert (Hmech :
    option_Forall2
      (fun o o' =>
         kept o o' /\
         match intrinsic (Dopamine.params self) !! obj_name o with
         | Some factor =>
             if bool_decide (i ∈ Dopamine._sections self)
             then damod o' = 1 /\ maxMod o' = factor /\ level o' = 0
             else untouched o o'
         | None => untouched o o'
         end)
      (mech_at (all cell) i j k) (mech_at (all cell') i j k)).
  { rewrite Hm. destruct (mech_at (all cell) i j k) as [o |];
      case_bool_decide; simpl; constructor.
    - pose proof (dopamine_reset_channel_values self vecs o) as H0.
      cbv zeta in H0. unfold kept, untouched.
      destruct (intrinsic _ !! _); tauto.
    - unfold kept, untouched.
      destruct (intrinsic _ !! _); split_and!; reflexivity. }
  assert (Hsyn :
    option_Forall2
      (fun o o' =>
         kept o o' /\
         if bool_decide (i ∈ Dopamine._sections self)
            && is_synapse_target (obj_name o)
         then damod o' = 1 /\ level o' = 0
         else untouched o o')
      (syn_at (all cell) i j k) (syn_at (all cell') i j k)).
  { rewrite Hs. destruct (syn_at (all cell) i j k) as [o |];
      case_bool_decide; simpl; constructor.
    - pose proof (dopamine_reset_synapse_values self vecs o) as H0.
      cbv zeta in H0. unfold kept, untouched.
      destruct (is_synapse_target _); tauto.
    - unfold kept, untouched. split_and!; reflexivity. }
  split_and!; try reflexivity; try assumption.
  - unfold cell', Dopamine.reset. simpl.
    rewrite for_segments_length.
    apply (play_remove_all_at _ _ 0%nat 0%nat 0%nat).
  - intros v Hv. split.
    + destruct Hmech as [o o' [(_ & H1 & H2 & H3 & _) _] |]; constructor.
      rewrite H1, H2, H3. split_and!; now apply unplay_not.
    + destruct Hsyn as [o o' [(_ & H1 & H2 & H3 & _) _] |]; constructor.
      rewrite H1, H2, H3. split_and!; now apply unplay_not.
Qed.

Lemma dopamine_reset_zeroes_level_witness :
  exists o',
    mech_at (all (Dopamine.reset
                    (Dopamine.Make (get_modulation_params dmsn DA (fun _ => 0))
                       ∅ 0.025 [0%nat; 1%nat])
                    (example_msn dmsn))) 0 0 0 = Some o' /\
    damod o' = 1 /\ level o' = 0.
Proof.
  pose proof (dopamine_reset_zeroes_level
                (Dopamine.Make (get_modulation_params dmsn DA (fun _ => 0))
                   ∅ 0.025 [0%nat; 1%nat])
                (example_msn dmsn) 0 0 0) as H.
  cbv zeta in H. destruct H as (_ & _ & _ & _ & _ & Hm & _).
  change (mech_at (all (example_msn dmsn)) 0 0 0)
    with (Some (fresh_obj "naf")) in Hm.
  match type of Hm with
  | option_Forall2 _ _ ?m => destruct m as [o' |] eqn:E
  end; [| inversion Hm].
  exists o'. split; [reflexivity |].
  inversion Hm as [? ? [_ Hv] |]. subst.
  change (intrinsic _ !! obj_name (fresh_obj "naf"))
    with (Some (rand_uniform 0 0.6 0.8)) in Hv.
  rewrite bool_decide_eq_true_2 in Hv by (apply elem_of_cons; now left).
  tauto.
Defined.

(** X18.  [Acetylcholine.__init__] on any cell.  With [modulate] one of
    ['all'] and ['no_axon'] it returns; the cell keeps its type, section
    lists and tracked noise; a section the modulator does not refer to is
    left as it was; in a referred section each channel has gone exactly
    once through the body of [_modulate_intrinsic] (when the flag is set)
    and then through that of [_shift_kaf] (when [shift_kaf] is not zero),
    and each synapse through the bodies of [_modulate_gaba] and
    [_modulate_glut], however often the section is referred to.  With any
    other string the constructor fails with [AttributeError]. *)
Theorem acetylcholine_init_modulates (cell : MSN) (u : nat -> R)
    (modulate : string) (bi bg bq : bool) (shift_kaf : R)
    (play : gmap string nat) (dt : R) :
  (modulate = "all" \/ modulate = "no_axon" ->
   exists self cell',
     Acetylcholine.init cell u modulate bi bg bq shift_kaf play dt
     = Ok (self, cell') /\
     Acetylcholine.params self = get_modulation_params (type cell) ACh u /\
     Acetylcholine.play self = play /\
     Acetylcholine._sections self
     = (if String.eqb modulate "all" then seq 0 (length (all cell))
        else soma cell :: dend cell) /\
     type cell' = type cell /\ soma cell' = soma cell /\
     dend cell' = dend cell /\ _bg_noise cell' = _bg_noise cell /\
     length (all cell') = length (all cell) /\
     forall i j k,
       mech_at (all cell') i j k
       = (if bool_decide (i ∈ Acetylcholine._sections self)
          then (fun o =>
                  on (negb (Reqb shift_kaf 0))
                    (acetylcholine_shift self (type cell) shift_kaf false)
                    (on bi (acetylcholine_intrinsic self false) o))
               <$> mech_at (all cell) i j k
          else mech_at (all cell) i j k) /\
       syn_at (all cell') i j k
       = (if bool_decide (i ∈ Acetylcholine._sections self)
          then (fun o => on bq (acetylcholine_glut self false)
                           (on bg (acetylcholine_gaba self false) o))
               <$> syn_at (all cell) i j k
          else syn_at (all cell) i j k)) /\
  (modulate <> "all" -> modulate <> "no_axon" ->
   Acetylcholine.init cell u modulate bi bg bq shift_kaf play dt
   = Raise AttributeError).
Proof.
  split.
  - intros Hm.
    destruct (acetylcholine_init_at cell u modulate bi bg bq shift_kaf play
                dt _ (select_sections_ok cell modulate Hm))
      as (cell' & Hi & Ht & _ & Hs & Hd & Hn & Hl & Hat).
    eexists. exists cell'. split; [exact Hi |].
    split_and!; try reflexivity; assumption.
  - intros H1 H2. unfold Acetylcholine.init.
    now rewrite select_sections_error.
Qed.

Lemma acetylcholine_init_modulates_witness :
  exists self cell' kaf,
    Acetylcholine.init (example_msn dmsn) (fun _ => 0) "all" true true true
      (-10) ∅ 0.025 = Ok (self, cell') /\
    mech_at (all cell') 0 0 1 = Some kaf /\ modShift kaf = -10.
Proof.
  destruct (proj1 (acetylcholine_init_modulates (example_msn dmsn)
                     (fun _ => 0) "all" true true true (-10) ∅ 0.025)
              (or_introl eq_refl))
    as (self & cell' & Hi & Hp & Hpl & Hs & _ & _ & _ & _ & _ & Hat).
  destruct (Hat 0%nat 0%nat 1%nat) as [H0 _].
  rewrite Hs in H0. simpl in H0.
  assert (Hz : Reqb (-10) 0 = false) by (apply Reqb_false; lra).
  rewrite Hz in H0.
  assert (E : on (negb false)
                (acetylcholine_shift self dmsn (-10) false)
                (acetylcholine_intrinsic self false (fresh_obj "kaf"))
              = Modulated "kaf" 0 0 0 0 0 (-10) None None None).
  { unfold on, acetylcholine_shift, acetylcholine_intrinsic, shift_channel.
    rewrite Hp, Hpl. reflexivity. }
  rewrite E in H0.
  exists self, cell'. eexists.
  split; [exact Hi |]. split; [exact H0 | reflexivity].
Defined.

(** What the kaf shift of the constructor does to a channel. *)
Lemma acetylcholine_shift_values (self : Acetylcholine.t) (t : cell_type)
    (by_mV : R) (o : modulated) :
  let o' := acetylcholine_shift self t by_mV false o in
  same_dopamine_variables o o' /\
  damod o' = damod o /\ max2 o' = max2 o /\ lev2 o' = lev2 o /\
  lev2_play o' = lev2_play o /\
  if match t with dmsn => String.eqb (obj_name o) "kaf" | imsn => false end
  then match played (Acetylcholine.play self) "kaf" with
       | Some vec => modShift_play o' = Some vec /\ modShift o' = modShift o
       | None => modShift o' = by_mV /\ modShift_play o' = modShift_play o
       end
  else modShift o' = modShift o /\ modShift_play o' = modShift_play o.
Proof.
  unfold acetylcholine_shift, shift_channel, same_dopamine_variables.
  destruct t; [| split_and!; reflexivity].
  destruct (String.eqb _ _); [| split_and!; reflexivity].
  destruct (played _ _); split_and!; reflexivity.
Qed.

(** A constructor that returned has selected its sections. *)
Lemma dopamine_init_inv (cell : MSN) (u : nat -> R) (modulate : string)
    (bi bg bq : bool) (play : gmap string nat) (dt : R)
    (self : Dopamine.t) (cell' : MSN) :
  Dopamine.init cell u modulate bi bg bq play dt = Ok (self, cell') ->
  Dopamine.params self = get_modulation_params (type cell) DA u /\
  Dopamine.play self = play /\
  forall i j k,
    mech_at (all cell') i j k
    = (if bool_decide (i ∈ Dopamine._sections self)
       then on bi (dopamine_intrinsic self false) <$> mech_at (all cell) i j k
       else mech_at (all cell) i j k) /\
    syn_at (all cell') i j k
    = (if bool_decide (i ∈ Dopamine._sections self)
       then (fun o => on bq (dopamine_glut self false)
                        (on bg (dopamine_gaba self false) o))
            <$> syn_at (all cell) i j k
       else syn_at (all cell) i j k).
Proof.
  intros H.
  destruct (select_sections cell modulate) as [sections | e] eqn:Hsel;
    [| unfold Dopamine.init in H; rewrite Hsel in H; discriminate].
  destruct (dopamine_init_at cell u modulate bi bg bq play dt sections Hsel)
    as (cell'' & Hi & _ & _ & _ & _ & _ & _ & Hat).
  rewrite Hi in H. injection H as <- <-.
  split; [reflexivity |]. split; [reflexivity |]. exact Hat.
Qed.

Lemma acetylcholine_init_inv (cell : MSN) (u : nat -> R) (modulate : string)
    (bi bg bq : bool) (shift_kaf : R) (play : gmap string nat) (dt : R)
    (self : Acetylcholine.t) (cell' : MSN) :
  Acetylcholine.init cell u modulate bi bg bq shift_kaf play dt
  = Ok (self, cell') ->
  Acetylcholine.params self = get_modulation_params (type cell) ACh u /\
  Acetylcholine.play self = play /\
  forall i j k,
    mech_at (all cell') i j k
    = (if bool_decide (i ∈ Acetylcholine._sections self)
       then (fun o => on (negb (Reqb shift_kaf 0))
                        (acetylcholine_shift self (type cell) shift_kaf false)
                        (on bi (acetylcholine_intrinsic self false) o))
            <$> mech_at (all cell) i j k
       else mech_at (all cell) i j k) /\
    syn_at (all cell') i j k
    = (if bool_decide (i ∈ Acetylcholine._sections self)
       then (fun o => on bq (acetylcholine_glut self false)
                        (on bg (acetylcholine_gaba self false) o))
            <$> syn_at (all cell) i j k
       else syn_at (all cell) i j k).
Proof.
  intros H.
  destruct (select_sections cell modulate) as [sections | e] eqn:Hsel;
    [| unfold Acetylcholine.init in H; rewrite Hsel in H; discriminate].
  destruct (acetylcholine_init_at cell u modulate bi bg bq shift_kaf play dt
              sections Hsel)
    as (cell'' & Hi & _ & _ & _ & _ & _ & _ & Hat).
  rewrite Hi in H. injection H as <- <-.
  split; [reflexivity |]. split; [reflexivity |]. exact Hat.
Qed.

(** The acetylcholine factors have no entry for the A-type potassium
    channel, whatever the samples. *)
Lemma acetylcholine_no_kaf_factor (t : cell_type) (u : nat -> R) :
  intrinsic (get_modulation_params t ACh u) !! "kaf" = None.
Proof. destruct t; reflexivity. Qed.

(** X19.  The shift of the A-type potassium channel by
    [Acetylcholine.__init__].  Only in a dMSN, only with a shift that is
    not zero, and only on the channels named [kaf] of the sections the
    modulator refers to, [modShift] becomes [shift_kaf], or is driven by
    the vector played for [kaf]; such a channel keeps its switch [damod]
    and its [max2] and [lev2], since the acetylcholine factors have no
    entry for it.  Every other channel keeps [modShift] and what drives
    it. *)
Theorem kaf_shift_only_in_dmsn (cell : MSN) (u : nat -> R)
    (modulate : string) (bi bg bq : bool) (shift_kaf : R)
    (play : gmap string nat) (dt : R) (self : Acetylcholine.t)
    (cell' : MSN) (i j k : nat) :
  Acetylcholine.init cell u modulate bi bg bq shift_kaf play dt
  = Ok (self, cell') ->
  option_Forall2
    (fun o o' =>
       if match type cell with dmsn => true | imsn => false end
          && negb (Reqb shift_kaf 0)
          && bool_decide (i ∈ Acetylcholine._sections self)
          && String.eqb (obj_name o) "kaf"
       then match played play "kaf" with
            | Some vec =>
                modShift_play o' = Some vec /\ modShift o' = modShift o
            | None =>
                modShift o' = shift_kaf /\
                modShift_play o' = modShift_play o
            end /\
            damod o' = damod o /\ max2 o' = max2 o /\ lev2 o' = lev2 o /\
            lev2_play o' = lev2_play o
       else modShift o' = modShift o /\ modShift_play o' = modShift_play o)
    (mech_at (all cell) i j k) (mech_at (all cell') i j k).
Proof.
  intros H.
  destruct (acetylcholine_init_inv _ _ _ _ _ _ _ _ _ _ _ H)
    as (Hp & Hpl & Hat).
  destruct (Hat i j k) as [-> _].
  destruct (mech_at (all cell) i j k) as [o |];
    case_bool_decide; simpl; constructor;
    rewrite ?andb_false_r; simpl; try (split; reflexivity).
  destruct (String.eqb (obj_name o) "kaf") eqn:Ek.
  - apply String.eqb_eq in Ek.
    assert (Hi : acetylcholine_intrinsic self false o = o).
    { unfold acetylcholine_intrinsic.
      now rewrite Ek, Hp, acetylcholine_no_kaf_factor. }
    assert (Hi' : on bi (acetylcholine_intrinsic self false) o = o)
      by (destruct bi; [exact Hi | reflexivity]).
    rewrite Hi'.
    pose proof (acetylcholine_shift_values self (type cell) shift_kaf o)
      as Hv.
    cbv zeta in Hv. rewrite Ek, Hpl in Hv.
    destruct (type cell), (Reqb shift_kaf 0); simpl in *;
      try (split; reflexivity); tauto.
  - rewrite andb_false_r.
    assert (Hs : forall x, obj_name x = obj_name o ->
              acetylcholine_shift self (type cell) shift_kaf false x = x).
    { intros x Hx. unfold acetylcholine_shift. rewrite Hx, Ek.
      now destruct (type cell). }
    assert (Hn : obj_name (on bi (acetylcholine_intrinsic self false) o)
                 = obj_name o)
      by (apply on_name; intros; apply acetylcholine_intrinsic_name).
    assert (Hshift : on (negb (Reqb shift_kaf 0))
               (acetylcholine_shift self (type cell) shift_kaf false)
               (on bi (acetylcholine_intrinsic self false) o)
             = on bi (acetylcholine_intrinsic self false) o).
    { unfold on at 1. destruct (negb _); [now apply Hs | reflexivity]. }
    rewrite Hshift. unfold on, acetylcholine_intrinsic, acetylcholine_channel.
    destruct bi; [| split; reflexivity].
    destruct (intrinsic _ !! _); [| split; reflexivity].
    destruct (played _ _); split; reflexivity.
Qed.

Lemma kaf_shift_only_in_dmsn_witness :
  exists self cell' kaf naf,
    Acetylcholine.init (example_msn dmsn) (fun _ => 0) "all" true true true
      (-10) ∅ 0.025 = Ok (self, cell') /\
    mech_at (all cell') 0 0 1 = Some kaf /\ modShift kaf = -10 /\
    damod kaf = 0 /\
    mech_at (all cell') 0 0 0 = Some naf /\ modShift naf = 0.
Proof.
  destruct (acetylcholine_init_at (example_msn dmsn) (fun _ => 0)
              "all" true true true (-10) ∅ 0.025 _ eq_refl)
    as (cell' & Hi & _).
  pose proof (kaf_shift_only_in_dmsn _ _ _ _ _ _ _ _ _ _ _ 0 0 1 Hi) as Hk.
  pose proof (kaf_shift_only_in_dmsn _ _ _ _ _ _ _ _ _ _ _ 0 0 0 Hi) as Hn.
  assert (Hz : Reqb (-10) 0 = false) by (apply Reqb_false; lra).
  change (mech_at (all (example_msn dmsn)) 0 0 1)
    with (Some (fresh_obj "kaf")) in Hk.
  change (mech_at (all (example_msn dmsn)) 0 0 0)
    with (Some (fresh_obj "naf")) in Hn.
  destruct (mech_at (all cell') 0 0 1) as [kaf |] eqn:Ek; [| inversion Hk].
  destruct (mech_at (all cell') 0 0 0) as [naf |] eqn:En; [| inversion Hn].
  inversion Hk as [? ? Hk' |]. inversion Hn as [? ? Hn' |]. subst.
  rewrite Hz in Hk', Hn'. simpl in Hk', Hn'.
  change (played ∅ "kaf") with (@None nat) in Hk'.
  eexists. exists cell', kaf, naf.
  split; [exact Hi |]. split; [exact Ek |].
  split; [tauto |]. split; [tauto |]. split; [exact En | tauto].
Defined.

(** X20.  [Acetylcholine.reset(what)] on any cell.  A [what] outside
    ['all'], ['gaba'], ['glut'], ['intrinsic'] raises [ValueError].
    Otherwise the method returns and the cell keeps its type, section
    lists and tracked noise; whatever [what] is, every object of the cell
    is first let go of by every vector of [play]; then, in the sections the
    modulator refers to, the channels go once through the reset bodies of
    [_modulate_intrinsic] and [_shift_kaf] when [what] is ['all'] or
    ['intrinsic'], and the synapses through those of [_modulate_glut] and
    [_modulate_gaba] when [what] is ['all'] or names them; nothing else is
    assigned. *)
Theorem acetylcholine_reset_scope (self : Acetylcholine.t) (cell : MSN)
    (what : string) :
  (what <> "all" -> what <> "gaba" -> what <> "glut" ->
   what <> "intrinsic" ->
   Acetylcholine.reset self cell what = Raise ValueError) /\
  (what = "all" \/ what = "gaba" \/ what = "glut" \/ what = "intrinsic" ->
   let vecs := play_vectors (Acetylcholine.play self) in
   let is_ := fun s => String.eqb what "all" || String.eqb what s in
   exists cell',
     Acetylcholine.reset self cell what = Ok cell' /\
     type cell' = type cell /\ soma cell' = soma cell /\
     dend cell' = dend cell /\ _bg_noise cell' = _bg_noise cell /\
     length (all cell') = length (all cell) /\
     forall i j k,
       mech_at (all cell') i j k
       = (if bool_decide (i ∈ Acetylcholine._sections self)
             && is_ "intrinsic"
          then (fun o => acetylcholine_shift self (type cell) (-10) true
                           (acetylcholine_intrinsic self true
                              (unplay_obj vecs o)))
               <$> mech_at (all cell) i j k
          else unplay_obj vecs <$> mech_at (all cell) i j k) /\
       syn_at (all cell') i j k
       = (if bool_decide (i ∈ Acetylcholine._sections self)
          then (fun o => on (is_ "gaba") (acetylcholine_gaba self true)
                           (on (is_ "glut") (acetylcholine_glut self true)
                              (unplay_obj vecs o)))
               <$> syn_at (all cell) i j k
          else unplay_obj vecs <$> syn_at (all cell) i j k)).
Proof.
  split.
  - intros H1 H2 H3 H4. unfold Acetylcholine.reset.
    apply String.eqb_neq in H1, H2, H3, H4. now rewrite H1, H2, H3, H4.
  - intros Hw vecs is_.
    destruct (Acetylcholine.reset self cell what) as [cell' | e] eqn:Hr.
    + exists cell'. split; [reflexivity |].
      assert (Hf : type cell' = type cell /\ soma cell' = soma cell /\
                   dend cell' = dend cell /\
                   _bg_noise cell' = _bg_noise cell /\
                   length (all cell') = length (all cell)).
      { unfold Acetylcholine.reset in Hr.
        destruct (_ || _); [| discriminate]. injection Hr as <-. simpl.
        split_and!; try reflexivity.
        rewrite for_segments_length.
        apply (play_remove_all_at _ _ 0%nat 0%nat 0%nat). }
      destruct Hf as (? & ? & ? & ? & ?). split_and!; try assumption.
      intros i j k.
      destruct (acetylcholine_reset_at self cell cell' what i j k Hr)
        as [Hm Hs].
      fold vecs in Hm, Hs. rewrite Hm, Hs. split; [| reflexivity].
      fold (is_ "intrinsic"). case_bool_decide; [| reflexivity].
      destruct (is_ "intrinsic"); simpl; reflexivity.
    + exfalso. unfold Acetylcholine.reset in Hr.
      destruct Hw as [-> | [-> | [-> | ->]]]; discriminate.
Qed.

Lemma acetylcholine_reset_scope_witness :
  exists cell',
    Acetylcholine.reset
      (Acetylcholine.Make (get_modulation_params imsn ACh (fun _ => 0))
         ∅ 0.025 [0%nat])
      (example_msn imsn) "gaba" = Ok cell' /\
    mech_at (all cell') 0 0 0 = Some (fresh_obj "naf") /\
    Acetylcholine.reset
      (Acetylcholine.Make (get_modulation_params imsn ACh (fun _ => 0))
         ∅ 0.025 [0%nat])
      (example_msn imsn) "synaptic" = Raise ValueError.
Proof.
  destruct (proj2 (acetylcholine_reset_scope
                     (Acetylcholine.Make
                        (get_modulation_params imsn ACh (fun _ => 0))
                        ∅ 0.025 [0%nat])
                     (example_msn imsn) "gaba")
              (or_intror (or_introl eq_refl)))
    as (cell' & Hr & _ & _ & _ & _ & _ & Hat).
  destruct (Hat 0%nat 0%nat 0%nat) as [Hm _].
  exists cell'. split; [exact Hr |]. split; [exact Hm |].
  apply (proj1 (acetylcholine_reset_scope _ _ "synaptic")); discriminate.
Defined.

(** What an acetylcholine reset does to a channel and to a synapse. *)
Lemma acetylcholine_reset_channel_values (self : Acetylcholine.t) (t : cell_type)
    (vecs : list nat) (o : modulated) :
  let o' := acetylcholine_shift self t (-10) true
              (acetylcholine_intrinsic self true (unplay_obj vecs o)) in
  let is_kaf := match t with
                | dmsn => String.eqb (obj_name o) "kaf"
                | imsn => false
                end in
  obj_name o' = obj_name o /\
  maxMod o' = maxMod o /\ level o' = level o /\
  level_play o' = unplay vecs (level_play o) /\
  modShift_play o' = unplay vecs (modShift_play o) /\
  modShift o' = (if is_kaf then 0 else modShift o) /\
  match intrinsic (Acetylcholine.params self) !! obj_name o with
  | Some factor =>
      damod o' = 0 /\ max2 o' = factor /\
      match played (Acetylcholine.play self) (obj_name o) with
      | Some vec => lev2_play o' = Some vec /\ lev2 o' = 0
      | None => lev2 o' = 1 /\ lev2_play o' = unplay vecs (lev2_play o)
      end
  | None =>
      damod o' = (if is_kaf then 0 else damod o) /\
      max2 o' = max2 o /\ lev2 o' = lev2 o /\
      lev2_play o' = unplay vecs (lev2_play o)
  end.
Proof.
  cbv zeta.
  destruct (intrinsic (Acetylcholine.params self) !! obj_name o) eqn:E;
    destruct (String.eqb (obj_name o) "kaf") eqn:Ek;
    destruct t; run_bodies;
    unfold shift_channel, acetylcholine_channel;
    destruct (played (Acetylcholine.play self) (obj_name o));
    simpl; split_and!; reflexivity.
Qed.

Lemma acetylcholine_reset_synapse_values (self : Acetylcholine.t) (bg bq : bool)
    (vecs : list nat) (o : modulated) :
  let o' := on bg (acetylcholine_gaba self true)
              (on bq (acetylcholine_glut self true) (unplay_obj vecs o)) in
  obj_name o' = obj_name o /\
  maxMod o' = maxMod o /\ level o' = level o /\
  level_play o' = unplay vecs (level_play o) /\
  lev2_play o' = unplay vecs (lev2_play o) /\
  modShift_play o' = unplay vecs (modShift_play o) /\
  modShift o' = modShift o /\
  if bg && str_in "gaba" (obj_name o)
     || bq && (str_in "ampa" (obj_name o) || str_in "nmda" (obj_name o))
  then damod o' = 0 /\ lev2 o' = 0
  else damod o' = damod o /\ max2 o' = max2 o /\ lev2 o' = lev2 o.
Proof.
  cbv zeta.
  destruct (str_in "gaba" (obj_name o)) eqn:Eg;
    destruct (str_in "ampa" (obj_name o)) eqn:Ea;
    destruct (str_in "nmda" (obj_name o)) eqn:En;
    destruct bg, bq; unfold on; run_bodies;
    unfold Acetylcholine.modulate_syn; simpl; split_and!; reflexivity.
Qed.

(** X21.  What [Acetylcholine.reset] leaves in a section the modulator
    refers to.  A synapse in the scope of the reset ends switched off,
    [damod = 0] and [lev2 = 0], with neither [level] nor [lev2] driven
    by a vector of [play].  A
    channel with a modulation factor, under ['all'] or ['intrinsic'],
    ends with [damod = 0] too, but not with [lev2 = 0]: the method goes
    on after the reset branch, so that [lev2] is 1 again, or, when a
    vector is played for the channel, that vector drives [lev2] again
    although the reset had just removed it.  In a dMSN the channel [kaf]
    ends with [damod = 0] and [modShift = 0].  The variables of the
    dopamine modulation, [maxMod] and [level], are never assigned. *)
Theorem acetylcholine_reset_values (self : Acetylcholine.t)
    (cell cell' : MSN) (what : string) (i j k : nat) :
  Acetylcholine.reset self cell what = Ok cell' ->
  i ∈ Acetylcholine._sections self ->
  let vecs := play_vectors (Acetylcholine.play self) in
  let is_ := fun s => String.eqb what "all" || String.eqb what s in
  (is_ "intrinsic" = true ->
   option_Forall2
     (fun o o' =>
        let is_kaf := match type cell with
                      | dmsn => String.eqb (obj_name o) "kaf"
                      | imsn => false
                      end in
        obj_name o' = obj_name o /\
        maxMod o' = maxMod o /\ level o' = level o /\
        modShift o' = (if is_kaf then 0 else modShift o) /\
        match intrinsic (Acetylcholine.params self) !! obj_name o with
        | Some factor =>
            damod o' = 0 /\ max2 o' = factor /\
            match played (Acetylcholine.play self) (obj_name o) with
            | Some vec => lev2_play o' = Some vec /\ lev2 o' = 0
            | None => lev2 o' = 1 /\ lev2_play o' = unplay vecs (lev2_play o)
            end
        | None =>
            damod o' = (if is_kaf then 0 else damod o) /\
            max2 o' = max2 o /\ lev2 o' = lev2 o
        end)
     (mech_at (all cell) i j k) (mech_at (all cell') i j k)) /\
  option_Forall2
    (fun o o' =>
       obj_name o' = obj_name o /\
       maxMod o' = maxMod o /\ level o' = level o /\
       level_play o' = unplay vecs (level_play o) /\
       lev2_play o' = unplay vecs (lev2_play o) /\
       if is_ "gaba" && str_in "gaba" (obj_name o)
          || is_ "glut" && (str_in "ampa" (obj_name o)
                            || str_in "nmda" (obj_name o))
       then damod o' = 0 /\ lev2 o' = 0
       else damod o' = damod o /\ max2 o' = max2 o /\ lev2 o' = lev2 o)
    (syn_at (all cell) i j k) (syn_at (all cell') i j k).
Proof.
  intros Hr Hi vecs is_.
  destruct (acetylcholine_reset_at self cell cell' what i j k Hr)
    as [Hm Hs].
  fold vecs in Hm, Hs.
  rewrite bool_decide_eq_true_2 in Hm, Hs by exact Hi.
  rewrite Hm, Hs. subst is_. cbv beta. split.
  - intros Hint. rewrite Hint.
    destruct (mech_at (all cell) i j k) as [o |]; simpl; constructor.
    pose proof (acetylcholine_reset_channel_values self (type cell) vecs o) as H0.
    cbv zeta in *. unfold on.
    destruct (intrinsic _ !! _); tauto.
  - destruct (syn_at (all cell) i j k) as [o |]; simpl; constructor.
    pose proof (acetylcholine_reset_synapse_values self
                  (String.eqb what "all" || String.eqb what "gaba")
                  (String.eqb what "all" || String.eqb what "glut")
                  vecs o) as H0.
    cbv zeta in H0.
    destruct (_ && _ || _); tauto.
Qed.

Lemma acetylcholine_reset_values_witness :
  let ach := Acetylcholine.Make (get_modulation_params imsn ACh (fun _ => 0))
               (<["naf" := 7%nat]> ∅) 0.025 [0%nat] in
  exists cell' naf gaba,
    Acetylcholine.reset ach (example_msn imsn) "all" = Ok cell' /\
    mech_at (all cell') 0 0 0 = Some naf /\
    damod naf = 0 /\ lev2_play naf = Some 7%nat /\
    syn_at (all cell') 0 0 0 = Some gaba /\
    damod gaba = 0 /\ lev2 gaba = 0.
Proof.
  intros ach.
  assert (H0 : (0%nat ∈ Acetylcholine._sections ach))
    by (apply elem_of_cons; now left).
  assert (Hr : Acetylcholine.reset ach (example_msn imsn) "all"
               = Ok (with_all (example_msn imsn)
                       (all (match Acetylcholine.reset ach (example_msn imsn)
                                     "all" with
                             | Ok c => c
                             | Raise _ => example_msn imsn
                             end)))) by reflexivity.
  destruct (acetylcholine_reset_values ach (example_msn imsn) _ "all" 0 0 0
              Hr H0) as [Hm Hs].
  specialize (Hm eq_refl).
  change (mech_at (all (example_msn imsn)) 0 0 0)
    with (Some (fresh_obj "naf")) in Hm.
  change (syn_at (all (example_msn imsn)) 0 0 0)
    with (Some (fresh_obj "gaba[0]")) in Hs.
  destruct (option_Forall2_Some_l _ _ _ Hm) as (naf & En & _ & _ & _ & _ & Hv).
  destruct (option_Forall2_Some_l _ _ _ Hs)
    as (gaba & Eg & _ & _ & _ & _ & _ & Hw).
  clear Hm Hs.
  change (intrinsic _ !! obj_name (fresh_obj "naf"))
    with (Some (rand_uniform 0 1 1.2)) in Hv.
  change (played _ (obj_name (fresh_obj "naf"))) with (Some 7%nat) in Hv.
  cbv beta iota in Hv.
  change (damod gaba = 0 /\ lev2 gaba = 0) in Hw.
  eexists. exists naf, gaba.
  split; [exact Hr |]. split; [exact En |].
  split; [tauto |]. split; [tauto |]. split; [exact Eg | exact Hw].
Defined.

(** *** The two modulators side by side *)

Lemma same_acetylcholine_variables_refl (o : modulated) :
  same_acetylcholine_variables o o.
Proof. unfold same_acetylcholine_variables. tauto. Qed.

Lemma same_acetylcholine_variables_trans (a b c : modulated) :
  same_acetylcholine_variables a b -> same_acetylcholine_variables b c ->
  same_acetylcholine_variables a c.
Proof.
  unfold same_acetylcholine_variables.
  intros (? & ? & ? & ? & ? & ?) (? & ? & ? & ? & ? & ?).
  split_and!; congruence.
Qed.

Lemma same_dopamine_variables_refl (o : modulated) :
  same_dopamine_variables o o.
Proof. unfold same_dopamine_variables. tauto. Qed.

Lemma same_dopamine_variables_trans (a b c : modulated) :
  same_dopamine_variables a b -> same_dopamine_variables b c ->
  same_dopamine_variables a c.
Proof.
  unfold same_dopamine_variables.
  intros (? & ? & ? & ?) (? & ? & ? & ?). split_and!; congruence.
Qed.

Lemma modulate_obj_same (self : Dopamine.t) (factor : R) (key : string)
    (reset : bool) (o : modulated) :
  same_acetylcholine_variables o
    (Dopamine.modulate_obj self factor key reset o).
Proof.
  unfold same_acetylcholine_variables, Dopamine.modulate_obj.
  destruct reset; [split_and!; reflexivity |].
  destruct (played _ _); split_and!; reflexivity.
Qed.

Lemma modulate_syn_same (self : Acetylcholine.t) (factor : R) (key : string)
    (reset : bool) (o : modulated) :
  same_dopamine_variables o
    (Acetylcholine.modulate_syn self factor key reset o).
Proof.
  unfold same_dopamine_variables, Acetylcholine.modulate_syn.
  destruct reset; [split_and!; reflexivity |].
  destruct (played _ _); split_and!; reflexivity.
Qed.

Lemma acetylcholine_channel_same (self : Acetylcholine.t) (factor : R)
    (key : string) (reset : bool) (o : modulated) :
  same_dopamine_variables o (acetylcholine_channel self factor key reset o).
Proof.
  unfold same_dopamine_variables, acetylcholine_channel.
  destruct reset; destruct (played _ _); split_and!; reflexivity.
Qed.

Lemma dopamine_channel_step_same (self : Dopamine.t) (bi : bool)
    (o : modulated) :
  same_acetylcholine_variables o (on bi (dopamine_intrinsic self false) o).
Proof.
  destruct bi; [| apply same_acetylcholine_variables_refl].
  unfold on, dopamine_intrinsic.
  destruct (intrinsic _ !! _);
    [apply modulate_obj_same | apply same_acetylcholine_variables_refl].
Qed.

Lemma dopamine_gaba_same (self : Dopamine.t) (reset : bool) (o : modulated) :
  same_acetylcholine_variables o (dopamine_gaba self reset o).
Proof.
  unfold dopamine_gaba.
  destruct (str_in _ _);
    [apply modulate_obj_same | apply same_acetylcholine_variables_refl].
Qed.

Lemma dopamine_glut_same (self : Dopamine.t) (reset : bool) (o : modulated) :
  same_acetylcholine_variables o (dopamine_glut self reset o).
Proof.
  unfold dopamine_glut.
  destruct (str_in "ampa" _); [apply modulate_obj_same |].
  destruct (str_in "nmda" _);
    [apply modulate_obj_same | apply same_acetylcholine_variables_refl].
Qed.

Lemma dopamine_synapse_step_same (self : Dopamine.t) (bg bq : bool)
    (o : modulated) :
  same_acetylcholine_variables o
    (on bq (dopamine_glut self false) (on bg (dopamine_gaba self false) o)).
Proof.
  apply (same_acetylcholine_variables_trans _
           (on bg (dopamine_gaba self false) o)).
  - destruct bg; [apply dopamine_gaba_same |
                  apply same_acetylcholine_variables_refl].
  - destruct bq; [apply dopamine_glut_same |
                  apply same_acetylcholine_variables_refl].
Qed.

Lemma acetylcholine_channel_step_same (self : Acetylcholine.t)
    (t : cell_type) (by_mV : R) (bs bi : bool) (o : modulated) :
  same_dopamine_variables o
    (on bs (acetylcholine_shift self t by_mV false)
       (on bi (acetylcholine_intrinsic self false) o)).
Proof.
  apply (same_dopamine_variables_trans _
           (on bi (acetylcholine_intrinsic self false) o)).
  - destruct bi; [| apply same_dopamine_variables_refl].
    unfold on, acetylcholine_intrinsic.
    destruct (intrinsic _ !! _);
      [apply acetylcholine_channel_same | apply same_dopamine_variables_refl].
  - destruct bs; [| apply same_dopamine_variables_refl].
    apply acetylcholine_shift_values.
Qed.

Lemma acetylcholine_synapse_step_same (self : Acetylcholine.t)
    (bg bq : bool) (o : modulated) :
  same_dopamine_variables o
    (on bq (acetylcholine_glut self false)
       (on bg (acetylcholine_gaba self false) o)).
Proof.
  apply (same_dopamine_variables_trans _
           (on bg (acetylcholine_gaba self false) o)).
  - destruct bg; [| apply same_dopamine_variables_refl].
    unfold on, acetylcholine_gaba.
    destruct (str_in _ _);
      [apply modulate_syn_same | apply same_dopamine_variables_refl].
  - destruct bq; [| apply same_dopamine_variables_refl].
    unfold on, acetylcholine_glut.
    destruct (str_in "ampa" _); [apply modulate_syn_same |].
    destruct (str_in "nmda" _);
      [apply modulate_syn_same | apply same_dopamine_variables_refl].
Qed.

Lemma pointwise_related (R : modulated -> modulated -> Prop)
    (f : modulated -> modulated) (b : bool) (before after : option modulated) :
  (forall o, R o o) -> (forall o, R o (f o)) ->
  after = (if b then f <$> before else before) ->
  option_Forall2 R before after.
Proof.
  intros Hrefl Hf ->. destruct before as [o |], b; simpl; constructor; auto.
Qed.

(** X22.  The two modulators do not disturb each other's variables.
    [Dopamine.__init__] changes no name and leaves [max2], [lev2] and
    [modShift] of every channel and synapse of the cell, and what drives
    them, as they were; [Acetylcholine.__init__] changes no name and
    leaves [maxMod] and [level], and what drives [level], as they were.
    After either, a position of the cell holds a channel, or a synapse,
    exactly when it did before. *)
Theorem modulators_keep_each_others_variables (cell : MSN) (u : nat -> R)
    (modulate : string) (bi bg bq : bool) (shift_kaf : R)
    (play : gmap string nat) (dt : R) (cell' : MSN) (i j k : nat) :
  (forall da,
     Dopamine.init cell u modulate bi bg bq play dt = Ok (da, cell') ->
     option_Forall2 same_acetylcholine_variables
       (mech_at (all cell) i j k) (mech_at (all cell') i j k) /\
     option_Forall2 same_acetylcholine_variables
       (syn_at (all cell) i j k) (syn_at (all cell') i j k)) /\
  (forall ach,
     Acetylcholine.init cell u modulate bi bg bq shift_kaf play dt
     = Ok (ach, cell') ->
     option_Forall2 same_dopamine_variables
       (mech_at (all cell) i j k) (mech_at (all cell') i j k) /\
     option_Forall2 same_dopamine_variables
       (syn_at (all cell) i j k) (syn_at (all cell') i j k)).
Proof.
  split.
  - intros da H.
    destruct (dopamine_init_inv _ _ _ _ _ _ _ _ _ _ H) as (_ & _ & Hat).
    destruct (Hat i j k) as [Hm Hs]. split.
    + eapply pointwise_related; [| | exact Hm].
      * apply same_acetylcholine_variables_refl.
      * apply dopamine_channel_step_same.
    + eapply pointwise_related; [| | exact Hs].
      * apply same_acetylcholine_variables_refl.
      * intros o. apply dopamine_synapse_step_same.
  - intros ach H.
    destruct (acetylcholine_init_inv _ _ _ _ _ _ _ _ _ _ _ H)
      as (_ & _ & Hat).
    destruct (Hat i j k) as [Hm Hs]. split.
    + eapply pointwise_related; [| | exact Hm].
      * apply same_dopamine_variables_refl.
      * intros o. apply acetylcholine_channel_step_same.
    + eapply pointwise_related; [| | exact Hs].
      * apply same_dopamine_variables_refl.
      * intros o. apply acetylcholine_synapse_step_same.
Qed.

Lemma modulators_keep_each_others_variables_witness :
  exists da cell' naf,
    Dopamine.init (example_msn imsn) (fun _ => 1) "all" true true true ∅ 0.025
    = Ok (da, cell') /\
    mech_at (all cell') 0 0 0 = Some naf /\
    max2 naf = 0 /\ lev2 naf = 0 /\ modShift naf = 0.
Proof.
  destruct (dopamine_init_at (example_msn imsn) (fun _ => 1) "all"
              true true true ∅ 0.025 _ eq_refl) as (cell' & Hi & _).
  destruct (proj1 (modulators_keep_each_others_variables
                     (example_msn imsn) (fun _ => 1) "all" true true true 0
                     ∅ 0.025 cell' 0 0 0) _ Hi) as [Hm _].
  change (mech_at (all (example_msn imsn)) 0 0 0)
    with (Some (fresh_obj "naf")) in Hm.
  destruct (option_Forall2_Some_l _ _ _ Hm)
    as (naf & En & _ & H1 & H2 & H3 & _).
  eexists. exists cell', naf.
  split; [exact Hi |]. split; [exact En |]. auto.
Defined.

(** *** The modulation factors *)

Lemma rand_uniform_range (u lo hi : R) :
  0 <= u <= 1 -> lo <= hi -> lo <= rand_uniform u lo hi <= hi.
Proof. unfold rand_uniform. intros Hu Hl. split; nra. Qed.

Ltac factor_cases H :=
  repeat (apply elem_of_cons in H as [H | H];
          [injection H as -> -> |]);
  [.. | now apply elem_of_nil in H].

(** X23.  The factors of [get_modulation_params].  For either cell type
    and either transmitter, and whatever the random draws (each between 0
    and 1, as fractions of their intervals), every intrinsic factor lies
    between 0 and 2 and every synaptic factor between 0.7 and 1.3: no
    modulation reverses the sign of a conductance or more than doubles
    it.  Dopamine has no factor for the M-current [km]; acetylcholine has
    none for [kaf], [kas] and [car]. *)
Theorem modulation_factors_in_range (t : cell_type) (nt : neurotransmitter)
    (u : nat -> R) :
  (forall n, 0 <= u n <= 1) ->
  let m := get_modulation_params t nt u in
  (forall key factor, intrinsic m !! key = Some factor -> 0 <= factor <= 2) /\
  0.7 <= synaptic_AMPA m <= 1.3 /\
  0.7 <= synaptic_NMDA m <= 1.3 /\
  0.7 <= synaptic_GABA m <= 1.3 /\
  match nt with
  | DA => intrinsic m !! "km" = None
  | ACh => intrinsic m !! "kaf" = None /\ intrinsic m !! "kas" = None /\
           intrinsic m !! "car" = None
  end.
Proof.
  intros Hu m. split.
  - intros key factor H. subst m.
    destruct t, nt; unfold get_modulation_params, intrinsic in H;
      apply elem_of_list_to_map_2 in H; factor_cases H;
      match goal with
      | |- _ <= rand_uniform ?x ?lo ?hi <= _ =>
          pose proof (rand_uniform_range x lo hi (Hu _) ltac:(lra)); lra
      end.
  - subst m. destruct t, nt; simpl;
      repeat match goal with
      | |- context [rand_uniform (u ?n) ?lo ?hi] =>
          let H := fresh "R" in
          assert (H : lo <= rand_uniform (u n) lo hi <= hi)
            by (apply rand_uniform_range; [apply Hu | lra]);
          generalize dependent (rand_uniform (u n) lo hi); intros
      end;
      split_and!; try lra; reflexivity.
Qed.

Lemma modulation_factors_in_range_witness :
  0 <= rand_uniform 0.5 0.6 0.8 <= 2.
Proof.
  destruct (modulation_factors_in_range dmsn DA (fun _ => 0.5)) as [H _].
  { intros _. lra. }
  apply (H "naf"). reflexivity.
Defined.

(** ** Spike detection ([msn/instrumentation.py]) *)

Lemma is_upstroke_length (a : list bool) :
  length (ActionPotentials.is_upstroke a) = (length a - 1)%nat.
Proof.
  induction a as [| a0 rest IH]; [reflexivity |].
  destruct rest as [| a1 rest]; [reflexivity |].
  change (ActionPotentials.is_upstroke (a0 :: a1 :: rest))
    with ((negb a0 && a1) :: ActionPotentials.is_upstroke (a1 :: rest)).
  simpl length in *. lia.
Qed.

Lemma is_upstroke_lookup (a : list bool) (i : nat) :
  ActionPotentials.is_upstroke a !! i = Some true <->
  a !! i = Some false /\ a !! S i = Some true.
Proof.
  revert i. induction a as [| a0 rest IH]; intros i.
  - simpl. split; [discriminate | intros [H _]; discriminate].
  - destruct rest as [| a1 rest].
    + simpl. split; [discriminate |]. intros [_ H]. discriminate.
    + change (ActionPotentials.is_upstroke (a0 :: a1 :: rest))
        with ((negb a0 && a1) :: ActionPotentials.is_upstroke (a1 :: rest)).
      destruct i as [| i].
      * simpl. destruct a0, a1; simpl; split; try discriminate;
          try tauto; intros [H1 H2]; discriminate.
      * change (((negb a0 && a1)
                 :: ActionPotentials.is_upstroke (a1 :: rest)) !! S i)
          with (ActionPotentials.is_upstroke (a1 :: rest) !! i).
        rewrite IH. reflexivity.
Qed.

Lemma select_elem {A : Type} (l : list A) (mask : list bool) (t : A) :
  t ∈ ActionPotentials.select l mask <->
  exists i, l !! i = Some t /\ mask !! i = Some true.
Proof.
  revert mask. induction l as [| a l IH]; intros mask.
  - simpl. split; [intros H; now apply elem_of_nil in H |].
    intros (i & H & _). discriminate.
  - destruct mask as [| b mask].
    + simpl. split; [intros H; now apply elem_of_nil in H |].
      intros (i & _ & H). discriminate.
    + simpl. destruct b.
      * rewrite elem_of_cons, IH. split.
        -- intros [-> | (i & H1 & H2)]; [now exists 0%nat |].
           now exists (S i).
        -- intros ([| i] & H1 & H2); simpl in *.
           ++ left. congruence.
           ++ right. now exists i.
      * rewrite IH. split.
        -- intros (i & H1 & H2). now exists (S i).
        -- intros ([| i] & H1 & H2); simpl in *; [discriminate |].
           now exists i.
Qed.

Lemma select_sublist {A : Type} (l : list A) (mask : list bool) :
  sublist (ActionPotentials.select l mask) l.
Proof.
  revert mask. induction l as [| a l IH]; intros mask.
  - simpl. constructor.
  - destruct mask as [| b mask]; simpl.
    + apply sublist_nil_l.
    + destruct b; [apply sublist_skip | apply sublist_cons]; apply IH.
Qed.

Lemma select_length {A : Type} (l : list A) (mask : list bool) :
  length l = length mask ->
  length (ActionPotentials.select l mask) = ActionPotentials.sum mask.
Proof.
  revert mask. induction l as [| a l IH]; intros [| b mask] H;
    try discriminate; [reflexivity |].
  injection H as H. unfold ActionPotentials.sum in *. simpl.
  destruct b; simpl; now rewrite IH.
Qed.

(** Two upstrokes never share a sample: a run of [n] samples has at most
    [n / 2] of them. *)
Lemma upstroke_count (a : list bool) :
  (2 * ActionPotentials.sum (ActionPotentials.is_upstroke a)
   + (if head a is Some true then 1 else 0) <= length a)%nat.
Proof.
  induction a as [| a0 rest IH]; [simpl; lia |].
  destruct rest as [| a1 rest]; [destruct a0; simpl; lia |].
  change (ActionPotentials.is_upstroke (a0 :: a1 :: rest))
    with ((negb a0 && a1) :: ActionPotentials.is_upstroke (a1 :: rest)).
  unfold ActionPotentials.sum in *.
  destruct a0, a1; simpl in *; lia.
Qed.

(** X24.  What [ActionPotentials] reports.  For a time vector and a
    voltage vector of the same length the detection returns; the number
    of spikes is the number of timestamps; a time is reported exactly
    when it is the time of a sample at or below the threshold whose next
    sample is above it, so that a trace that starts above the threshold
    has no spike for that start; the timestamps come in the order of the
    time vector; and there are at most half as many spikes as samples. *)
Theorem spikes_are_upward_crossings (x y : list R) (threshold : R) :
  length x = length y ->
  exists timestamps,
    ActionPotentials._get_action_potentials x y threshold
    = Ok (length timestamps, timestamps) /\
    (forall t, t ∈ timestamps <->
       exists i yi yj,
         x !! i = Some t /\ y !! i = Some yi /\ y !! S i = Some yj /\
         yi <= threshold < yj) /\
    sublist timestamps x /\
    (2 * length timestamps <= length y)%nat.
Proof.
  intros Hlen. unfold ActionPotentials._get_action_potentials.
  set (up := ActionPotentials.is_upstroke
               (ActionPotentials.is_above_threshold threshold y)).
  assert (Hup : length up = (length y - 1)%nat).
  { unfold up. rewrite is_upstroke_length.
    unfold ActionPotentials.is_above_threshold. now rewrite length_fmap. }
  assert (Hx : length (take (length x - 1) x) = length up).
  { rewrite length_take, Hup. lia. }
  unfold ActionPotentials.bool_index.
  rewrite bool_decide_eq_true_2 by exact Hx. simpl.
  rewrite <- (select_length _ _ Hx).
  eexists. split; [reflexivity |].
  split; [| split].
  - intros t. rewrite select_elem. unfold up.
    split.
    + intros (i & Hi & Hm). apply is_upstroke_lookup in Hm as [H0 H1].
      unfold ActionPotentials.is_above_threshold in H0, H1.
      rewrite list_lookup_fmap in H0, H1.
      destruct (y !! i) as [yi |] eqn:Ei; [| discriminate].
      destruct (y !! S i) as [yj |] eqn:Ej; [| discriminate].
      simpl in H0, H1. injection H0 as H0. injection H1 as H1.
      apply Rltb_true in H1.
      assert (~ threshold < yi) by (intros Hc; apply Rltb_true in Hc;
                                    congruence).
      apply lookup_take_Some in Hi as [Hi _].
      exists i, yi, yj. repeat split; try assumption; lra.
    + intros (i & yi & yj & Hi & Ei & Ej & Hle & Hlt).
      exists i. split.
      * apply lookup_take_Some. split; [exact Hi |].
        apply lookup_lt_Some in Ej. lia.
      * apply is_upstroke_lookup.
        unfold ActionPotentials.is_above_threshold.
        rewrite !list_lookup_fmap, Ei, Ej. simpl.
        apply Rltb_true in Hlt. rewrite Hlt. split; [| reflexivity].
        destruct (Rltb threshold yi) eqn:Hc; [| reflexivity].
        apply Rltb_true in Hc. lra.
  - etrans; [apply select_sublist | apply sublist_take].
  - rewrite (select_length _ _ Hx). unfold up.
    pose proof (upstroke_count
                  (ActionPotentials.is_above_threshold threshold y)) as Hc.
    unfold ActionPotentials.is_above_threshold in Hc at 3.
    rewrite length_fmap in Hc. lia.
Qed.

Lemma spikes_are_upward_crossings_witness :
  exists timestamps,
    ActionPotentials._get_action_potentials
      [0; 1; 2; 3; 4] [-70; 20; -60; 0; 30] 0
    = Ok (length timestamps, timestamps) /\
    (1 ∈ timestamps -> False) /\ 3 ∈ timestamps.
Proof.
  destruct (spikes_are_upward_crossings
              [0; 1; 2; 3; 4] [-70; 20; -60; 0; 30] 0 eq_refl)
    as (ts & Hr & Hts & _).
  exists ts. split; [exact Hr |]. split.
  - intros H1. apply Hts in H1 as (i & yi & yj & Hi & Ei & Ej & Hy).
    destruct i as [| [| [| [| [| i]]]]]; simpl in *;
      try discriminate;
      apply (inj Some) in Hi; apply (inj Some) in Ei;
      apply (inj Some) in Ej; lra.
  - apply Hts. exists 3%nat, 0, 30. repeat split; simpl; lra.
Defined.

(** X25.  When the detection fails.  Building an [ActionPotentials], or
    assigning its threshold, raises [IndexError] exactly when the two
    vectors, each without its last sample, differ in length; otherwise
    the object is built, and assigning a threshold amounts to building
    it anew from the same vectors. *)
Theorem detection_needs_matching_vectors (x y : list R) (threshold : R) :
  ((length x - 1)%nat <> (length y - 1)%nat ->
   ActionPotentials.init x y threshold = Raise IndexError) /\
  ((length x - 1)%nat = (length y - 1)%nat ->
   exists self,
     ActionPotentials.init x y threshold = Ok self /\
     ActionPotentials._x self = x /\ ActionPotentials._y self = y /\
     ActionPotentials._threshold self = threshold /\
     ActionPotentials._n_spikes self
     = length (ActionPotentials._timestamps self) /\
     forall value,
       ActionPotentials.set_threshold self value
       = ActionPotentials.init x y value).
Proof.
  unfold ActionPotentials.init, ActionPotentials._get_action_potentials,
    ActionPotentials.bool_index.
  assert (Hl : length (take (length x - 1) x) = (length x - 1)%nat)
    by (rewrite length_take; lia).
  assert (Hup : forall thr,
            length (ActionPotentials.is_upstroke
                      (ActionPotentials.is_above_threshold thr y))
            = (length y - 1)%nat).
  { intros thr. rewrite is_upstroke_length.
    unfold ActionPotentials.is_above_threshold. now rewrite length_fmap. }
  split; intros H.
  - rewrite bool_decide_eq_false_2; [reflexivity |].
    rewrite Hl, Hup. exact H.
  - rewrite bool_decide_eq_true_2 by (rewrite Hl, Hup; exact H).
    simpl. eexists. split; [reflexivity |]. simpl.
    split_and!; try reflexivity.
    symmetry. apply select_length. now rewrite Hl, Hup.
Qed.

Lemma detection_needs_matching_vectors_witness :
  ActionPotentials.init [0; 1; 2] [-70; 20] 0 = Raise IndexError /\
  exists self, ActionPotentials.init [0; 1] [-70; 20] 0 = Ok self /\
               ActionPotentials._n_spikes self
               = length (ActionPotentials._timestamps self).
Proof.
  split.
  - apply (proj1 (detection_needs_matching_vectors [0; 1; 2] [-70; 20] 0)).
    simpl. lia.
  - destruct (proj2 (detection_needs_matching_vectors [0; 1] [-70; 20] 0)
                eq_refl) as (self & H & _ & _ & _ & Hn & _).
    now exists self.
Defined.

(** ** Current clamp ([msn/instrumentation.py]) *)

(** X26.  Where [Stim] puts its clamp.  For ['soma'] it is the soma of
    the cell, without a look at the section names.  For another string it
    is the first section, in the order of [cell.all], whose name contains
    the string, and the constructor raises [ValueError] exactly when no
    name contains it. *)
Theorem clamp_goes_to_first_match (cell : MSN) (section_ : string) :
  (section_ = "soma" -> Stim.clamp_section cell section_ = Ok (soma cell)) /\
  (section_ <> "soma" ->
   (forall i,
      Stim.clamp_section cell section_ = Ok i <->
      exists sec,
        all cell !! i = Some sec /\
        str_in section_ (sec_name sec) = true /\
        forall j sec', (j < i)%nat -> all cell !! j = Some sec' ->
                       str_in section_ (sec_name sec') <> true) /\
   (Stim.clamp_section cell section_ = Raise ValueError <->
    forall sec, sec ∈ all cell -> str_in section_ (sec_name sec) <> true) /\
   forall e, Stim.clamp_section cell section_ = Raise e -> e = ValueError).
Proof.
  unfold Stim.clamp_section. split.
  - intros ->. reflexivity.
  - intros Hne. apply String.eqb_neq in Hne. rewrite Hne.
    destruct (list_find _ (all cell)) as [[i0 sec0] |] eqn:Hf.
    + apply list_find_Some in Hf as (H1 & H2 & H3).
      split; [| split].
      * intros i. split.
        -- intros [= <-]. exists sec0. split_and!; try assumption.
           intros j sec' Hj Hs. exact (H3 j sec' Hs Hj).
        -- intros (sec & Hi & Hs & Hfirst).
           f_equal.
           destruct (Nat.lt_trichotomy i i0) as [Hlt | [-> | Hgt]];
             [| reflexivity |].
           ++ exfalso. exact (H3 i sec Hi Hlt Hs).
           ++ exfalso. exact (Hfirst i0 sec0 Hgt H1 H2).
      * split; [discriminate |].
        intros Hnone. exfalso.
        apply (Hnone sec0); [| exact H2].
        apply list_elem_of_lookup. now exists i0.
      * discriminate.
    + pose proof (proj1 (list_find_None _ _) Hf) as Hall.
      rewrite Forall_forall in Hall.
      split; [| split].
      * intros i. split; [discriminate |].
        intros (sec & Hi & Hs & _). exfalso.
        apply (Hall sec); [| exact Hs].
        apply list_elem_of_lookup. now exists i.
      * split; [intros _; exact Hall | reflexivity].
      * now intros e [= <-].
Qed.

Lemma clamp_goes_to_first_match_witness :
  Stim.clamp_section (example_msn dmsn) "soma" = Ok 0%nat /\
  Stim.clamp_section (example_msn dmsn) "axon" = Ok 2%nat.
Proof.
  split.
  - now apply (proj1 (clamp_goes_to_first_match (example_msn dmsn) "soma")).
  - apply (proj1 (proj2 (clamp_goes_to_first_match (example_msn dmsn) "axon")
                    ltac:(discriminate))).
    eexists. split; [reflexivity |]. split; [reflexivity |].
    intros j sec' Hj Hs.
    destruct j as [| [| j]]; [| | lia]; injection Hs as <-; discriminate.
Defined.

(** ** The passive conductance of [MSN.__init__] *)

(** X27.  The passive conductance [_gbar_pas].  It is the value of the
    first row of the conductance table, in file order, whose cell column
    is the cell type or ['all'] and whose mechanism is ['pas'], whatever
    its compartment; the constructor fails with [IndexError] exactly when
    the table has no such row. *)
Theorem passive_conductance_first_row (self : ModelParameters)
    (ct : string) :
  (forall pre row post,
     _conductances self = (pre ++ row :: post)%list ->
     c_cell row = ct \/ c_cell row = "all" ->
     c_mechanism row = "pas" ->
     (forall r, r ∈ pre ->
        ~ ((c_cell r = ct \/ c_cell r = "all") /\ c_mechanism r = "pas")) ->
     pas_conductance self ct = Ok (c_value row)) /\
  (pas_conductance self ct = Raise IndexError <->
   forall r, r ∈ _conductances self ->
     ~ ((c_cell r = ct \/ c_cell r = "all") /\ c_mechanism r = "pas")) /\
  (forall e, pas_conductance self ct = Raise e -> e = IndexError).
Proof.
  unfold pas_conductance, get_gbar. split; [| split].
  - intros pre row post Hfile Hcell Hmech Hpre. rewrite Hfile.
    rewrite filter_app, filter_cons_True by exact Hcell.
    rewrite filter_app, filter_cons_True by exact Hmech.
    rewrite (filter_none _ (filter _ pre)); [reflexivity |].
    intros r Hr. apply list_elem_of_filter in Hr as [Hc Hin].
    intros Hm. apply (Hpre r Hin). tauto.
  - destruct (filter _ (filter _ (_conductances self))) as [| row rows] eqn:E.
    + split; [| reflexivity]. intros _ r Hin [Hc Hm].
      assert (Hr : r ∈ filter (fun row => c_mechanism row = "pas")
                     (filter (fun row => c_cell row = ct \/ c_cell row = "all")
                        (_conductances self)))
        by (apply list_elem_of_filter; split; [exact Hm |];
            apply list_elem_of_filter; split; assumption).
      rewrite E in Hr. now apply elem_of_nil in Hr.
    + split; [discriminate |]. intros Hnone. exfalso.
      assert (Hr : row ∈ filter (fun row => c_mechanism row = "pas")
                     (filter (fun row => c_cell row = ct \/ c_cell row = "all")
                        (_conductances self)))
        by (rewrite E; now left).
      apply list_elem_of_filter in Hr as [Hm Hr].
      apply list_elem_of_filter in Hr as [Hc Hin].
      exact (Hnone row Hin (conj Hc Hm)).
  - intros e. destruct (filter _ _); [now intros [= <-] | discriminate].
Qed.

Lemma passive_conductance_first_row_witness :
  pas_conductance
    (MkModelParameters ∅
       [ConductanceRow "imsn" "pas" "all" (Fin 2);
        ConductanceRow "all" "pas" "all" (Fin 1.25e-5);
        ConductanceRow "dmsn" "pas" "all" (Fin 3)]) "dmsn"
  = Ok (Fin 1.25e-5).
Proof.
  apply (proj1 (passive_conductance_first_row _ "dmsn")
           [ConductanceRow "imsn" "pas" "all" (Fin 2)]
           (ConductanceRow "all" "pas" "all" (Fin 1.25e-5))
           [ConductanceRow "dmsn" "pas" "all" (Fin 3)]).
  - reflexivity.
  - now right.
  - reflexivity.
  - intros r Hr. apply list_elem_of_singleton in Hr as ->.
    simpl. intros [[H | H] _]; discriminate.
Defined.

(** ** The two packages on background noise *)



